(** * Smart-home network visualiser: the canvas animation of [src/App.js]

    A shallow embedding of the canvas effect of the [App] component: the
    packet engine ([createPacket], [updatePackets]), the five topology
    drawing functions, the frame callback [animate] and [resizeCanvas].

    Conventions of the embedding.
    - JavaScript numbers are idealised as real numbers ([R]): rounding,
      infinities and NaN are not represented.  The one division whose
      divisor is not a constant ([ratio] in [updatePackets]) is checked: a
      zero divisor yields the outcome [NonFinite].
    - Reading a property of [undefined] yields the outcome [TypeError].
    - [Math.random()] reads the next value of a stream carried by the
      [World]; the [do ... while (collision)] loops take a bound on their
      number of iterations and yield [Diverge] when it is exceeded.
    - The 2D context is a log of the drawing helpers that were called. *)

From Stdlib Require Import Reals Lra Lia ZArith String Bool List.
From Stdlib Require Import DecimalString.
Import ListNotations.
Open Scope R_scope.

(** ** Outcomes *)

Inductive result (A : Type) : Type :=
| Ok (a : A)
| TypeError
| NonFinite
| Diverge.

Arguments Ok {A} a.
Arguments TypeError {A}.
Arguments NonFinite {A}.
Arguments Diverge {A}.

Definition rbind {A B : Type} (m : result A) (k : A -> result B) : result B :=
  match m with
  | Ok a => k a
  | TypeError => TypeError
  | NonFinite => NonFinite
  | Diverge => Diverge
  end.

Declare Scope result_scope.
Delimit Scope result_scope with result.
Notation "'let?' x ':=' m 'in' k" := (rbind m (fun x => k))
  (at level 10, x pattern, m at level 100, k at level 200) : result_scope.
Open Scope result_scope.

Fixpoint rmapM {A B : Type} (f : A -> result B) (l : list A) : result (list B) :=
  match l with
  | [] => Ok []
  | a :: l' =>
      let? b := f a in
      let? bs := rmapM f l' in
      Ok (b :: bs)
  end.

(** ** Numbers *)

Definition Rltb (a b : R) : bool := if Rlt_dec a b then true else false.
Definition Rgeb (a b : R) : bool := if Rge_dec a b then true else false.
Definition Rgtb (a b : R) : bool := if Rgt_dec a b then true else false.

(** [a / b] where [b] is computed: JavaScript yields an infinity or NaN
    when [b] is zero, which the real numbers do not have. *)
Definition checkedDiv (a b : R) : result R :=
  if Req_dec_T b 0 then NonFinite else Ok (a / b).

(** [Math.floor] *)
Definition floor (a : R) : Z := Int_part a.

(** Template literal [`${n}`] for a natural number. *)
Definition showNat (n : nat) : string := NilZero.string_of_uint (Nat.to_uint n).

(** ** Data model *)

Module Node.
(** [{ x, y, label }]; the bus attachment points are built without a
    label. *)
Record t : Type := mk { x : R; y : R; label : option string }.
End Node.

Definition Path : Type := list Node.t.

(** [arr[i]] followed by a property read. *)
Definition index {A : Type} (arr : list A) (i : nat) : result A :=
  match nth_error arr i with
  | Some a => Ok a
  | None => TypeError
  end.

Module Packet.
Record t : Type := mk {
  x : R;
  y : R;
  path : Path;
  currentSegment : nat;
  distanceTraveled : R
}.

(** [packet.x = x'; packet.y = y'] *)
Definition setPos (p : t) (x' y' : R) : t :=
  mk x' y' (path p) (currentSegment p) (distanceTraveled p).

(** [packet.currentSegment = s] *)
Definition setCurrentSegment (p : t) (s : nat) : t :=
  mk (x p) (y p) (path p) s (distanceTraveled p).

(** [packet.distanceTraveled = d] *)
Definition setDistanceTraveled (p : t) (d : R) : t :=
  mk (x p) (y p) (path p) (currentSegment p) d.
End Packet.

(** The [packets] array.  [animate] stores [lastSpawnTime] as a property
    of the array object itself, so it belongs to one array value. *)
Record PacketArray : Type := mkPacketArray {
  items : list Packet.t;
  lastSpawnTime : option R
}.

(** [[]] *)
Definition emptyArray : PacketArray := mkPacketArray [] None.

(** ** Constants of the effect *)

Definition deviceRadius : R := 15.
Definition deviceColor : string := "#3B82F6".
Definition connectionColor : string := "#60A5FA".
Definition textColor : string := "#1F2937".
Definition packetColor : string := "#FFD700".
Definition packetRadius : R := 5.
Definition packetSpeed : R := 1.5.
Definition packetInterval : R := 1000.

(** ** Packet engine *)

Definition createPacket (path : Path) : result (option Packet.t) :=
  if (Z.of_nat (length path) <? 2)%Z then Ok None
  else
    let? p0 := index path 0 in
    Ok (Some (Packet.mk (Node.x p0) (Node.y p0) path 0 0)).

(** [path.length - 1 <= currentSegment] *)
Definition atPathEnd (packet : Packet.t) : bool :=
  (Z.of_nat (Packet.currentSegment packet)
   >=? Z.of_nat (length (Packet.path packet)) - 1)%Z.

Definition segmentLength (startNode endNode : Node.t) : R :=
  sqrt ((Node.x endNode - Node.x startNode) ^ 2
        + (Node.y endNode - Node.y startNode) ^ 2).

(** The callback given to [packets.filter] in [updatePackets]: the value
    it returns and the packet as the callback leaves it. *)
Definition updatePacket (deltaTime : R) (packet : Packet.t)
  : result (bool * Packet.t) :=
  if atPathEnd packet then Ok (false, packet)
  else
    let? startNode := index (Packet.path packet) (Packet.currentSegment packet) in
    let? endNode := index (Packet.path packet) (Packet.currentSegment packet + 1) in
    let segLen := segmentLength startNode endNode in
    let packet :=
      Packet.setDistanceTraveled packet
        (Packet.distanceTraveled packet + packetSpeed * (deltaTime / 16)) in
    if Rgeb (Packet.distanceTraveled packet) segLen then
      let packet := Packet.setCurrentSegment packet (Packet.currentSegment packet + 1) in
      let packet := Packet.setDistanceTraveled packet 0 in
      if atPathEnd packet then Ok (false, packet)
      else
        let? node := index (Packet.path packet) (Packet.currentSegment packet) in
        Ok (true, Packet.setPos packet (Node.x node) (Node.y node))
    else
      let? ratio := checkedDiv (Packet.distanceTraveled packet) segLen in
      Ok (true,
          Packet.setPos packet
            (Node.x startNode + (Node.x endNode - Node.x startNode) * ratio)
            (Node.y startNode + (Node.y endNode - Node.y startNode) * ratio)).

(** [packets = packets.filter(...)]: a new array, which has no
    [lastSpawnTime] property. *)
Definition keptPackets (rs : list (bool * Packet.t)) : list Packet.t :=
  map snd (filter fst rs).

Definition updatePackets (deltaTime : R) (packets : PacketArray)
  : result PacketArray :=
  let? rs := rmapM (updatePacket deltaTime) (items packets) in
  Ok (mkPacketArray (keptPackets rs) None).

(** ** The drawing surface and [Math.random] *)

Inductive DrawOp : Type :=
| DrawDevice (x y radius : R) (color : string) (label : option string)
| DrawConnection (x1 y1 x2 y2 : R) (color : string)
| StrokeLine (x1 y1 x2 y2 : R) (strokeStyle : string) (lineWidth : R)
| FillText (text : string) (x y : R)
| DrawPacket (x y : R).

(** What has been drawn since the surface was last cleared, and the values
    the coming calls of [Math.random()] return. *)
Record World : Type := mkWorld {
  canvasOps : list DrawOp;
  mathRandom : nat -> R
}.

Definition Draw (A : Type) : Type := World -> result (A * World).

Definition ret {A : Type} (a : A) : Draw A := fun w => Ok (a, w).

Definition bind {A B : Type} (m : Draw A) (k : A -> Draw B) : Draw B :=
  fun w => let? (a, w') := m w in k a w'.

Definition liftR {A : Type} (m : result A) : Draw A :=
  fun w => let? a := m in Ok (a, w).

Declare Scope draw_scope.
Delimit Scope draw_scope with draw.
Notation "'let*' x ':=' m 'in' k" := (bind m (fun x => k))
  (at level 10, x pattern, m at level 100, k at level 200) : draw_scope.
Notation "m ';;' k" := (bind m (fun _ => k))
  (at level 100, k at level 200, right associativity) : draw_scope.
Open Scope draw_scope.

Definition emit (op : DrawOp) : Draw unit :=
  fun w => Ok (tt, mkWorld (canvasOps w ++ [op]) (mathRandom w)).

(** [Math.random()] *)
Definition random : Draw R :=
  fun w => Ok (mathRandom w 0%nat,
               mkWorld (canvasOps w) (fun n => mathRandom w (S n))).

(** [ctx.clearRect(0, 0, canvas.width, canvas.height)] *)
Definition clearRect : Draw unit :=
  fun w => Ok (tt, mkWorld [] (mathRandom w)).

(** [for (const a of l) body], threading the variables the body assigns. *)
Fixpoint forEachM {A S : Type} (body : A -> S -> Draw S) (l : list A) (s : S)
  : Draw S :=
  match l with
  | [] => ret s
  | a :: l' => let* s' := body a s in forEachM body l' s'
  end.

(** [for (let i = from; i < to; i++) body] *)
Definition forRange {S : Type} (from to : nat) (body : nat -> S -> Draw S) (s : S)
  : Draw S :=
  forEachM body (seq from (to - from)) s.

(** [do body while (cond)], at most [fuel] iterations. *)
Fixpoint doWhile {A : Type} (fuel : nat) (body : Draw (A * bool)) : Draw A :=
  match fuel with
  | O => fun _ => Diverge
  | S fuel' =>
      let* (a, again) := body in
      if again then doWhile fuel' body else ret a
  end.

Definition drawDevice (x y radius : R) (color : string) (label : option string)
  : Draw unit :=
  emit (DrawDevice x y radius color label).

Definition drawConnection (x1 y1 x2 y2 : R) (color : string) : Draw unit :=
  emit (DrawConnection x1 y1 x2 y2 color).

Definition drawPacket (packet : Packet.t) : Draw unit :=
  emit (DrawPacket (Packet.x packet) (Packet.y packet)).

(** The nodes a sequence of drawing operations shows: one per
    [drawDevice] call. *)
Definition drawnNodes (ops : list DrawOp) : list Node.t :=
  flat_map (fun op =>
              match op with
              | DrawDevice x y _ _ label => [Node.mk x y label]
              | _ => []
              end) ops.

(** ** Topology drawing functions *)

Definition bothWays (a b : Node.t) : list Path := [[a; b]; [b; a]].

Definition drawStarTopology (width height r : R) (dColor cColor tColor : string)
  : Draw (list Path) :=
  let centerX := width / 2 in
  let centerY := height / 2 in
  let hub := Node.mk centerX centerY (Some "Router/Hub"%string) in
  let numDevices := 5%nat in
  let spreadRadius := Rmin width height * 0.35 in
  drawDevice (Node.x hub) (Node.y hub) (r + 5) "#EF4444" (Node.label hub) ;;
  let* devices :=
    forRange 0 numDevices (fun i devices =>
      let angle := (INR i / INR numDevices) * PI * 2 in
      let deviceX := centerX + spreadRadius * cos angle in
      let deviceY := centerY + spreadRadius * sin angle in
      let device :=
        Node.mk deviceX deviceY (Some ("Device " ++ showNat (i + 1))%string) in
      drawDevice (Node.x device) (Node.y device) r dColor (Node.label device) ;;
      drawConnection (Node.x hub) (Node.y hub) (Node.x device) (Node.y device) cColor ;;
      ret (devices ++ [device])) [] in
  ret (flat_map (fun device => bothWays hub device) devices).

(** The [for (const existingDevice of devices)] scan of the placement
    loops: the final value of [collision]. *)
Definition collides (x y r : R) (devices : list Node.t) : bool :=
  existsb (fun existingDevice =>
             let dist := sqrt ((x - Node.x existingDevice) ^ 2
                               + (y - Node.y existingDevice) ^ 2) in
             Rltb dist (r * 4)) devices.

(** The nested [for i] / [for j = i + 1] loops over a cluster: draws the
    connection and pushes the two directed paths of every pair. *)
Definition connectAll (devices : list Node.t) (cColor : string) (paths : list Path)
  : Draw (list Path) :=
  forRange 0 (length devices) (fun i paths =>
    forRange (i + 1) (length devices) (fun j paths =>
      let* di := liftR (index devices i) in
      let* dj := liftR (index devices j) in
      drawConnection (Node.x di) (Node.y di) (Node.x dj) (Node.y dj) cColor ;;
      ret (paths ++ [[di; dj]] ++ [[dj; di]])) paths) paths.

Definition meshPlacement (fuel : nat) (width height r : R) : Draw (list Node.t) :=
  let numDevices := 5%nat in
  let padding := r * 2 in
  forRange 0 numDevices (fun i devices =>
    let* (x, y) :=
      doWhile fuel
        (let* u := random in
         let x := padding + u * (width - 2 * padding) in
         let* v := random in
         let y := padding + v * (height - 2 * padding) in
         ret ((x, y), collides x y r devices)) in
    ret (devices ++ [Node.mk x y (Some ("Device " ++ showNat (i + 1))%string)])) [].

Definition drawMeshTopology (fuel : nat) (width height r : R)
  (dColor cColor tColor : string) : Draw (list Path) :=
  let* devices := meshPlacement fuel width height r in
  let* paths := connectAll devices cColor [] in
  forEachM (fun device (_ : unit) =>
    drawDevice (Node.x device) (Node.y device) r dColor (Node.label device))
    devices tt ;;
  ret paths.

Definition drawBusTopology (width height r : R) (dColor cColor tColor : string)
  : Draw (list Path) :=
  let busY := height / 2 in
  let numDevices := 5%nat in
  let startX := width * 0.1 in
  let endX := width * 0.9 in
  let busLength := endX - startX in
  let deviceSpacing := busLength / INR (numDevices - 1) in
  emit (StrokeLine startX busY endX busY "#F59E0B" 4) ;;
  emit (FillText "Main Bus" (width / 2) (busY - 20)) ;;
  let* devices :=
    forRange 0 numDevices (fun i devices =>
      let deviceX := startX + INR i * deviceSpacing in
      let deviceY := busY + r * 2 in
      let device :=
        Node.mk deviceX deviceY (Some ("Device " ++ showNat (i + 1))%string) in
      drawDevice (Node.x device) (Node.y device) r dColor (Node.label device) ;;
      drawConnection (Node.x device) (Node.y device - r) (Node.x device) busY cColor ;;
      ret (devices ++ [device])) [] in
  let busNodes := map (fun d => Node.mk (Node.x d) busY None) devices in
  forRange 0 (length busNodes - 1) (fun i paths =>
    let* a := liftR (index busNodes i) in
    let* b := liftR (index busNodes (i + 1)) in
    ret (paths ++ [[a; b]] ++ [[b; a]])) [].

Definition drawTreeTopology (width height r : R) (dColor cColor tColor : string)
  : Draw (list Path) :=
  let paths : list Path := [] in
  let root := Node.mk (width / 2) (height * 0.15) (Some "Root Hub"%string) in
  drawDevice (Node.x root) (Node.y root) r "#EF4444" (Node.label root) ;;
  let level1Y := height * 0.45 in
  let level1A := Node.mk (width * 0.25) level1Y (Some "Sub-Hub A"%string) in
  let level1B := Node.mk (width * 0.75) level1Y (Some "Sub-Hub B"%string) in
  drawDevice (Node.x level1A) (Node.y level1A) r "#F59E0B" (Node.label level1A) ;;
  drawConnection (Node.x root) (Node.y root) (Node.x level1A) (Node.y level1A) cColor ;;
  let paths := paths ++ [[root; level1A]] ++ [[level1A; root]] in
  drawDevice (Node.x level1B) (Node.y level1B) r "#F59E0B" (Node.label level1B) ;;
  drawConnection (Node.x root) (Node.y root) (Node.x level1B) (Node.y level1B) cColor ;;
  let paths := paths ++ [[root; level1B]] ++ [[level1B; root]] in
  let level2Y := height * 0.75 in
  let devices :=
    [ Node.mk (width * 0.15) level2Y (Some "Device 1"%string);
      Node.mk (width * 0.35) level2Y (Some "Device 2"%string);
      Node.mk (width * 0.65) level2Y (Some "Device 3"%string);
      Node.mk (width * 0.85) level2Y (Some "Device 4"%string) ] in
  (** one leaf: [devices[k]] under [parent] *)
  let leaf (parent : Node.t) (k : nat) (paths : list Path) : Draw (list Path) :=
    let* d := liftR (index devices k) in
    drawDevice (Node.x d) (Node.y d) r dColor (Node.label d) ;;
    drawConnection (Node.x parent) (Node.y parent) (Node.x d) (Node.y d) cColor ;;
    ret (paths ++ [[parent; d]] ++ [[d; parent]]) in
  let* paths := leaf level1A 0%nat paths in
  let* paths := leaf level1A 1%nat paths in
  let* paths := leaf level1B 2%nat paths in
  let* paths := leaf level1B 3%nat paths in
  ret paths.

(** The mesh part of [drawHybridTopology]: the placement loop. *)
Definition hybridMeshPlacement (fuel : nat) (width height r : R)
  : Draw (list Node.t) :=
  let meshPaddingX := width * 0.6 in
  let meshPaddingY := height * 0.1 in
  let meshWidth := width * 0.3 in
  let meshHeight := height * 0.8 in
  forRange 0 3 (fun i meshDevices =>
    let* (x, y) :=
      doWhile fuel
        (let* u := random in
         let x := meshPaddingX + u * meshWidth in
         let* v := random in
         let y := meshPaddingY + v * meshHeight in
         ret ((x, y), collides x y r meshDevices)) in
    let device := Node.mk x y (Some ("M-Dev " ++ showNat (i + 1))%string) in
    ret (meshDevices ++ [device])) [].

Definition drawHybridTopology (fuel : nat) (width height r : R)
  (dColor cColor tColor : string) : Draw (list Path) :=
  let paths : list Path := [] in
  let starHub := Node.mk (width * 0.25) (height / 2) (Some "Star Hub"%string) in
  drawDevice (Node.x starHub) (Node.y starHub) (r + 5) "#EF4444" (Node.label starHub) ;;
  let starSpread := width * 0.1 in
  let* (starDevices, paths) :=
    forRange 0 3 (fun i '(starDevices, paths) =>
      let angle := (INR i / 3) * PI * 2 in
      let devX := Node.x starHub + starSpread * cos angle in
      let devY := Node.y starHub + starSpread * sin angle in
      let device := Node.mk devX devY (Some ("S-Dev " ++ showNat (i + 1))%string) in
      drawDevice (Node.x device) (Node.y device) r dColor (Node.label device) ;;
      drawConnection (Node.x starHub) (Node.y starHub)
                     (Node.x device) (Node.y device) cColor ;;
      ret (starDevices ++ [device],
           paths ++ [[starHub; device]] ++ [[device; starHub]])) ([], paths) in
  let* meshDevices := hybridMeshPlacement fuel width height r in
  let* paths := connectAll meshDevices cColor paths in
  forEachM (fun device (_ : unit) =>
    drawDevice (Node.x device) (Node.y device) r "#10B981" (Node.label device))
    meshDevices tt ;;
  if ((0 <? length starDevices) && (0 <? length meshDevices))%nat then
    let* m0 := liftR (index meshDevices 0) in
    drawConnection (Node.x starHub) (Node.y starHub) (Node.x m0) (Node.y m0) "#DC2626" ;;
    let paths := paths ++ [[starHub; m0]] ++ [[m0; starHub]] in
    emit (FillText "Bridge Link" ((Node.x starHub + Node.x m0) / 2)
                   ((Node.y starHub + Node.y m0) / 2 - 10)) ;;
    ret paths
  else ret paths.

(** The [switch (selectedTopology)] of [animate]. *)
Definition drawSelectedTopology (selectedTopology : string) (fuel : nat)
  (width height : R) : Draw (list Path) :=
  if String.eqb selectedTopology "star" then
    drawStarTopology width height deviceRadius deviceColor connectionColor textColor
  else if String.eqb selectedTopology "mesh" then
    drawMeshTopology fuel width height deviceRadius deviceColor connectionColor textColor
  else if String.eqb selectedTopology "bus" then
    drawBusTopology width height deviceRadius deviceColor connectionColor textColor
  else if String.eqb selectedTopology "tree" then
    drawTreeTopology width height deviceRadius deviceColor connectionColor textColor
  else if String.eqb selectedTopology "hybrid" then
    drawHybridTopology fuel width height deviceRadius deviceColor connectionColor textColor
  else
    drawStarTopology width height deviceRadius deviceColor connectionColor textColor.

(** ** The animation driver *)

(** The variables the effect closes over, the canvas element, the
    animation-frame queue of the browser, and one ghost field:
    [spawnEvents] counts the [packets.push] calls executed so far. *)
Record AnimState : Type := mkAnimState {
  packets : PacketArray;
  lastTime : R;
  canvasWidth : R;
  canvasHeight : R;
  animationFrameId : option nat;
  pendingFrames : list nat;
  frameRequests : nat;
  world : World;
  spawnEvents : nat
}.

(** [packets.lastSpawnTime || 0] *)
Definition lastSpawnOr0 (packets : PacketArray) : R :=
  match lastSpawnTime packets with
  | Some t => t
  | None => 0
  end.

(** [arr[k]] for a computed integer [k], followed by a property read. *)
Definition indexZ {A : Type} (arr : list A) (k : Z) : result A :=
  if (k <? 0)%Z then TypeError else index arr (Z.to_nat k).

(** "Add new packets periodically": the new value of [packets], and
    whether [packets.push] was executed. *)
Definition spawnStep (currentTime : R) (currentPaths : list Path)
  (packets : PacketArray) : Draw (PacketArray * bool) :=
  if Rgtb (currentTime - lastSpawnOr0 packets) packetInterval then
    if (0 <? length currentPaths)%nat then
      let* u := random in
      let* randomPath :=
        liftR (indexZ currentPaths (floor (u * INR (length currentPaths)))) in
      let* newPacket := liftR (createPacket randomPath) in
      match newPacket with
      | Some p =>
          ret (mkPacketArray (items packets ++ [p]) (Some currentTime), true)
      | None => ret (packets, false)
      end
    else ret (packets, false)
  else ret (packets, false).

(** The body of [animate] up to the drawing of the packets. *)
Definition animateFrame (selectedTopology : string) (fuel : nat)
  (currentTime deltaTime width height : R) (packets : PacketArray)
  : Draw (PacketArray * bool) :=
  clearRect ;;
  let* currentPaths := drawSelectedTopology selectedTopology fuel width height in
  let* (packets, pushed) := spawnStep currentTime currentPaths packets in
  let* packets := liftR (updatePackets deltaTime packets) in
  forEachM (fun packet (_ : unit) => drawPacket packet) (items packets) tt ;;
  ret (packets, pushed).

Definition animate (selectedTopology : string) (fuel : nat) (currentTime : R)
  (s : AnimState) : result AnimState :=
  let deltaTime := currentTime - lastTime s in
  let? (r, w) :=
    animateFrame selectedTopology fuel currentTime deltaTime
                 (canvasWidth s) (canvasHeight s) (packets s) (world s) in
  let id := S (frameRequests s) in
  Ok (mkAnimState (fst r) currentTime (canvasWidth s) (canvasHeight s)
        (Some id) (pendingFrames s ++ [id]) id w
        (spawnEvents s + (if snd r then 1 else 0))).

(** [cancelAnimationFrame(id)] *)
Definition cancelAnimationFrame (id : nat) (pending : list nat) : list nat :=
  filter (fun k => negb (k =? id)%nat) pending.

(** [resizeCanvas], given the [offsetWidth] of the canvas element and the
    value of [performance.now()].  The [height] attribute of a canvas is an
    integer: the assigned number loses its fraction. *)
Definition resizeCanvas (selectedTopology : string) (fuel : nat)
  (offsetWidth : nat) (now : R) (s : AnimState) : result AnimState :=
  let width := INR offsetWidth in
  let height := IZR (floor (Rmin (INR offsetWidth * 0.6) 400)) in
  let pending :=
    match animationFrameId s with
    | Some id =>
        if (id =? 0)%nat then pendingFrames s
        else cancelAnimationFrame id (pendingFrames s)
    | None => pendingFrames s
    end in
  let lastTime := now in
  let packets := emptyArray in
  animate selectedTopology fuel lastTime
    (mkAnimState packets lastTime width height (animationFrameId s) pending
       (frameRequests s) (world s) (spawnEvents s)).

(** The browser runs the frame callback scheduled last, at time [t]. *)
Definition runFrame (selectedTopology : string) (fuel : nat) (t : R)
  (s : AnimState) : result AnimState :=
  match animationFrameId s with
  | Some id =>
      if existsb (Nat.eqb id) (pendingFrames s) then
        animate selectedTopology fuel t
          (mkAnimState (packets s) (lastTime s) (canvasWidth s) (canvasHeight s)
             (animationFrameId s) (cancelAnimationFrame id (pendingFrames s))
             (frameRequests s) (world s) (spawnEvents s))
      else Ok s
  | None => Ok s
  end.

(** The frames of a run, at the given times. *)
Fixpoint runFrames (selectedTopology : string) (fuel : nat) (times : list R)
  (s : AnimState) : result AnimState :=
  match times with
  | [] => Ok s
  | t :: times' =>
      let? s' := runFrame selectedTopology fuel t s in
      runFrames selectedTopology fuel times' s'
  end.

(** The state in which the effect calls [resizeCanvas] for the first
    time: no packets, [lastTime = 0], nothing scheduled, and a canvas of
    the default size 300 x 150. *)
Definition mountState (w : World) : AnimState :=
  mkAnimState emptyArray 0 300 150 None [] 0 w 0.

(** ** The layout as the specification names it: the nodes drawn and the
    paths returned by one call on a cleared surface. *)

Inductive TopologyKind : Type := Star | Mesh | Bus | Tree | Hybrid.

Definition kindName (k : TopologyKind) : string :=
  match k with
  | Star => "star"
  | Mesh => "mesh"
  | Bus => "bus"
  | Tree => "tree"
  | Hybrid => "hybrid"
  end.

Definition drawTopology (k : TopologyKind) (fuel : nat) (width height r : R)
  : Draw (list Path) :=
  match k with
  | Star => drawStarTopology width height r deviceColor connectionColor textColor
  | Mesh => drawMeshTopology fuel width height r deviceColor connectionColor textColor
  | Bus => drawBusTopology width height r deviceColor connectionColor textColor
  | Tree => drawTreeTopology width height r deviceColor connectionColor textColor
  | Hybrid => drawHybridTopology fuel width height r deviceColor connectionColor textColor
  end.

Definition generate (k : TopologyKind) (fuel : nat) (width height r : R)
  (rnd : nat -> R) : result (list Node.t * list Path) :=
  let? (paths, w) := drawTopology k fuel width height r (mkWorld [] rnd) in
  Ok (drawnNodes (canvasOps w), paths).

(** ** Vocabulary of the properties *)

(** The distance a packet has travelled on its segment once the frame has
    added its share. *)
Definition advancedDistance (deltaTime : R) (packet : Packet.t) : R :=
  Packet.distanceTraveled packet + packetSpeed * (deltaTime / 16).

(** The operands [distanceTraveled] and [segmentLength] of the division in
    [updatePacket], when the run of the callback reaches it. *)
Definition interpolationOperands (deltaTime : R) (packet : Packet.t)
  : option (R * R) :=
  if atPathEnd packet then None
  else
    match nth_error (Packet.path packet) (Packet.currentSegment packet),
          nth_error (Packet.path packet) (Packet.currentSegment packet + 1) with
    | Some startNode, Some endNode =>
        if Rgeb (advancedDistance deltaTime packet)
                (segmentLength startNode endNode)
        then None
        else Some (advancedDistance deltaTime packet,
                   segmentLength startNode endNode)
    | _, _ => None
    end.

(** [qs] is obtained from [ps] by dropping some packets and, for each one
    kept, keeping its path and either keeping or incrementing its
    [currentSegment]; the order is that of [ps]. *)
Inductive advancedFrom : list Packet.t -> list Packet.t -> Prop :=
| advanced_nil : advancedFrom [] []
| advanced_drop (p : Packet.t) (ps qs : list Packet.t) :
    advancedFrom ps qs -> advancedFrom (p :: ps) qs
| advanced_keep (p q : Packet.t) (ps qs : list Packet.t) :
    Packet.path q = Packet.path p ->
    (Packet.currentSegment q = Packet.currentSegment p
     \/ Packet.currentSegment q = S (Packet.currentSegment p)) ->
    advancedFrom ps qs -> advancedFrom (p :: ps) (q :: qs).

(** Closed forms of the deterministic layouts; the theorems below show
    that the drawing functions compute them. *)

Definition starHubNode (width height : R) : Node.t :=
  Node.mk (width / 2) (height / 2) (Some "Router/Hub"%string).

Definition starDeviceNode (width height : R) (i : nat) : Node.t :=
  Node.mk (width / 2 + Rmin width height * 0.35 * cos (INR i / INR 5 * PI * 2))
          (height / 2 + Rmin width height * 0.35 * sin (INR i / INR 5 * PI * 2))
          (Some ("Device " ++ showNat (i + 1))%string).

Definition starDeviceNodes (width height : R) : list Node.t :=
  map (starDeviceNode width height) (seq 0 5).

Definition starPaths (width height : R) : list Path :=
  flat_map (bothWays (starHubNode width height)) (starDeviceNodes width height).

Definition busDeviceNode (width height r : R) (i : nat) : Node.t :=
  Node.mk (width * 0.1 + INR i * ((width * 0.9 - width * 0.1) / INR 4))
          (height / 2 + r * 2)
          (Some ("Device " ++ showNat (i + 1))%string).

(** The point of the bus line above a device. *)
Definition busAttachment (height : R) (device : Node.t) : Node.t :=
  Node.mk (Node.x device) (height / 2) None.

Definition treeRoot (width height : R) : Node.t :=
  Node.mk (width / 2) (height * 0.15) (Some "Root Hub"%string).
Definition treeSubHubA (width height : R) : Node.t :=
  Node.mk (width * 0.25) (height * 0.45) (Some "Sub-Hub A"%string).
Definition treeSubHubB (width height : R) : Node.t :=
  Node.mk (width * 0.75) (height * 0.45) (Some "Sub-Hub B"%string).
Definition treeLeaf (width height : R) (k : nat) : Node.t :=
  Node.mk (width * nth k [0.15; 0.35; 0.65; 0.85] 0) (height * 0.75)
          (Some ("Device " ++ showNat (k + 1))%string).

(** The parent-child edges of the tree layout. *)
Definition treeEdges (width height : R) : list (Node.t * Node.t) :=
  [ (treeRoot width height, treeSubHubA width height);
    (treeRoot width height, treeSubHubB width height);
    (treeSubHubA width height, treeLeaf width height 0);
    (treeSubHubA width height, treeLeaf width height 1);
    (treeSubHubB width height, treeLeaf width height 2);
    (treeSubHubB width height, treeLeaf width height 3) ].

(** Euclidean distance between two nodes. *)
Definition distance (a b : Node.t) : R :=
  sqrt ((Node.x a - Node.x b) ^ 2 + (Node.y a - Node.y b) ^ 2).

(** Every two nodes at different positions of the list are at least
    [4 * r] apart. *)
Definition spaced (r : R) (nodes : list Node.t) : Prop :=
  forall (i j : nat) (a b : Node.t),
    i <> j -> nth_error nodes i = Some a -> nth_error nodes j = Some b ->
    distance a b >= 4 * r.

(** The common shape of the placement loops of [drawMeshTopology] and
    [drawHybridTopology]: [n] devices, each sampled at
    [(fx (Math.random()), fy (Math.random()))] until it collides with none
    of the devices placed before it. *)
Definition placementLoop (n fuel : nat) (fx fy : R -> R) (lbl : nat -> string)
  (r : R) : Draw (list Node.t) :=
  forRange 0 n (fun i devices =>
    let* (x, y) :=
      doWhile fuel
        (let* u := random in
         let x := fx u in
         let* v := random in
         let y := fy v in
         ret ((x, y), collides x y r devices)) in
    ret (devices ++ [Node.mk x y (Some (lbl i))])) [].

(** The nodes of the randomly placed cluster among the nodes a layout
    draws, in drawing order: all five nodes of the mesh layout; in the
    hybrid layout the three nodes drawn after the star hub and its three
    devices. *)
Definition randomCluster (k : TopologyKind) (nodes : list Node.t) : list Node.t :=
  match k with
  | Mesh => nodes
  | Hybrid => skipn 4 nodes
  | _ => []
  end.

(** A path of [paths'] is either one of [paths] or joins two of the
    [devices]. *)
Definition joinsOrIn (devices : list Node.t) (paths paths' : list Path) : Prop :=
  forall p, In p paths' ->
            In p paths \/ exists a b, In a devices /\ In b devices /\ p = [a; b].

(** ** Example inputs *)

(** Values of [Math.random()] for a run of the mesh layout in which the
    first candidate for the second device is rejected. *)
Definition exampleDraws : nat -> R :=
  fun n => nth n [0; 0; 0; 0; 1/2; 0; 0; 1/2; 1/2; 1/2; 3/4; 3/4] 0.

(** [Math.random()] returning 0 at every call. *)
Definition zeroDraws : nat -> R := fun _ => 0.

(** A packet on the first segment of one of the paths of the star layout
    of a [width] x [height] canvas, at most [bound] along it. *)
Definition onFirstSegment (width height bound : R) (p : Packet.t) : Prop :=
  In (Packet.path p) (starPaths width height)
  /\ Packet.currentSegment p = 0%nat
  /\ 0 <= Packet.distanceTraveled p <= bound.

(** A running animation of the star topology: the last frame ran at
    [time], the array holds [count] packets, all within [bound] of the
    start of their path, and [spawned] packets were pushed so far. *)
Record starRunning (width height bound time : R) (count spawned : nat)
  (s : AnimState) : Prop := mkStarRunning {
  running_width : canvasWidth s = width;
  running_height : canvasHeight s = height;
  running_time : lastTime s = time;
  running_forgot : lastSpawnTime (packets s) = None;
  running_count : length (items (packets s)) = count;
  running_spawned : spawnEvents s = spawned;
  running_packets : Forall (onFirstSegment width height bound) (items (packets s));
  running_scheduled :
    exists id, animationFrameId s = Some id
               /\ existsb (Nat.eqb id) (pendingFrames s) = true;
  running_draws : forall n, 0 <= mathRandom (world s) n < 1
}.

(** Frame times that do not decrease, starting from [t0]. *)
Fixpoint ascendingFrom (t0 : R) (times : list R) : Prop :=
  match times with
  | [] => True
  | t :: times' => t0 <= t /\ ascendingFrom t times'
  end.

(** The last of the frame times, or [t0] when there is none. *)
Fixpoint lastTimeOf (t0 : R) (times : list R) : R :=
  match times with
  | [] => t0
  | t :: times' => lastTimeOf t times'
  end.

(** ** Further vocabulary *)

(** A packet that has somewhere to go: its current segment exists, and its
    distance along it is zero or less than the length of the segment. *)
Definition wellPlaced (p : Packet.t) : Prop :=
  0 <= Packet.distanceTraveled p
  /\ exists startNode endNode,
       nth_error (Packet.path p) (Packet.currentSegment p) = Some startNode
       /\ nth_error (Packet.path p) (Packet.currentSegment p + 1) = Some endNode
       /\ (Packet.distanceTraveled p = 0
           \/ Packet.distanceTraveled p < segmentLength startNode endNode).

(** [n] successive calls of [updatePackets], each for a frame of
    [deltaTime] milliseconds. *)
Fixpoint updateFrames (n : nat) (deltaTime : R) (packets : PacketArray)
  : result PacketArray :=
  match n with
  | O => Ok packets
  | S n' =>
      let? packets' := updatePackets deltaTime packets in
      updateFrames n' deltaTime packets'
  end.

(** The positions of the packets a sequence of drawing operations shows:
    one per [drawPacket] call. *)
Definition drawnPackets (ops : list DrawOp) : list (R * R) :=
  flat_map (fun op =>
              match op with
              | DrawPacket x y => [(x, y)]
              | _ => []
              end) ops.

(** [Math.random()] keeps its contract: every value is in [[0, 1)]. *)
Definition drawsInRange (w : World) : Prop :=
  forall n, 0 <= mathRandom w n < 1.

(** The two directed paths of every pair of a cluster, in the order of the
    nested loops of [connectAll]. *)
Fixpoint pairPaths (devices : list Node.t) : list Path :=
  match devices with
  | [] => []
  | d :: rest => flat_map (fun e => [[d; e]; [e; d]]) rest ++ pairPaths rest
  end.

(** The connections [connectAll] draws, in the same order. *)
Fixpoint pairConnections (devices : list Node.t) (cColor : string)
  : list DrawOp :=
  match devices with
  | [] => []
  | d :: rest =>
      map (fun e => DrawConnection (Node.x d) (Node.y d) (Node.x e) (Node.y e)
                      cColor) rest
      ++ pairConnections rest cColor
  end.

(** [Math.random()] returning [c] at every call. *)
Definition constDraws (c : R) : nat -> R := fun _ => c.

(** What a layout leaves on a cleared canvas. *)
Definition layoutDone (rnd : nat -> R) (res : result (list Path * World)) : Prop :=
  exists paths w',
    res = Ok (paths, w')
    /\ drawnPackets (canvasOps w') = []
    /\ ((forall n, 0 <= rnd n < 1) -> drawsInRange w').

(** ** The rest of the effect and of the component *)

(** The cleanup function the effect returns: it cancels the frame request
    that [animationFrameId.current] names, if any. *)
Definition cleanup (s : AnimState) : AnimState :=
  match animationFrameId s with
  | Some id =>
      if (id =? 0)%nat then s
      else mkAnimState (packets s) (lastTime s) (canvasWidth s) (canvasHeight s)
             (animationFrameId s) (cancelAnimationFrame id (pendingFrames s))
             (frameRequests s) (world s) (spawnEvents s)
  | None => s
  end.

(** Exactly one frame request is pending, and it is the one that
    [animationFrameId.current] names. *)
Definition oneLoop (s : AnimState) : Prop :=
  exists id, id <> 0%nat /\ animationFrameId s = Some id /\ pendingFrames s = [id].

(** What [scrollToSection] reads and writes: the [activeSection] state of
    the component and the sections the page has scrolled to, in order. *)
Record PageState : Type := mkPageState {
  activeSection : string;
  scrolledTo : list string
}.

(** [scrollToSection(id)] on a document whose elements have the ids
    [document]. *)
Definition scrollToSection (document : list string) (id : string)
  (st : PageState) : PageState :=
  if existsb (String.eqb id) document then
    mkPageState id (scrolledTo st ++ [id])
  else st.

(** The sections of the page, and the component as it mounts. *)
Definition pageSections : list string :=
  ["home"; "topologies"; "why-choose"; "simulation"; "topology-select"]%string.

Definition initialPage : PageState := mkPageState "home" [].

(** ** States of a running animation *)

(** A running animation on a 300 by 150 canvas: two packets in flight
    between the hub and a device, the last of them spawned at 4500 ms, the
    last frame run at 4900 ms, and the third frame request, the one that
    frame made, pending. *)
Definition runningExample : AnimState :=
  let hub := Node.mk 150 75 (Some "Hub"%string) in
  let device := Node.mk 202.5 75 (Some "Device 1"%string) in
  mkAnimState
    (mkPacketArray
       [Packet.mk 160 75 [hub; device] 0 10;
        Packet.mk 190 75 [device; hub] 0 12.5]
       (Some 4500))
    4900 300 150 (Some 3%nat) [3%nat] 3 (mkWorld [] zeroDraws) 7.

(** A state with a packet in flight and a frame request pending, 700 ms
    into the life of the page. *)
Definition earlyExample : AnimState :=
  let hub := Node.mk 150 75 (Some "Hub"%string) in
  let device := Node.mk 202.5 75 (Some "Device 1"%string) in
  mkAnimState
    (mkPacketArray [Packet.mk 160 75 [hub; device] 0 10] (Some 200))
    700 300 150 (Some 2%nat) [2%nat] 2 (mkWorld [] zeroDraws) 1.

(** * Properties *)

(** ** Comparisons and outcomes *)

Lemma Rgeb_true (a b : R) : Rgeb a b = true <-> a >= b.
Proof. unfold Rgeb; destruct (Rge_dec a b); split; intros; auto; discriminate. Qed.

Lemma Rgeb_false (a b : R) : Rgeb a b = false <-> a < b.
Proof.
  unfold Rgeb; destruct (Rge_dec a b); split; intros; auto; try discriminate; lra.
Qed.

Lemma Rltb_true (a b : R) : Rltb a b = true <-> a < b.
Proof. unfold Rltb; destruct (Rlt_dec a b); split; intros; auto; discriminate. Qed.

Lemma Rltb_false (a b : R) : Rltb a b = false <-> a >= b.
Proof.
  unfold Rltb; destruct (Rlt_dec a b); split; intros; auto; try discriminate; lra.
Qed.

Lemma Rgtb_true (a b : R) : Rgtb a b = true <-> a > b.
Proof. unfold Rgtb; destruct (Rgt_dec a b); split; intros; auto; discriminate. Qed.

Lemma Rgtb_false (a b : R) : Rgtb a b = false <-> a <= b.
Proof.
  unfold Rgtb; destruct (Rgt_dec a b); split; intros; auto; try discriminate; lra.
Qed.

Lemma checkedDiv_ok (a b : R) : b <> 0 -> checkedDiv a b = Ok (a / b).
Proof. intros Hb; unfold checkedDiv; destruct (Req_dec_T b 0); congruence. Qed.

Lemma rbind_Ok {A B : Type} (m : result A) (k : A -> result B) (b : B) :
  rbind m k = Ok b -> exists a, m = Ok a /\ k a = Ok b.
Proof. destruct m; simpl; intros H; try discriminate; eauto. Qed.

Lemma index_Ok {A : Type} (arr : list A) (i : nat) (a : A) :
  index arr i = Ok a <-> nth_error arr i = Some a.
Proof.
  unfold index; destruct (nth_error arr i); split; intros H;
    try discriminate; congruence.
Qed.

Lemma index_in_range {A : Type} (arr : list A) (i : nat) :
  (i < length arr)%nat -> exists a, index arr i = Ok a /\ nth_error arr i = Some a.
Proof.
  intros H; unfold index; destruct (nth_error arr i) eqn:E; eauto.
  apply nth_error_None in E; lia.
Qed.

Lemma segmentLength_nonneg (a b : Node.t) : 0 <= segmentLength a b.
Proof. apply sqrt_pos. Qed.

(** ** [createPacket] and the spawn step *)

(** C8. A path of fewer than two points makes [createPacket] return null
    without raising, and the spawn step of [animate] that selected such a
    path terminates normally with the array of packets, its
    [lastSpawnTime] included, as it was and nothing pushed. *)
Theorem createPacket_short_path_noop (path : Path) :
  (length path < 2)%nat ->
  createPacket path = Ok None /\
  forall (currentTime : R) (currentPaths : list Path) (packets : PacketArray)
         (w : World),
    indexZ currentPaths (floor (mathRandom w 0%nat * INR (length currentPaths)))
      = Ok path ->
    exists w', spawnStep currentTime currentPaths packets w = Ok ((packets, false), w')
               /\ canvasOps w' = canvasOps w.
Proof.
  intros Hlen.
  assert (Hc : createPacket path = Ok None).
  { unfold createPacket.
    destruct (Z.ltb_spec (Z.of_nat (length path)) 2) as [_ | H]; [reflexivity | lia]. }
  split; [exact Hc |].
  intros currentTime currentPaths packets w Hsel.
  unfold spawnStep.
  destruct (Rgtb _ _); [| exists w; split; reflexivity].
  destruct (0 <? length currentPaths)%nat; [| exists w; split; reflexivity].
  unfold bind, random, liftR, ret; simpl.
  rewrite Hsel; simpl. rewrite Hc; simpl.
  eexists; split; reflexivity.
Qed.

Lemma floor_unique (z : Z) (a : R) : IZR z <= a < IZR z + 1 -> floor a = z.
Proof.
  intros [H1 H2]; unfold floor; symmetry; apply Int_part_spec; lra.
Qed.

Lemma createPacket_short_path_noop_witness :
  createPacket [Node.mk 1 2 None] = Ok None /\
  exists w',
    spawnStep 2000 [[Node.mk 1 2 None]] emptyArray (mkWorld [] (fun _ => 0))
    = Ok ((emptyArray, false), w')
    /\ canvasOps w' = [].
Proof.
  destruct (createPacket_short_path_noop [Node.mk 1 2 None]) as [H1 H2].
  - simpl; lia.
  - split; [exact H1 |].
    apply (H2 2000 [[Node.mk 1 2 None]] emptyArray (mkWorld [] (fun _ => 0))).
    simpl mathRandom; simpl length.
    rewrite (floor_unique 0) by (simpl; lra).
    reflexivity.
Defined.

(** ** [updatePackets] *)

Lemma rmapM_Ok {A B : Type} (f : A -> result B) (l : list A) (bs : list B) :
  rmapM f l = Ok bs -> Forall2 (fun a b => f a = Ok b) l bs.
Proof.
  revert bs; induction l as [| a l IH]; simpl; intros bs H.
  - injection H as <-; constructor.
  - apply rbind_Ok in H as (b & Hb & H).
    apply rbind_Ok in H as (bs' & Hbs & H).
    injection H as <-; constructor; auto.
Qed.

Lemma Forall2_rmapM {A B : Type} (f : A -> result B) (l : list A) (bs : list B) :
  Forall2 (fun a b => f a = Ok b) l bs -> rmapM f l = Ok bs.
Proof.
  induction 1 as [| a b l bs Hab _ IH]; simpl; [reflexivity |].
  rewrite Hab; simpl; rewrite IH; reflexivity.
Qed.

Lemma updatePackets_Ok (deltaTime : R) (packets packets' : PacketArray) :
  updatePackets deltaTime packets = Ok packets' <->
  exists rs,
    Forall2 (fun p r => updatePacket deltaTime p = Ok r) (items packets) rs
    /\ packets' = mkPacketArray (keptPackets rs) None.
Proof.
  unfold updatePackets; split.
  - intros H; apply rbind_Ok in H as (rs & Hrs & H).
    exists rs; split; [apply rmapM_Ok; exact Hrs | congruence].
  - intros (rs & Hrs & ->).
    rewrite (Forall2_rmapM _ _ _ Hrs); reflexivity.
Qed.

Lemma atPathEnd_false (packet : Packet.t) :
  atPathEnd packet = false <->
  (Packet.currentSegment packet + 1 < length (Packet.path packet))%nat.
Proof.
  unfold atPathEnd.
  destruct (Z.geb_spec (Z.of_nat (Packet.currentSegment packet))
              (Z.of_nat (length (Packet.path packet)) - 1));
    split; intros; try discriminate; try reflexivity; lia.
Qed.

Lemma atPathEnd_true (packet : Packet.t) :
  atPathEnd packet = true <->
  (length (Packet.path packet) <= Packet.currentSegment packet + 1)%nat.
Proof.
  destruct (atPathEnd packet) eqn:E.
  - split; [intros _ | reflexivity].
    destruct (Nat.le_gt_cases (length (Packet.path packet))
                (Packet.currentSegment packet + 1)); [assumption |].
    apply atPathEnd_false in H; congruence.
  - apply atPathEnd_false in E; split; intros; [discriminate | lia].
Qed.

(** The shape of every normal return of the filter callback. *)
Lemma updatePacket_cases (deltaTime : R) (p : Packet.t) :
  (atPathEnd p = true /\ updatePacket deltaTime p = Ok (false, p))
  \/ exists startNode endNode,
       atPathEnd p = false
       /\ nth_error (Packet.path p) (Packet.currentSegment p) = Some startNode
       /\ nth_error (Packet.path p) (Packet.currentSegment p + 1) = Some endNode
       /\ ((advancedDistance deltaTime p >= segmentLength startNode endNode
            /\ (length (Packet.path p) = Packet.currentSegment p + 2)%nat
            /\ updatePacket deltaTime p
               = Ok (false, Packet.mk (Packet.x p) (Packet.y p) (Packet.path p)
                              (Packet.currentSegment p + 1) 0))
           \/ (advancedDistance deltaTime p >= segmentLength startNode endNode
               /\ (Packet.currentSegment p + 2 < length (Packet.path p))%nat
               /\ updatePacket deltaTime p
                  = Ok (true, Packet.mk (Node.x endNode) (Node.y endNode)
                                (Packet.path p) (Packet.currentSegment p + 1) 0))
           \/ (advancedDistance deltaTime p < segmentLength startNode endNode
               /\ updatePacket deltaTime p
                  = let? ratio := checkedDiv (advancedDistance deltaTime p)
                                    (segmentLength startNode endNode) in
                    Ok (true,
                        Packet.mk
                          (Node.x startNode
                           + (Node.x endNode - Node.x startNode) * ratio)
                          (Node.y startNode
                           + (Node.y endNode - Node.y startNode) * ratio)
                          (Packet.path p) (Packet.currentSegment p)
                          (advancedDistance deltaTime p)))).
Proof.
  destruct (atPathEnd p) eqn:Eend.
  - left; split; [reflexivity |]. unfold updatePacket; rewrite Eend; reflexivity.
  - right. pose proof (proj1 (atPathEnd_false p) Eend) as Hlt.
    destruct (index_in_range (Packet.path p) (Packet.currentSegment p))
      as (startNode & Is & Ns); [lia |].
    destruct (index_in_range (Packet.path p) (Packet.currentSegment p + 1))
      as (endNode & Ie & Ne); [lia |].
    exists startNode, endNode. repeat (split; [assumption || reflexivity |]).
    unfold updatePacket; rewrite Eend, Is, Ie; simpl.
    fold (advancedDistance deltaTime p).
    destruct (Rgeb (advancedDistance deltaTime p) (segmentLength startNode endNode))
      eqn:Ege.
    + apply Rgeb_true in Ege.
      match goal with |- context [atPathEnd ?q] => destruct (atPathEnd q) eqn:E2 end.
      * apply atPathEnd_true in E2; simpl in E2.
        left; split; [assumption |]; split; [lia | reflexivity].
      * apply atPathEnd_false in E2; simpl in E2.
        right; left; split; [assumption |]; split; [lia |].
        rewrite Ie; reflexivity.
    + apply Rgeb_false in Ege. right; right; split; [assumption |]. reflexivity.
Qed.

(** A packet whose travelled distance and elapsed time are not negative
    always comes back from the filter callback. *)
Lemma updatePacket_returns (deltaTime : R) (packet : Packet.t) :
  0 <= deltaTime -> 0 <= Packet.distanceTraveled packet ->
  exists r, updatePacket deltaTime packet = Ok r.
Proof.
  intros Ht Hd.
  destruct (updatePacket_cases deltaTime packet)
    as [[_ Hu] | (startNode & endNode & _ & _ & _ & Hcases)]; [eauto |].
  destruct Hcases as [(_ & _ & Hu) | [(_ & _ & Hu) | (Hl & Hu)]]; eauto.
  rewrite checkedDiv_ok in Hu.
  - simpl in Hu; eauto.
  - unfold advancedDistance, packetSpeed in Hl; lra.
Qed.

Lemma updatePackets_returns (deltaTime : R) (packets : PacketArray) :
  0 <= deltaTime ->
  Forall (fun p => 0 <= Packet.distanceTraveled p) (items packets) ->
  exists rs,
    Forall2 (fun p r => updatePacket deltaTime p = Ok r) (items packets) rs.
Proof.
  intros Ht Hall; induction Hall as [| p ps Hp _ IH].
  - exists []; constructor.
  - destruct IH as (rs & Hrs).
    destruct (updatePacket_returns deltaTime p Ht Hp) as (r & Hr).
    exists (r :: rs); constructor; assumption.
Qed.

(** C1. One frame of packet advancement.  [updatePackets] returns exactly
    the packets for which the filter callback returns [true], in their
    order: it returns an array if and only if the callback returns for
    every packet, and it does so whenever the elapsed time and the
    travelled distances are not negative.  A packet that already stands on
    the last index of its path is removed as it is.  Any other packet has
    its distance increased by [packetSpeed * (deltaTime / 16)]; when that
    reaches the length of the current segment, [currentSegment] is
    incremented and the distance is reset to zero, the packet is removed
    exactly when the new index is the last one of the path, and otherwise
    it is placed on the start of the new segment; when it stays below the
    segment length, the packet is kept on its segment and placed at
    [start + (end - start) * (distance / length)], the quotient being the
    real one whenever the length is not zero; over a segment of length zero
    (which takes a negative distance) the quotient is not a finite number
    and the call is flagged [NonFinite]. *)
Theorem updatePackets_advancement (deltaTime : R) :
  (forall packets packets',
      updatePackets deltaTime packets = Ok packets' <->
      exists rs,
        Forall2 (fun p r => updatePacket deltaTime p = Ok r) (items packets) rs
        /\ packets' = mkPacketArray (map snd (filter fst rs)) None)
  /\ (forall packets,
         0 <= deltaTime ->
         Forall (fun p => 0 <= Packet.distanceTraveled p) (items packets) ->
         exists packets', updatePackets deltaTime packets = Ok packets')
  /\ forall packet : Packet.t,
      let seg := Packet.currentSegment packet in
      let path := Packet.path packet in
      ((length path <= seg + 1)%nat ->
       updatePacket deltaTime packet = Ok (false, packet))
      /\ ((seg + 1 < length path)%nat ->
          exists startNode endNode,
            nth_error path seg = Some startNode
            /\ nth_error path (seg + 1) = Some endNode
            /\ let d := Packet.distanceTraveled packet
                        + packetSpeed * (deltaTime / 16) in
               let len := sqrt ((Node.x endNode - Node.x startNode) ^ 2
                                + (Node.y endNode - Node.y startNode) ^ 2) in
               (d >= len ->
                exists keep packet',
                  updatePacket deltaTime packet = Ok (keep, packet')
                  /\ Packet.path packet' = path
                  /\ Packet.currentSegment packet' = (seg + 1)%nat
                  /\ Packet.distanceTraveled packet' = 0
                  /\ (keep = false <-> (seg + 1 = length path - 1)%nat)
                  /\ (keep = true ->
                      Packet.x packet' = Node.x endNode
                      /\ Packet.y packet' = Node.y endNode))
               /\ (d < len -> len <> 0 ->
                   updatePacket deltaTime packet
                   = Ok (true,
                         Packet.mk
                           (Node.x startNode
                            + (Node.x endNode - Node.x startNode) * (d / len))
                           (Node.y startNode
                            + (Node.y endNode - Node.y startNode) * (d / len))
                           path seg d))
               /\ (d < len -> len = 0 ->
                   updatePacket deltaTime packet = NonFinite)).
Proof.
  split; [| split].
  { intros packets packets'. apply updatePackets_Ok. }
  { intros packets Ht Hall.
    destruct (updatePackets_returns deltaTime packets Ht Hall) as (rs & Hrs).
    exists (mkPacketArray (keptPackets rs) None).
    apply updatePackets_Ok; exists rs; split; [exact Hrs | reflexivity]. }
  intros packet seg path; subst seg path; split.
  - intros Hend. apply atPathEnd_true in Hend.
    unfold updatePacket; rewrite Hend; reflexivity.
  - intros Hlt.
    destruct (updatePacket_cases deltaTime packet)
      as [[Hend _] | (startNode & endNode & Hend & Ns & Ne & Hcases)].
    { apply atPathEnd_true in Hend; lia. }
    exists startNode, endNode; split; [exact Ns |]; split; [exact Ne |].
    fold (advancedDistance deltaTime packet).
    fold (segmentLength startNode endNode).
    cbv zeta.
    destruct Hcases as [(Hge & Hlen & Hu) | [(Hge & Hlen & Hu) | (Hl & Hu)]].
    + split; [intros _ | split; intros Hd; lra].
      eexists _, _; split; [exact Hu |]; simpl.
      repeat split; try reflexivity; try lia; intros; discriminate.
    + split; [intros _ | split; intros Hd; lra].
      eexists _, _; split; [exact Hu |]; simpl.
      repeat split; try reflexivity; intros; try discriminate; lia.
    + split; [intros Hd; lra |]; split; intros _ Hz.
      * rewrite Hu, (checkedDiv_ok _ _ Hz); reflexivity.
      * rewrite Hu, Hz; unfold checkedDiv.
        destruct (Req_dec_T 0 0) as [_ | Hne]; [reflexivity | contradiction].
Qed.

(** A packet halfway along a segment of length 5, and one that completes
    the first segment of a three-point path. *)
Example updatePacket_interpolates :
  updatePacket 16 (Packet.mk 0 0 [Node.mk 0 0 None; Node.mk 3 4 None] 0 1)
  = Ok (true,
        Packet.mk (0 + (3 - 0) * (2.5 / 5)) (0 + (4 - 0) * (2.5 / 5))
          [Node.mk 0 0 None; Node.mk 3 4 None] 0 2.5).
Proof.
  assert (Hlen : segmentLength (Node.mk 0 0 None) (Node.mk 3 4 None) = 5).
  { unfold segmentLength; simpl Node.x; simpl Node.y.
    apply sqrt_lem_1; lra. }
  unfold updatePacket; simpl.
  rewrite Hlen. unfold packetSpeed.
  replace (1 + 1.5 * (16 / 16)) with 2.5 by lra.
  rewrite (proj2 (Rgeb_false 2.5 5)) by lra.
  rewrite checkedDiv_ok by lra. reflexivity.
Qed.

Example updatePacket_snaps :
  updatePacket 16
    (Packet.mk 0 0 [Node.mk 0 0 None; Node.mk 3 4 None; Node.mk 9 9 None] 0 4)
  = Ok (true,
        Packet.mk 3 4 [Node.mk 0 0 None; Node.mk 3 4 None; Node.mk 9 9 None]
          1 0).
Proof.
  assert (Hlen : segmentLength (Node.mk 0 0 None) (Node.mk 3 4 None) = 5).
  { unfold segmentLength; simpl Node.x; simpl Node.y.
    apply sqrt_lem_1; lra. }
  unfold updatePacket; simpl.
  rewrite Hlen. unfold packetSpeed.
  rewrite (proj2 (Rgeb_true (4 + 1.5 * (16 / 16)) 5)) by lra.
  reflexivity.
Qed.

Lemma interpolationOperands_Some (deltaTime : R) (p : Packet.t) (d len : R) :
  interpolationOperands deltaTime p = Some (d, len) ->
  d = advancedDistance deltaTime p /\ d < len
  /\ exists startNode endNode,
       len = segmentLength startNode endNode
       /\ updatePacket deltaTime p
          = let? ratio := checkedDiv d len in
            Ok (true,
                Packet.mk
                  (Node.x startNode + (Node.x endNode - Node.x startNode) * ratio)
                  (Node.y startNode + (Node.y endNode - Node.y startNode) * ratio)
                  (Packet.path p) (Packet.currentSegment p) d).
Proof.
  unfold interpolationOperands, updatePacket, index.
  destruct (atPathEnd p); [discriminate |].
  destruct (nth_error _ _) as [startNode |]; [| discriminate].
  destruct (nth_error _ _) as [endNode |]; [| discriminate].
  simpl. fold (advancedDistance deltaTime p).
  destruct (Rgeb _ _) eqn:E; [discriminate |].
  intros H; injection H as <- <-.
  apply Rgeb_false in E. split; [reflexivity |]; split; [exact E |].
  exists startNode, endNode; split; reflexivity.
Qed.

(** C9. When a packet with a non-negative travelled distance is advanced
    by a non-negative elapsed time, the division of the interpolation
    branch has a positive divisor: the branch is reached only with
    [distanceTraveled < segmentLength], its dividend is non-negative, and
    so the callback never divides by zero. *)
Theorem interpolation_never_divides_by_zero (deltaTime : R) (packet : Packet.t) :
  0 <= Packet.distanceTraveled packet ->
  0 <= deltaTime ->
  updatePacket deltaTime packet <> NonFinite
  /\ forall d len : R,
       interpolationOperands deltaTime packet = Some (d, len) ->
       d < len /\ 0 < len /\ checkedDiv d len = Ok (d / len).
Proof.
  intros Hd Ht.
  assert (Hadv : 0 <= advancedDistance deltaTime packet).
  { unfold advancedDistance, packetSpeed.
    assert (0 <= deltaTime / 16) by lra. nra. }
  split.
  - destruct (updatePacket_cases deltaTime packet)
      as [[_ Hu] | (s & e & _ & _ & _ & [(_ & _ & Hu) | [(_ & _ & Hu) | (Hl & Hu)]])];
      rewrite Hu; try discriminate.
    rewrite checkedDiv_ok by lra. discriminate.
  - intros d len H. apply interpolationOperands_Some in H as (-> & Hl & _).
    split; [exact Hl |]; split; [lra |]. apply checkedDiv_ok; lra.
Qed.

Lemma interpolation_never_divides_by_zero_witness :
  updatePacket 16 (Packet.mk 0 0 [Node.mk 0 0 None; Node.mk 3 4 None] 0 1)
  <> NonFinite
  /\ forall d len : R,
       interpolationOperands 16
         (Packet.mk 0 0 [Node.mk 0 0 None; Node.mk 3 4 None] 0 1) = Some (d, len) ->
       d < len /\ 0 < len /\ checkedDiv d len = Ok (d / len).
Proof.
  apply (interpolation_never_divides_by_zero 16
           (Packet.mk 0 0 [Node.mk 0 0 None; Node.mk 3 4 None] 0 1));
    simpl; lra.
Defined.

(** The hypotheses of C9 are needed: a packet whose distance is negative
    divides by the zero length of a degenerate segment. *)
Example negative_distance_divides_by_zero :
  updatePacket 0 (Packet.mk 0 0 [Node.mk 7 7 None; Node.mk 7 7 None] 0 (-1))
  = NonFinite.
Proof.
  assert (Hlen : segmentLength (Node.mk 7 7 None) (Node.mk 7 7 None) = 0).
  { unfold segmentLength; simpl Node.x; simpl Node.y.
    apply sqrt_lem_1; lra. }
  unfold updatePacket; simpl. rewrite Hlen. unfold packetSpeed.
  rewrite (proj2 (Rgeb_false (-1 + 1.5 * (0 / 16)) 0)) by lra.
  unfold checkedDiv. destruct (Req_dec_T 0 0); [reflexivity | lra].
Qed.

Lemma updatePacket_kept (deltaTime : R) (p q : Packet.t) :
  updatePacket deltaTime p = Ok (true, q) ->
  Packet.path q = Packet.path p
  /\ (Packet.currentSegment q = Packet.currentSegment p
      \/ Packet.currentSegment q = S (Packet.currentSegment p)).
Proof.
  destruct (updatePacket_cases deltaTime p)
    as [[_ Hu] | (s & e & _ & _ & _ & [(_ & _ & Hu) | [(_ & _ & Hu) | (Hl & Hu)]])];
    rewrite Hu; try discriminate.
  - intros H; injection H as <-; simpl. split; [reflexivity | right; lia].
  - intros H. apply rbind_Ok in H as (ratio & _ & H).
    injection H as <-; simpl. split; [reflexivity | left; reflexivity].
Qed.

Lemma advancedFrom_length (ps qs : list Packet.t) :
  advancedFrom ps qs -> (length qs <= length ps)%nat.
Proof. induction 1; simpl; lia. Qed.

Lemma keptPackets_advancedFrom (deltaTime : R) (ps : list Packet.t)
  (rs : list (bool * Packet.t)) :
  Forall2 (fun p r => updatePacket deltaTime p = Ok r) ps rs ->
  advancedFrom ps (keptPackets rs).
Proof.
  induction 1 as [| p [keep q] ps rs Hp _ IH]; unfold keptPackets in *; simpl.
  - constructor.
  - destruct keep; simpl.
    + apply updatePacket_kept in Hp as [Hpath Hseg].
      apply advanced_keep; assumption.
    + apply advanced_drop; assumption.
Qed.

(** C10. Packet advancement never creates packets: the packets after
    [updatePackets] are, in the same order, some of the packets before it,
    each with the path it had and with [currentSegment] unchanged or
    incremented by one. *)
Theorem updatePackets_only_removes (deltaTime : R) (packets packets' : PacketArray) :
  updatePackets deltaTime packets = Ok packets' ->
  advancedFrom (items packets) (items packets')
  /\ (length (items packets') <= length (items packets))%nat.
Proof.
  intros H. apply updatePackets_Ok in H as (rs & Hrs & ->); simpl.
  pose proof (keptPackets_advancedFrom _ _ _ Hrs) as Hadv.
  split; [exact Hadv | apply advancedFrom_length; exact Hadv].
Qed.

Lemma updatePackets_only_removes_witness :
  advancedFrom
    [ Packet.mk 3 4 [Node.mk 0 0 None; Node.mk 3 4 None] 1 0;
      Packet.mk 0 0 [Node.mk 0 0 None; Node.mk 3 4 None] 0 1 ]
    [ Packet.mk (0 + (3 - 0) * (2.5 / 5)) (0 + (4 - 0) * (2.5 / 5))
        [Node.mk 0 0 None; Node.mk 3 4 None] 0 2.5 ]
  /\ (1 <= 2)%nat.
Proof.
  apply (updatePackets_only_removes 16
           (mkPacketArray
              [ Packet.mk 3 4 [Node.mk 0 0 None; Node.mk 3 4 None] 1 0;
                Packet.mk 0 0 [Node.mk 0 0 None; Node.mk 3 4 None] 0 1 ] None)
           (mkPacketArray
              [ Packet.mk (0 + (3 - 0) * (2.5 / 5)) (0 + (4 - 0) * (2.5 / 5))
                  [Node.mk 0 0 None; Node.mk 3 4 None] 0 2.5 ] None)).
  apply updatePackets_Ok.
  exists [ (false, Packet.mk 3 4 [Node.mk 0 0 None; Node.mk 3 4 None] 1 0);
           (true, Packet.mk (0 + (3 - 0) * (2.5 / 5)) (0 + (4 - 0) * (2.5 / 5))
                    [Node.mk 0 0 None; Node.mk 3 4 None] 0 2.5) ].
  split; [| reflexivity].
  constructor; [reflexivity |].
  constructor; [apply updatePacket_interpolates | constructor].
Defined.

(** ** Deterministic layouts *)

(** [generate], at the device radius of the effect, is what the [switch]
    of [animate] draws for the five topology names; any other name draws
    the star. *)
Lemma drawSelectedTopology_kind (k : TopologyKind) (fuel : nat)
  (width height : R) :
  drawSelectedTopology (kindName k) fuel width height
  = drawTopology k fuel width height deviceRadius.
Proof. destruct k; reflexivity. Qed.

Example drawSelectedTopology_default (fuel : nat) (width height : R) :
  drawSelectedTopology "ring" fuel width height
  = drawTopology Star fuel width height deviceRadius.
Proof. reflexivity. Qed.

Lemma drawStarTopology_cleared (width height r : R) (dColor cColor tColor : string)
  (rnd : nat -> R) :
  drawStarTopology width height r dColor cColor tColor (mkWorld [] rnd)
  = Ok (starPaths width height,
        mkWorld
          (DrawDevice (width / 2) (height / 2) (r + 5) "#EF4444"
             (Some "Router/Hub"%string)
           :: flat_map (fun d =>
                 [ DrawDevice (Node.x d) (Node.y d) r dColor (Node.label d);
                   DrawConnection (width / 2) (height / 2) (Node.x d) (Node.y d)
                     cColor ])
                (starDeviceNodes width height))
          rnd).
Proof. reflexivity. Qed.

Lemma generate_Star (fuel : nat) (width height r : R) (rnd : nat -> R) :
  generate Star fuel width height r rnd
  = Ok (starHubNode width height :: starDeviceNodes width height,
        starPaths width height).
Proof. reflexivity. Qed.

Lemma INR_5 : INR 5 = 5.
Proof. simpl; lra. Qed.

Lemma INR_4 : INR 4 = 4.
Proof. simpl; lra. Qed.

Lemma on_circle (cx cy rho theta : R) :
  ((cx + rho * cos theta) - cx) ^ 2 + ((cy + rho * sin theta) - cy) ^ 2 = rho ^ 2.
Proof.
  pose proof (sin2_cos2 theta) as H. unfold Rsqr in H.
  replace (cx + rho * cos theta - cx) with (rho * cos theta) by ring.
  replace (cy + rho * sin theta - cy) with (rho * sin theta) by ring.
  replace ((rho * cos theta) ^ 2 + (rho * sin theta) ^ 2)
    with (rho ^ 2 * (sin theta * sin theta + cos theta * cos theta)) by ring.
  rewrite H; ring.
Qed.

(** C4. On every canvas the star layout draws six nodes, the hub at the
    centre of the canvas followed by five devices, device [i] at angle
    [2 * PI * i / 5] on the circle of radius [0.35 * min(width, height)]
    around the hub, and returns ten directed paths: for each device in
    turn the path from the hub to it, then the path from it to the hub. *)
Theorem star_layout (fuel : nat) (width height r : R) (rnd : nat -> R) :
  exists (hub : Node.t) (devices : list Node.t),
    generate Star fuel width height r rnd
    = Ok (hub :: devices,
          flat_map (fun device => [[hub; device]; [device; hub]]) devices)
    /\ Node.x hub = width / 2 /\ Node.y hub = height / 2
    /\ length devices = 5%nat
    /\ length (hub :: devices) = 6%nat
    /\ length (flat_map (fun device => [[hub; device]; [device; hub]]) devices)
       = 10%nat
    /\ forall (i : nat) (d : Node.t),
         nth_error devices i = Some d ->
         let rho := 0.35 * Rmin width height in
         let theta := 2 * PI * INR i / 5 in
         Node.x d = Node.x hub + rho * cos theta
         /\ Node.y d = Node.y hub + rho * sin theta
         /\ (Node.x d - Node.x hub) ^ 2 + (Node.y d - Node.y hub) ^ 2 = rho ^ 2.
Proof.
  exists (starHubNode width height), (starDeviceNodes width height).
  split; [apply generate_Star |].
  repeat (split; [reflexivity |]).
  intros i d Hd rho theta.
  assert (Hi : (i < 5)%nat).
  { change 5%nat with (length (starDeviceNodes width height)).
    apply nth_error_Some. rewrite Hd; discriminate. }
  assert (Hd' : d = starDeviceNode width height i).
  { unfold starDeviceNodes in Hd.
    do 5 (destruct i as [| i]; [injection Hd as <-; reflexivity |]). lia. }
  assert (Hx : Node.x d = Node.x (starHubNode width height) + rho * cos theta).
  { subst d rho theta; cbn [starDeviceNode starHubNode Node.x Node.y].
    replace (INR i / INR 5 * PI * 2) with (2 * PI * INR i / 5)
      by (rewrite INR_5; field).
    ring. }
  assert (Hy : Node.y d = Node.y (starHubNode width height) + rho * sin theta).
  { subst d rho theta; cbn [starDeviceNode starHubNode Node.x Node.y].
    replace (INR i / INR 5 * PI * 2) with (2 * PI * INR i / 5)
      by (rewrite INR_5; field).
    ring. }
  split; [exact Hx |]; split; [exact Hy |].
  rewrite Hx, Hy. apply on_circle.
Qed.

(** The instance of the specification: radius 15 on a 400 x 300 canvas. *)
Example star_layout_400_300 :
  exists nodes paths,
    generate Star 0 400 300 15 (fun _ => 0) = Ok (nodes, paths)
    /\ length nodes = 6%nat /\ length paths = 10%nat
    /\ nth_error nodes 0 = Some (Node.mk (400 / 2) (300 / 2) (Some "Router/Hub"%string)).
Proof. eexists _, _; split; [apply generate_Star |]. repeat split. Qed.

Lemma generate_Bus (fuel : nat) (width height r : R) (rnd : nat -> R) :
  generate Bus fuel width height r rnd
  = Ok (map (busDeviceNode width height r) (seq 0 5),
        flat_map (fun i =>
                    bothWays (busAttachment height (busDeviceNode width height r i))
                             (busAttachment height
                                (busDeviceNode width height r (i + 1))))
                 (seq 0 4)).
Proof. reflexivity. Qed.

Lemma generate_Tree (fuel : nat) (width height r : R) (rnd : nat -> R) :
  generate Tree fuel width height r rnd
  = Ok ([ treeRoot width height; treeSubHubA width height;
          treeSubHubB width height; treeLeaf width height 0;
          treeLeaf width height 1; treeLeaf width height 2;
          treeLeaf width height 3 ],
        flat_map (fun e => bothWays (fst e) (snd e)) (treeEdges width height)).
Proof. reflexivity. Qed.

(** C5, as the code has it.  On every canvas the bus layout draws five
    nodes and returns eight directed paths, the four pairs of adjacent
    attachment points in both directions.  The tree layout draws seven
    nodes, the root hub, the sub-hubs A and B and the devices 1 to 4, and
    returns twelve directed paths: its six parent-child edges, root to
    sub-hub A, root to sub-hub B, sub-hub A to devices 1 and 2 and sub-hub B
    to devices 3 and 4, each followed by its reverse. *)
Theorem bus_and_tree_layout (fuel : nat) (width height r : R) (rnd : nat -> R) :
  (exists (devices : list Node.t) (paths : list Path),
      generate Bus fuel width height r rnd = Ok (devices, paths)
      /\ length devices = 5%nat
      /\ length paths = 8%nat
      /\ paths
         = flat_map
             (fun i =>
                let a := busAttachment height (nth i devices (Node.mk 0 0 None)) in
                let b := busAttachment height (nth (i + 1) devices (Node.mk 0 0 None)) in
                [[a; b]; [b; a]])
             [0; 1; 2; 3]%nat)
  /\ (exists (nodes : list Node.t) (edges : list (Node.t * Node.t))
             (paths : list Path),
         generate Tree fuel width height r rnd = Ok (nodes, paths)
         /\ length nodes = 7%nat
         /\ length edges = 6%nat
         /\ length paths = 12%nat
         /\ paths
            = flat_map (fun e => [[fst e; snd e]; [snd e; fst e]]) edges
         /\ (forall e, In e edges -> In (fst e) nodes /\ In (snd e) nodes)
         /\ let root := Node.mk (width / 2) (height * 0.15) (Some "Root Hub"%string) in
            let level1A := Node.mk (width * 0.25) (height * 0.45) (Some "Sub-Hub A"%string) in
            let level1B := Node.mk (width * 0.75) (height * 0.45) (Some "Sub-Hub B"%string) in
            let device1 := Node.mk (width * 0.15) (height * 0.75) (Some "Device 1"%string) in
            let device2 := Node.mk (width * 0.35) (height * 0.75) (Some "Device 2"%string) in
            let device3 := Node.mk (width * 0.65) (height * 0.75) (Some "Device 3"%string) in
            let device4 := Node.mk (width * 0.85) (height * 0.75) (Some "Device 4"%string) in
            nodes = [root; level1A; level1B; device1; device2; device3; device4]
            /\ edges = [(root, level1A); (root, level1B);
                        (level1A, device1); (level1A, device2);
                        (level1B, device3); (level1B, device4)]
            /\ paths = [[root; level1A]; [level1A; root];
                        [root; level1B]; [level1B; root];
                        [level1A; device1]; [device1; level1A];
                        [level1A; device2]; [device2; level1A];
                        [level1B; device3]; [device3; level1B];
                        [level1B; device4]; [device4; level1B]]).
Proof.
  split.
  - eexists _, _; split; [apply generate_Bus |].
    repeat split.
  - eexists _, (treeEdges width height), _; split; [apply generate_Tree |].
    repeat (split; [reflexivity |]).
    split.
    + intros e He. unfold treeEdges in He; simpl in He.
      repeat (destruct He as [<- | He]; [simpl; tauto |]). contradiction.
    + cbv zeta; repeat split.
Qed.

(** C5 as stated fails on the tree: the layout returns twelve directed
    paths, not fourteen. *)
Lemma tree_layout_not_14_paths :
  ~ (forall (fuel : nat) (width height r : R) (rnd : nat -> R),
        exists nodes paths,
          generate Tree fuel width height r rnd = Ok (nodes, paths)
          /\ length nodes = 7%nat /\ length paths = 14%nat).
Proof.
  intros H.
  destruct (H 0%nat 400 300 15 (fun _ => 0)) as (nodes & paths & Hg & _ & Hlen).
  rewrite generate_Tree in Hg. injection Hg as <- <-.
  discriminate Hlen.
Qed.

Example tree_layout_400_300 :
  exists nodes paths,
    generate Tree 0 400 300 15 (fun _ => 0) = Ok (nodes, paths)
    /\ length nodes = 7%nat /\ length paths = 12%nat.
Proof. eexists _, _; split; [apply generate_Tree |]. split; reflexivity. Qed.

(** ** Reasoning about the drawing monad *)

Lemma bind_Ok {A B : Type} (m : Draw A) (k : A -> Draw B) (w : World)
  (b : B) (w' : World) :
  bind m k w = Ok (b, w') ->
  exists a w1, m w = Ok (a, w1) /\ k a w1 = Ok (b, w').
Proof.
  unfold bind; intros H. apply rbind_Ok in H as ([a w1] & Hm & Hk). eauto.
Qed.

Lemma forEachM_invariant {A St : Type} (body : A -> St -> Draw St)
  (P : nat -> St -> World -> Prop) (l : list A) :
  forall (s : St) (w : World) (s' : St) (w' : World),
    (forall k a s w s' w',
        nth_error l k = Some a -> P k s w -> body a s w = Ok (s', w') ->
        P (S k) s' w') ->
    P 0%nat s w ->
    forEachM body l s w = Ok (s', w') ->
    P (length l) s' w'.
Proof.
  revert P; induction l as [| a l IH]; intros P s w s' w' Hstep H0 Hrun.
  - simpl in Hrun. injection Hrun as <- <-. exact H0.
  - simpl in Hrun. apply bind_Ok in Hrun as (s1 & w1 & Hb & Hrest).
    apply (IH (fun k => P (S k)) s1 w1 s' w').
    + intros k b t v t' v' Hk HP Hbody. apply (Hstep (S k) b t v); assumption.
    + apply (Hstep 0%nat a s w); [reflexivity | assumption | assumption].
    + exact Hrest.
Qed.

Lemma doWhile_Ok {A : Type} (Q : World -> Prop) (body : Draw (A * bool)) :
  (forall w r w', Q w -> body w = Ok (r, w') -> Q w') ->
  forall (fuel : nat) (w : World) (a : A) (w' : World),
    Q w ->
    doWhile fuel body w = Ok (a, w') ->
    Q w' /\ exists w0, Q w0 /\ body w0 = Ok ((a, false), w').
Proof.
  intros HQ; induction fuel as [| fuel IH]; intros w a w' Hw Hrun.
  - discriminate Hrun.
  - simpl in Hrun. apply bind_Ok in Hrun as ([a1 again] & w1 & Hb & Hk).
    destruct again.
    + apply (IH w1); [apply (HQ w _ w1 Hw Hb) | exact Hk].
    + injection Hk as <- <-. split; [apply (HQ w _ w1 Hw Hb) |].
      exists w; split; assumption.
Qed.

Lemma drawnNodes_app (ops ops' : list DrawOp) :
  drawnNodes (ops ++ ops') = drawnNodes ops ++ drawnNodes ops'.
Proof. unfold drawnNodes; apply flat_map_app. Qed.

(** ** Spacing *)

Lemma distance_sym (a b : Node.t) : distance a b = distance b a.
Proof. unfold distance; f_equal; ring. Qed.

Lemma collides_false (x y r : R) (devices : list Node.t) :
  collides x y r devices = false ->
  Forall (fun d => distance (Node.mk x y None) d >= 4 * r) devices.
Proof.
  unfold collides; induction devices as [| d devices IH]; simpl; intros H.
  - constructor.
  - apply orb_false_elim in H as [Hd Hrest].
    constructor; [| apply IH; exact Hrest].
    apply Rltb_false in Hd. unfold distance; simpl. lra.
Qed.

Lemma spaced_nil (r : R) : spaced r [].
Proof. intros i j a b _ Ha; destruct i; discriminate Ha. Qed.

Lemma spaced_snoc (r : R) (devices : list Node.t) (d : Node.t) :
  spaced r devices ->
  Forall (fun e => distance d e >= 4 * r) devices ->
  spaced r (devices ++ [d]).
Proof.
  intros Hs Hd i j a b Hij Ha Hb.
  rewrite Forall_forall in Hd.
  destruct (Nat.lt_ge_cases i (length devices)) as [Hi | Hi];
    destruct (Nat.lt_ge_cases j (length devices)) as [Hj | Hj].
  - rewrite nth_error_app1 in Ha, Hb by assumption. eapply Hs; eassumption.
  - rewrite nth_error_app1 in Ha by assumption.
    rewrite nth_error_app2 in Hb by assumption.
    destruct (j - length devices)%nat as [| n]; simpl in Hb;
      [| destruct n; discriminate Hb].
    injection Hb as <-. rewrite distance_sym.
    apply Hd. eapply nth_error_In; eassumption.
  - rewrite nth_error_app2 in Ha by assumption.
    rewrite nth_error_app1 in Hb by assumption.
    destruct (i - length devices)%nat as [| n]; simpl in Ha;
      [| destruct n; discriminate Ha].
    injection Ha as <-. apply Hd. eapply nth_error_In; eassumption.
  - rewrite nth_error_app2 in Ha, Hb by assumption.
    destruct (i - length devices)%nat as [| n] eqn:Ei; simpl in Ha;
      [| destruct n; discriminate Ha].
    destruct (j - length devices)%nat as [| m] eqn:Ej; simpl in Hb;
      [| destruct m; discriminate Hb].
    lia.
Qed.

Lemma placementLoop_Ok (n fuel : nat) (fx fy : R -> R) (lbl : nat -> string)
  (r : R) (w : World) (devices : list Node.t) (w' : World) :
  placementLoop n fuel fx fy lbl r w = Ok (devices, w') ->
  length devices = n /\ spaced r devices /\ canvasOps w' = canvasOps w.
Proof.
  unfold placementLoop, forRange.
  replace (n - 0)%nat with n by lia. intros Hrun.
  pose (P := fun (k : nat) (devs : list Node.t) (v : World) =>
               length devs = k /\ spaced r devs /\ canvasOps v = canvasOps w).
  change (P n devices w'). rewrite <- (length_seq n 0) at 1.
  eapply forEachM_invariant with (P := P); [| | exact Hrun].
  - clear Hrun devices w'.
    intros k i devs v devs' v' _ (Hlen & Hsp & Hops) Hbody.
    apply bind_Ok in Hbody as ([x y] & v1 & Hloop & Hret).
    injection Hret as <- <-.
    apply (doWhile_Ok (fun u => canvasOps u = canvasOps w)) in Hloop
        as (Hv1 & v0 & _ & Hb); [| | exact Hops].
    + injection Hb as Hx Hy Hcol _. subst x y.
      split; [rewrite length_app; simpl; lia |]. split; [| exact Hv1].
      apply spaced_snoc; [exact Hsp |].
      apply collides_false in Hcol.
      eapply Forall_impl; [| exact Hcol].
      intros e He; exact He.
    + intros u res u' Hu Hbd. injection Hbd as _ <-. exact Hu.
  - repeat split. apply spaced_nil.
Qed.

Lemma meshPlacement_Ok (fuel : nat) (width height r : R) (w : World)
  (devices : list Node.t) (w' : World) :
  meshPlacement fuel width height r w = Ok (devices, w') ->
  length devices = 5%nat /\ spaced r devices /\ canvasOps w' = canvasOps w.
Proof. apply placementLoop_Ok. Qed.

Lemma hybridMeshPlacement_Ok (fuel : nat) (width height r : R) (w : World)
  (devices : list Node.t) (w' : World) :
  hybridMeshPlacement fuel width height r w = Ok (devices, w') ->
  length devices = 3%nat /\ spaced r devices /\ canvasOps w' = canvasOps w.
Proof. apply placementLoop_Ok. Qed.

(** ** Connections and the drawing of a cluster *)

Lemma liftR_Ok {A : Type} (m : result A) (w : World) (a : A) (w' : World) :
  liftR m w = Ok (a, w') -> m = Ok a /\ w' = w.
Proof.
  unfold liftR; destruct m; simpl; intros H; try discriminate.
  injection H as <- <-; split; reflexivity.
Qed.

Lemma emit_Ok (op : DrawOp) (w : World) (u : unit) (w' : World) :
  emit op w = Ok (u, w') ->
  w' = mkWorld (canvasOps w ++ [op]) (mathRandom w).
Proof. unfold emit; intros H; injection H as _ <-; reflexivity. Qed.

Lemma connectAll_Ok (devices : list Node.t) (cColor : string)
  (paths : list Path) (w : World) (paths' : list Path) (w' : World) :
  connectAll devices cColor paths w = Ok (paths', w') ->
  drawnNodes (canvasOps w') = drawnNodes (canvasOps w)
  /\ joinsOrIn devices paths paths'.
Proof.
  unfold connectAll, forRange. intros Hrun.
  pose (P := fun (_ : nat) (ps : list Path) (v : World) =>
               drawnNodes (canvasOps v) = drawnNodes (canvasOps w)
               /\ joinsOrIn devices paths ps).
  assert (HP : P (length (seq 0 (length devices - 0))) paths' w').
  { eapply forEachM_invariant with (P := P); [| | exact Hrun].
    - clear Hrun paths' w'.
      intros k i ps v ps' v' _ HPv Hinner.
      assert (HP' : P (length (seq (i + 1) (length devices - (i + 1)))) ps' v').
      { eapply forEachM_invariant with (P := P); [| exact HPv | exact Hinner].
        intros k' j qs u qs' u' _ (Hops & Hjoin) Hbody.
        apply bind_Ok in Hbody as (di & u1 & Hdi & Hbody).
        apply liftR_Ok in Hdi as (Hdi & ->).
        apply bind_Ok in Hbody as (dj & u2 & Hdj & Hbody).
        apply liftR_Ok in Hdj as (Hdj & ->).
        apply bind_Ok in Hbody as (tt' & u3 & Hem & Hbody).
        apply emit_Ok in Hem as ->. injection Hbody as <- <-.
        apply index_Ok, nth_error_In in Hdi, Hdj.
        split.
        - simpl. rewrite drawnNodes_app, Hops. simpl. apply app_nil_r.
        - intros p Hp. rewrite !in_app_iff in Hp. simpl in Hp.
          destruct Hp as [Hp | [<- | [<- | []]]].
          + apply Hjoin; exact Hp.
          + right; exists di, dj; auto.
          + right; exists dj, di; auto. }
      exact HP'.
    - split; [reflexivity |]. intros p Hp; left; exact Hp. }
  exact HP.
Qed.

Lemma node_eta (d : Node.t) : Node.mk (Node.x d) (Node.y d) (Node.label d) = d.
Proof. destruct d; reflexivity. Qed.

Lemma drawDevices_run (devices : list Node.t) (r : R) (color : string) :
  forall w : World,
    forEachM (fun device (_ : unit) =>
                drawDevice (Node.x device) (Node.y device) r color
                           (Node.label device)) devices tt w
    = Ok (tt, mkWorld
                (canvasOps w
                 ++ map (fun d => DrawDevice (Node.x d) (Node.y d) r color
                                    (Node.label d)) devices)
                (mathRandom w)).
Proof.
  induction devices as [| d devices IH]; intros w; simpl.
  - unfold ret. rewrite app_nil_r. destruct w; reflexivity.
  - unfold bind, drawDevice, emit at 1; simpl. rewrite IH; simpl.
    rewrite <- app_assoc. reflexivity.
Qed.

Lemma drawnNodes_devices (devices : list Node.t) (r : R) (color : string) :
  drawnNodes (map (fun d => DrawDevice (Node.x d) (Node.y d) r color
                              (Node.label d)) devices) = devices.
Proof.
  induction devices as [| d devices IH]; simpl; [reflexivity |].
  rewrite node_eta. f_equal. exact IH.
Qed.

Lemma drawMeshTopology_Ok (fuel : nat) (width height r : R)
  (dColor cColor tColor : string) (rnd : nat -> R) (paths : list Path)
  (w' : World) :
  drawMeshTopology fuel width height r dColor cColor tColor (mkWorld [] rnd)
  = Ok (paths, w') ->
  let nodes := drawnNodes (canvasOps w') in
  length nodes = 5%nat /\ spaced r nodes /\ joinsOrIn nodes [] paths.
Proof.
  unfold drawMeshTopology. intros Hrun.
  apply bind_Ok in Hrun as (devices & w1 & Hplace & Hrun).
  apply meshPlacement_Ok in Hplace as (Hlen & Hsp & Hops1).
  apply bind_Ok in Hrun as (paths1 & w2 & Hconn & Hrun).
  apply connectAll_Ok in Hconn as (Hops2 & Hjoin).
  apply bind_Ok in Hrun as (u & w3 & Hdraw & Hrun).
  rewrite drawDevices_run in Hdraw. injection Hdraw as _ <-.
  injection Hrun as <- <-.
  cbn [canvasOps]. rewrite drawnNodes_app, drawnNodes_devices, Hops2, Hops1.
  simpl. auto.
Qed.

Lemma drawHybridTopology_Ok (fuel : nat) (width height r : R)
  (dColor cColor tColor : string) (rnd : nat -> R) (paths : list Path)
  (w' : World) :
  drawHybridTopology fuel width height r dColor cColor tColor (mkWorld [] rnd)
  = Ok (paths, w') ->
  let nodes := drawnNodes (canvasOps w') in
  exists meshDevices,
    length nodes = 7%nat /\ skipn 4 nodes = meshDevices
    /\ length meshDevices = 3%nat /\ spaced r meshDevices
    /\ joinsOrIn nodes [] paths.
Proof.
  intros Hrun nodes. unfold drawHybridTopology in Hrun.
  apply bind_Ok in Hrun as (u0 & w0 & Hhub & Hrun).
  apply emit_Ok in Hhub as ->.
  apply bind_Ok in Hrun as ([starDevices paths0] & w1 & Hstar & Hrun).
  set (starHub := Node.mk (width * 0.25) (height / 2) (Some "Star Hub"%string))
    in *.
  (* the star part *)
  assert (Hstarpart :
            length starDevices = 3%nat
            /\ drawnNodes (canvasOps w1) = starHub :: starDevices
            /\ joinsOrIn (starHub :: starDevices) [] paths0).
  { cbn [forRange forEachM seq Nat.sub Nat.add bind ret rbind
         emit drawDevice drawConnection canvasOps mathRandom app
         Node.x Node.y Node.label] in Hstar.
    injection Hstar as <- <- <-.
    split; [reflexivity |]. split; [reflexivity |].
    intros p Hp. right.
    simpl in Hp.
    repeat (destruct Hp as [<- | Hp];
            [eexists _, _; split; [| split; [| reflexivity]]; simpl; tauto |]).
    contradiction. }
  clear Hstar. destruct Hstarpart as (HlenS & HopsS & HjoinS).
  (* the mesh part *)
  apply bind_Ok in Hrun as (meshDevices & w2 & Hplace & Hrun).
  apply hybridMeshPlacement_Ok in Hplace as (HlenM & Hsp & Hops2).
  apply bind_Ok in Hrun as (paths1 & w3 & Hconn & Hrun).
  apply connectAll_Ok in Hconn as (Hops3 & Hjoin1).
  apply bind_Ok in Hrun as (u1 & w4 & Hdraw & Hrun).
  rewrite drawDevices_run in Hdraw. injection Hdraw as _ <-.
  (* the bridge *)
  rewrite HlenS, HlenM in Hrun. cbn [Nat.ltb Nat.leb andb] in Hrun.
  apply bind_Ok in Hrun as (m0 & w5 & Hm0 & Hrun).
  apply liftR_Ok in Hm0 as (Hm0 & ->).
  apply index_Ok, nth_error_In in Hm0.
  apply bind_Ok in Hrun as (u2 & w6 & Hem & Hrun). apply emit_Ok in Hem as ->.
  apply bind_Ok in Hrun as (u3 & w7 & Hem & Hrun). apply emit_Ok in Hem as ->.
  injection Hrun as <- <-.
  assert (Hnodes : nodes = starHub :: starDevices ++ meshDevices).
  { subst nodes. cbn [canvasOps]. rewrite !drawnNodes_app, drawnNodes_devices, Hops3, Hops2, HopsS.
    simpl. rewrite !app_nil_r. reflexivity. }
  exists meshDevices. rewrite Hnodes.
  destruct starDevices as [| s0 [| s1 [| s2 [| ? ?]]]]; try discriminate HlenS.
  split; [simpl; rewrite HlenM; reflexivity |].
  split; [reflexivity |]. split; [exact HlenM |]. split; [exact Hsp |].
  assert (HinS : forall a, In a [starHub; s0; s1; s2] ->
                           In a (starHub :: [s0; s1; s2] ++ meshDevices)).
  { intros a Ha. change (In a ([starHub; s0; s1; s2] ++ meshDevices)).
    apply in_or_app; left; exact Ha. }
  assert (HinM : forall a, In a meshDevices ->
                           In a (starHub :: [s0; s1; s2] ++ meshDevices)).
  { intros a Ha. change (In a ([starHub; s0; s1; s2] ++ meshDevices)).
    apply in_or_app; right; exact Ha. }
  intros p Hp. right. rewrite !in_app_iff in Hp. simpl in Hp.
  destruct Hp as [Hp | [<- | [<- | []]]].
  - destruct (Hjoin1 p Hp) as [Hp0 | (a & b & Ha & Hb & ->)].
    + destruct (HjoinS p Hp0) as [[] | (a & b & Ha & Hb & ->)].
      exists a, b; auto.
    + exists a, b; auto.
  - exists starHub, m0; repeat split; [apply HinS; left; reflexivity | auto].
  - exists m0, starHub; repeat split; [auto | apply HinS; left; reflexivity].
Qed.

(** ** Layouts with random placement *)

Lemma generate_Ok (k : TopologyKind) (fuel : nat) (width height r : R)
  (rnd : nat -> R) (nodes : list Node.t) (paths : list Path) :
  generate k fuel width height r rnd = Ok (nodes, paths) ->
  exists w',
    drawTopology k fuel width height r (mkWorld [] rnd) = Ok (paths, w')
    /\ nodes = drawnNodes (canvasOps w').
Proof.
  unfold generate. intros H. apply rbind_Ok in H as ([paths' w'] & Hd & H).
  injection H as <- <-. exists w'; split; [exact Hd | reflexivity].
Qed.

(** C3. Whenever the mesh layout, or the hybrid layout, returns, the
    nodes of its randomly placed cluster are pairwise at Euclidean
    distance at least [4 * r], whatever values [Math.random] produced and
    however many candidates were rejected; the cluster has five nodes in
    the mesh layout and three in the hybrid one. *)
Theorem random_cluster_spacing (k : TopologyKind) (fuel : nat)
  (width height r : R) (rnd : nat -> R) (nodes : list Node.t)
  (paths : list Path) :
  k = Mesh \/ k = Hybrid ->
  generate k fuel width height r rnd = Ok (nodes, paths) ->
  length (randomCluster k nodes) = (match k with Mesh => 5 | _ => 3 end)%nat
  /\ forall (i j : nat) (a b : Node.t),
       i <> j ->
       nth_error (randomCluster k nodes) i = Some a ->
       nth_error (randomCluster k nodes) j = Some b ->
       sqrt ((Node.x a - Node.x b) ^ 2 + (Node.y a - Node.y b) ^ 2) >= 4 * r.
Proof.
  intros Hk Hgen. apply generate_Ok in Hgen as (w' & Hdraw & ->).
  destruct Hk as [-> | ->]; simpl in Hdraw; unfold randomCluster.
  - apply drawMeshTopology_Ok in Hdraw as (Hlen & Hsp & _).
    split; [exact Hlen | exact Hsp].
  - apply drawHybridTopology_Ok in Hdraw as (meshDevices & _ & Hm & Hlen & Hsp & _).
    rewrite Hm. split; [exact Hlen | exact Hsp].
Qed.

(** ** Evaluating a layout on given draws *)

Lemma Rltb_sqrt_far (s c : R) : 0 <= c -> c ^ 2 <= s -> Rltb (sqrt s) c = false.
Proof.
  intros Hc Hs. apply Rltb_false. apply Rle_ge.
  rewrite <- (sqrt_pow2 c Hc). apply sqrt_le_1; nra.
Qed.

Lemma Rltb_sqrt_near (s c : R) :
  0 <= s -> s < c ^ 2 -> 0 <= c -> Rltb (sqrt s) c = true.
Proof.
  intros Hs Hlt Hc. apply Rltb_true.
  rewrite <- (sqrt_pow2 c Hc). apply sqrt_lt_1; nra.
Qed.

Ltac eval_draw :=
  lazy beta iota zeta delta
    [forRange forEachM seq Nat.sub Nat.add bind ret rbind liftR index nth_error
     emit drawDevice drawConnection canvasOps mathRandom app flat_map
     bothWays map length Node.x Node.y Node.label drawnNodes fst snd
     doWhile random collides existsb nth orb exampleDraws zeroDraws].

Ltac decide_collision :=
  match goal with
  | |- context [Rltb (sqrt ?s) ?c] =>
      first [ rewrite (Rltb_sqrt_far s c) by lra
            | rewrite (Rltb_sqrt_near s c) by lra ]
  end.

(** A run of the mesh layout with one rejected candidate. *)
Lemma generate_Mesh_example :
  exists nodes paths,
    generate Mesh 2 400 300 15 exampleDraws = Ok (nodes, paths)
    /\ length paths = 20%nat
    /\ nth_error nodes 1
       = Some (Node.mk (15 * 2 + 1 / 2 * (400 - 2 * (15 * 2)))
                       (15 * 2 + 0 * (300 - 2 * (15 * 2)))
                       (Some "Device 2"%string)).
Proof.
  eexists _, _.
  unfold generate, drawTopology, drawMeshTopology, meshPlacement, connectAll.
  eval_draw. repeat (decide_collision; eval_draw).
  split; [reflexivity |]. split; reflexivity.
Qed.

Lemma random_cluster_spacing_witness :
  exists nodes paths,
    generate Mesh 2 400 300 15 exampleDraws = Ok (nodes, paths)
    /\ length (randomCluster Mesh nodes) = 5%nat
    /\ forall (i j : nat) (a b : Node.t),
         i <> j ->
         nth_error (randomCluster Mesh nodes) i = Some a ->
         nth_error (randomCluster Mesh nodes) j = Some b ->
         sqrt ((Node.x a - Node.x b) ^ 2 + (Node.y a - Node.y b) ^ 2) >= 4 * 15.
Proof.
  destruct generate_Mesh_example as (nodes & paths & Hgen & _).
  exists nodes, paths. split; [exact Hgen |].
  apply (random_cluster_spacing Mesh 2 400 300 15 exampleDraws nodes paths).
  - left; reflexivity.
  - exact Hgen.
Defined.

(** A run of the hybrid layout on the same draws: the first candidate for
    the second mesh device is rejected, and the second one is accepted at
    distance exactly [4 * r] from the first device. *)
Example generate_Hybrid_example :
  exists nodes paths,
    generate Hybrid 2 400 300 15 exampleDraws = Ok (nodes, paths)
    /\ length nodes = 7%nat /\ length paths = 14%nat
    /\ map Node.label (skipn 4 nodes)
       = [Some "M-Dev 1"; Some "M-Dev 2"; Some "M-Dev 3"]%string.
Proof.
  eexists _, _.
  unfold generate, drawTopology, drawHybridTopology, hybridMeshPlacement,
    connectAll.
  eval_draw. repeat (decide_collision; eval_draw).
  repeat split.
Qed.

(** Without fuel for a second attempt the same run does not return. *)
Example generate_Mesh_out_of_fuel :
  generate Mesh 1 400 300 15 exampleDraws = Diverge.
Proof.
  unfold generate, drawTopology, drawMeshTopology, meshPlacement, connectAll.
  eval_draw. repeat (decide_collision; eval_draw). reflexivity.
Qed.

(** ** Endpoints of the paths *)

Lemma Ok_pair_inv {A B : Type} (a c : A) (b d : B) :
  @Ok (A * B) (a, b) = Ok (c, d) -> a = c /\ b = d.
Proof. intros H; injection H; auto. Qed.

(** C2, as the code has it.  Every path a layout returns has two points.
    In the star, mesh, tree and hybrid layouts both are nodes drawn by the
    same call.  In the bus layout they are the points of the bus line
    above two of the drawn devices. *)
Theorem path_endpoints (k : TopologyKind) (fuel : nat) (width height r : R)
  (rnd : nat -> R) (nodes : list Node.t) (paths : list Path) :
  generate k fuel width height r rnd = Ok (nodes, paths) ->
  forall path : Path,
    In path paths ->
    exists a b : Node.t,
      path = [a; b]
      /\ match k with
         | Bus =>
             exists da db : Node.t,
               In da nodes /\ In db nodes
               /\ a = Node.mk (Node.x da) (height / 2) None
               /\ b = Node.mk (Node.x db) (height / 2) None
         | _ => In a nodes /\ In b nodes
         end.
Proof.
  intros Hgen path Hpath. destruct k.
  - (* star *)
    rewrite generate_Star in Hgen. apply Ok_pair_inv in Hgen as [<- <-].
    unfold starPaths in Hpath. apply in_flat_map in Hpath as (d & Hd & Hp).
    destruct Hp as [<- | [<- | []]]; eexists _, _; (split; [reflexivity |]);
      split; solve [left; reflexivity | right; exact Hd].
  - (* mesh *)
    apply generate_Ok in Hgen as (w' & Hdraw & ->). simpl in Hdraw.
    apply drawMeshTopology_Ok in Hdraw as (_ & _ & Hjoin).
    destruct (Hjoin path Hpath) as [[] | (a & b & Ha & Hb & ->)].
    exists a, b; auto.
  - (* bus *)
    rewrite generate_Bus in Hgen. apply Ok_pair_inv in Hgen as [<- <-].
    apply in_flat_map in Hpath as (i & Hi & Hp). apply in_seq in Hi.
    assert (Hin : forall j, (j < 5)%nat ->
                            In (busDeviceNode width height r j)
                               (map (busDeviceNode width height r) (seq 0 5))).
    { intros j Hj. apply in_map, in_seq; lia. }
    destruct Hp as [<- | [<- | []]]; eexists _, _; (split; [reflexivity |]);
      [ exists (busDeviceNode width height r i),
               (busDeviceNode width height r (i + 1))
      | exists (busDeviceNode width height r (i + 1)),
               (busDeviceNode width height r i) ];
      (split; [apply Hin; lia |]); (split; [apply Hin; lia |]);
      split; reflexivity.
  - (* tree *)
    rewrite generate_Tree in Hgen. apply Ok_pair_inv in Hgen as [<- <-].
    apply in_flat_map in Hpath as (e & He & Hp).
    destruct Hp as [<- | [<- | []]]; eexists _, _; (split; [reflexivity |]);
      unfold treeEdges in He; simpl in He;
      repeat (destruct He as [<- | He]; [simpl; tauto |]); contradiction.
  - (* hybrid *)
    apply generate_Ok in Hgen as (w' & Hdraw & ->). simpl in Hdraw.
    apply drawHybridTopology_Ok in Hdraw as (m & _ & _ & _ & _ & Hjoin).
    destruct (Hjoin path Hpath) as [[] | (a & b & Ha & Hb & ->)].
    exists a, b; auto.
Qed.

Lemma path_endpoints_witness :
  generate Tree 0 400 300 15 zeroDraws
  = Ok ([ treeRoot 400 300; treeSubHubA 400 300; treeSubHubB 400 300;
          treeLeaf 400 300 0; treeLeaf 400 300 1; treeLeaf 400 300 2;
          treeLeaf 400 300 3 ],
        flat_map (fun e => bothWays (fst e) (snd e)) (treeEdges 400 300))
  /\ forall path : Path,
       In path (flat_map (fun e => bothWays (fst e) (snd e)) (treeEdges 400 300)) ->
       exists a b : Node.t,
         path = [a; b]
         /\ In a [ treeRoot 400 300; treeSubHubA 400 300; treeSubHubB 400 300;
                   treeLeaf 400 300 0; treeLeaf 400 300 1; treeLeaf 400 300 2;
                   treeLeaf 400 300 3 ]
         /\ In b [ treeRoot 400 300; treeSubHubA 400 300; treeSubHubB 400 300;
                   treeLeaf 400 300 0; treeLeaf 400 300 1; treeLeaf 400 300 2;
                   treeLeaf 400 300 3 ].
Proof.
  split; [reflexivity |].
  apply (path_endpoints Tree 0 400 300 15 zeroDraws).
  reflexivity.
Defined.

(** C2 as stated fails on the bus: the points of its paths lie on the bus
    line, [2 * r] above the devices, and none of them is a drawn node. *)
Lemma bus_path_endpoints_not_drawn :
  ~ (forall (k : TopologyKind) (fuel : nat) (width height r : R)
            (rnd : nat -> R) (nodes : list Node.t) (paths : list Path),
        0 < width -> 0 < height -> 0 < r ->
        generate k fuel width height r rnd = Ok (nodes, paths) ->
        forall (path : Path) (a : Node.t),
          In path paths -> In a path -> In a nodes).
Proof.
  intros H.
  specialize (H Bus 0%nat 400 300 15 zeroDraws _ _ ltac:(lra) ltac:(lra) ltac:(lra)
                (generate_Bus 0 400 300 15 zeroDraws)
                [ busAttachment 300 (busDeviceNode 400 300 15 0);
                  busAttachment 300 (busDeviceNode 400 300 15 1) ]
                (busAttachment 300 (busDeviceNode 400 300 15 0))).
  assert (Hin : In (busAttachment 300 (busDeviceNode 400 300 15 0))
                   (map (busDeviceNode 400 300 15) (seq 0 5))).
  { apply H; left; reflexivity. }
  apply in_map_iff in Hin as (i & Hi & _).
  apply (f_equal Node.y) in Hi. unfold busDeviceNode, busAttachment in Hi.
  cbn [Node.y] in Hi. lra.
Qed.

(** ** The frame callback on the star topology *)

Lemma drawSelectedTopology_star (fuel : nat) (width height : R) :
  drawSelectedTopology "star" fuel width height
  = drawStarTopology width height deviceRadius deviceColor connectionColor
      textColor.
Proof. reflexivity. Qed.

Lemma on_circle_rev (cx cy rho theta : R) :
  (cx - (cx + rho * cos theta)) ^ 2 + (cy - (cy + rho * sin theta)) ^ 2 = rho ^ 2.
Proof. rewrite <- (on_circle cx cy rho theta). ring. Qed.

Lemma starPaths_segments (width height : R) (path : Path) :
  0 <= Rmin width height ->
  In path (starPaths width height) ->
  exists a b, path = [a; b] /\ segmentLength a b = Rmin width height * 0.35.
Proof.
  intros Hmin Hpath. unfold starPaths in Hpath.
  apply in_flat_map in Hpath as (d & Hd & Hp).
  apply in_map_iff in Hd as (i & <- & _).
  assert (Hrho : 0 <= Rmin width height * 0.35) by lra.
  destruct Hp as [<- | [<- | []]]; eexists _, _; (split; [reflexivity |]);
    unfold segmentLength, starHubNode, starDeviceNode; cbn [Node.x Node.y].
  - rewrite on_circle. apply sqrt_pow2; exact Hrho.
  - rewrite on_circle_rev. apply sqrt_pow2; exact Hrho.
Qed.

Lemma floor_in_range (u : R) (n : nat) :
  0 <= u < 1 -> (0 < n)%nat ->
  exists k : nat, (k < n)%nat /\ floor (u * INR n) = Z.of_nat k.
Proof.
  intros [Hu0 Hu1] Hn. unfold floor.
  destruct (base_Int_part (u * INR n)) as [Hle Hgt].
  assert (HnR : 0 < INR n) by (apply lt_0_INR; exact Hn).
  assert (Hx0 : 0 <= u * INR n) by nra.
  assert (Hx1 : u * INR n < INR n) by nra.
  assert (Hz0 : (0 <= Int_part (u * INR n))%Z).
  { apply Z.lt_succ_r, lt_IZR. rewrite succ_IZR. lra. }
  assert (Hz1 : (Int_part (u * INR n) < Z.of_nat n)%Z).
  { apply lt_IZR. rewrite <- INR_IZR_INZ. lra. }
  exists (Z.to_nat (Int_part (u * INR n))). split; lia.
Qed.

Lemma createPacket_two (a b : Node.t) :
  createPacket [a; b] = Ok (Some (Packet.mk (Node.x a) (Node.y a) [a; b] 0 0)).
Proof. reflexivity. Qed.

(** The spawn step on the paths of the star layout, once the interval
    test passes. *)
Lemma spawnStep_star (currentTime width height : R) (pk : PacketArray)
  (w : World) :
  0 <= Rmin width height ->
  currentTime - lastSpawnOr0 pk > packetInterval ->
  0 <= mathRandom w 0%nat < 1 ->
  exists p,
    spawnStep currentTime (starPaths width height) pk w
    = Ok ((mkPacketArray (items pk ++ [p]) (Some currentTime), true),
          mkWorld (canvasOps w) (fun n => mathRandom w (S n)))
    /\ onFirstSegment width height 0 p.
Proof.
  intros Hmin Hgt Hu. unfold spawnStep.
  rewrite (proj2 (Rgtb_true _ _) Hgt).
  change (length (starPaths width height)) with 10%nat.
  cbn [Nat.ltb Nat.leb]. unfold bind at 1, random at 1. cbn [rbind].
  destruct (floor_in_range (mathRandom w 0%nat) 10 Hu) as (k & Hk & Hfloor);
    [lia |].
  assert (Hsel : exists path,
             indexZ (starPaths width height) (Z.of_nat k) = Ok path
             /\ In path (starPaths width height)).
  { do 10 (destruct k as [| k];
           [eexists; split; [reflexivity | simpl; tauto] |]). lia. }
  destruct Hsel as (path & Hsel & Hin).
  destruct (starPaths_segments width height path Hmin Hin) as (a & b & -> & _).
  unfold bind, liftR. rewrite Hfloor, Hsel. cbn [rbind].
  rewrite createPacket_two. cbn [rbind]. unfold ret.
  eexists; split; [reflexivity |].
  repeat split; simpl; try lra. exact Hin.
Qed.

Lemma onFirstSegment_weaken (width height bound bound' : R) (p : Packet.t) :
  bound <= bound' ->
  onFirstSegment width height bound p -> onFirstSegment width height bound' p.
Proof. intros Hb (Hin & Hseg & Hd). repeat split; try assumption; lra. Qed.

(** A packet on its way along a spoke only moves on. *)
Lemma updatePacket_in_flight (width height bound deltaTime : R) (p : Packet.t) :
  onFirstSegment width height bound p ->
  0 <= deltaTime ->
  bound + packetSpeed * (deltaTime / 16) < Rmin width height * 0.35 ->
  exists q,
    updatePacket deltaTime p = Ok (true, q)
    /\ onFirstSegment width height (bound + packetSpeed * (deltaTime / 16)) q.
Proof.
  intros (Hin & Hseg & Hd) Hdt Hlt.
  assert (Hstep : 0 <= packetSpeed * (deltaTime / 16)).
  { unfold packetSpeed. assert (0 <= deltaTime / 16) by lra. nra. }
  assert (Hmin : 0 <= Rmin width height) by lra.
  destruct (starPaths_segments width height _ Hmin Hin) as (a & b & Hpath & Hlen).
  destruct (updatePacket_cases deltaTime p)
    as [[Hend _] | (s & e & _ & Ns & Ne & Hcases)].
  { apply atPathEnd_true in Hend. rewrite Hpath, Hseg in Hend.
    simpl in Hend; lia. }
  rewrite Hpath, Hseg in Ns, Ne. simpl in Ns, Ne.
  injection Ns as <-. injection Ne as <-.
  unfold advancedDistance in Hcases. rewrite Hlen in Hcases.
  destruct Hcases as [(Hge & _) | [(Hge & _) | (_ & Hu)]]; try lra.
  rewrite checkedDiv_ok in Hu by lra. simpl in Hu.
  eexists; split; [exact Hu |].
  repeat split; simpl; try assumption; lra.
Qed.

Lemma updatePackets_in_flight (width height bound deltaTime : R)
  (pk : PacketArray) :
  Forall (onFirstSegment width height bound) (items pk) ->
  0 <= deltaTime ->
  bound + packetSpeed * (deltaTime / 16) < Rmin width height * 0.35 ->
  exists qs,
    updatePackets deltaTime pk = Ok (mkPacketArray qs None)
    /\ length qs = length (items pk)
    /\ Forall (onFirstSegment width height
                 (bound + packetSpeed * (deltaTime / 16))) qs.
Proof.
  intros Hall Hdt Hlt.
  assert (Hrs : exists rs,
             Forall2 (fun p r => updatePacket deltaTime p = Ok r) (items pk) rs
             /\ length (keptPackets rs) = length (items pk)
             /\ Forall (onFirstSegment width height
                          (bound + packetSpeed * (deltaTime / 16)))
                       (keptPackets rs)).
  { induction Hall as [| p ps Hp _ IH].
    - exists []; repeat split; constructor.
    - destruct IH as (rs & Hrs & Hlen & Hkept).
      destruct (updatePacket_in_flight _ _ _ _ p Hp Hdt Hlt) as (q & Hq & Hq').
      exists ((true, q) :: rs). unfold keptPackets in *; simpl.
      repeat split; [constructor; assumption | f_equal; exact Hlen |].
      constructor; assumption. }
  destruct Hrs as (rs & Hrs & Hlen & Hkept).
  exists (keptPackets rs). split; [| split; assumption].
  apply updatePackets_Ok. exists rs; split; [exact Hrs | reflexivity].
Qed.

Lemma bind_run {A B : Type} (m : Draw A) (k : A -> Draw B) (w : World)
  (a : A) (w1 : World) :
  m w = Ok (a, w1) -> bind m k w = k a w1.
Proof. intros H; unfold bind; rewrite H; reflexivity. Qed.

Lemma drawPackets_run (ps : list Packet.t) :
  forall w : World,
    forEachM (fun packet (_ : unit) => drawPacket packet) ps tt w
    = Ok (tt, mkWorld
                (canvasOps w
                 ++ map (fun p => DrawPacket (Packet.x p) (Packet.y p)) ps)
                (mathRandom w)).
Proof.
  induction ps as [| p ps IH]; intros w; simpl.
  - unfold ret. rewrite app_nil_r. destruct w; reflexivity.
  - unfold bind, drawPacket, emit at 1; simpl. rewrite IH; simpl.
    rewrite <- app_assoc. reflexivity.
Qed.

(** One frame of the star topology whose interval test passes: a packet
    is pushed, and the array that [updatePackets] leaves has no
    [lastSpawnTime]. *)
Lemma animate_star (fuel : nat) (t bound : R) (s : AnimState) :
  Forall (onFirstSegment (canvasWidth s) (canvasHeight s) bound)
         (items (packets s)) ->
  t - lastSpawnOr0 (packets s) > packetInterval ->
  (forall n, 0 <= mathRandom (world s) n < 1) ->
  0 <= bound ->
  lastTime s <= t ->
  bound + packetSpeed * ((t - lastTime s) / 16)
  < Rmin (canvasWidth s) (canvasHeight s) * 0.35 ->
  exists s',
    animate "star" fuel t s = Ok s'
    /\ starRunning (canvasWidth s) (canvasHeight s)
         (bound + packetSpeed * ((t - lastTime s) / 16)) t
         (S (length (items (packets s)))) (S (spawnEvents s)) s'.
Proof.
  intros Hall Hgt Hdraws Hb Ht Hlt.
  set (W := canvasWidth s) in *. set (H := canvasHeight s) in *.
  set (dt := t - lastTime s) in *.
  assert (Hdt : 0 <= dt) by (subst dt; lra).
  assert (Hstep : 0 <= packetSpeed * (dt / 16)).
  { unfold packetSpeed. assert (0 <= dt / 16) by lra. nra. }
  assert (Hmin : 0 <= Rmin W H) by lra.
  destruct (spawnStep_star t W H (packets s)
              (mkWorld
                 (DrawDevice (W / 2) (H / 2) (deviceRadius + 5) "#EF4444"
                    (Some "Router/Hub"%string)
                  :: flat_map (fun d =>
                        [ DrawDevice (Node.x d) (Node.y d) deviceRadius
                            deviceColor (Node.label d);
                          DrawConnection (W / 2) (H / 2) (Node.x d) (Node.y d)
                            connectionColor ])
                       (starDeviceNodes W H))
                 (mathRandom (world s))) Hmin Hgt (Hdraws 0%nat))
    as (p & Hspawn & Hp).
  destruct (updatePackets_in_flight W H bound dt
              (mkPacketArray (items (packets s) ++ [p]) (Some t)))
    as (qs & Hupd & Hlen & Hqs); [| exact Hdt | exact Hlt |].
  { simpl. apply Forall_app; split; [exact Hall |].
    constructor; [| constructor].
    apply (onFirstSegment_weaken W H 0 bound); assumption. }
  eexists; split.
  - unfold animate, animateFrame. fold W H dt.
    rewrite (bind_run clearRect _ _ tt (mkWorld [] (mathRandom (world s))))
      by reflexivity.
    rewrite drawSelectedTopology_star.
    rewrite (bind_run _ _ _ _ _ (drawStarTopology_cleared W H _ _ _ _ _)).
    rewrite (bind_run _ _ _ _ _ Hspawn).
    unfold liftR at 1. rewrite (bind_run _ _ _ (mkPacketArray qs None) _)
      by (rewrite Hupd; reflexivity).
    rewrite (bind_run _ _ _ _ _ (drawPackets_run _ _)).
    unfold ret. cbn [rbind fst snd]. reflexivity.
  - simpl in Hlen. rewrite length_app in Hlen; simpl in Hlen.
    constructor; simpl; try reflexivity; try assumption.
    + lia.
    + lia.
    + exists (S (frameRequests s)); split; [reflexivity |].
      rewrite existsb_app; simpl. rewrite Nat.eqb_refl.
      rewrite orb_true_r. reflexivity.
    + intros n. apply (Hdraws (S n)).
Qed.

Lemma starRunning_bound (width height bound bound' time : R) (count spawned : nat)
  (s : AnimState) :
  bound <= bound' ->
  starRunning width height bound time count spawned s ->
  starRunning width height bound' time count spawned s.
Proof.
  intros Hb [Hw Hh Ht Hf Hc Hs Hp Hsch Hd].
  constructor; try assumption.
  eapply Forall_impl; [| exact Hp].
  intros p; apply onFirstSegment_weaken; exact Hb.
Qed.

Lemma runFrame_star (fuel : nat) (width height bound time t : R)
  (count spawned : nat) (s : AnimState) :
  starRunning width height bound time count spawned s ->
  0 <= bound -> time <= t -> t > packetInterval ->
  bound + packetSpeed * ((t - time) / 16) < Rmin width height * 0.35 ->
  exists s',
    runFrame "star" fuel t s = Ok s'
    /\ starRunning width height (bound + packetSpeed * ((t - time) / 16)) t
         (S count) (S spawned) s'.
Proof.
  intros [Hw Hh Ht Hf Hc Hs Hp (id & Hid & Hpending) Hd] Hb Hle Hgt Hlt.
  unfold runFrame. rewrite Hid, Hpending.
  subst width height time count spawned.
  apply (animate_star fuel t bound
           (mkAnimState (packets s) (lastTime s) (canvasWidth s) (canvasHeight s)
              (Some id) (cancelAnimationFrame id (pendingFrames s))
              (frameRequests s) (world s) (spawnEvents s)));
    cbn [packets lastTime canvasWidth canvasHeight world spawnEvents];
    try assumption.
  unfold lastSpawnOr0, packetInterval in *; rewrite Hf. lra.
Qed.

Lemma resizeCanvas_star (fuel : nat) (offsetWidth : nat) (now : R)
  (s : AnimState) :
  let width := INR offsetWidth in
  let height := IZR (floor (Rmin (INR offsetWidth * 0.6) 400)) in
  now > packetInterval ->
  (forall n, 0 <= mathRandom (world s) n < 1) ->
  0 < Rmin width height ->
  exists s',
    resizeCanvas "star" fuel offsetWidth now s = Ok s'
    /\ starRunning width height 0 now 1 (S (spawnEvents s)) s'.
Proof.
  intros width height Hnow Hdraws Hmin. unfold resizeCanvas. fold width height.
  match goal with
  | |- exists s', animate _ _ _ ?s0 = _ /\ _ =>
      pose proof (animate_star fuel now 0 s0) as Hstep
  end.
  cbn [packets lastTime canvasWidth canvasHeight world items emptyArray
       spawnEvents length] in Hstep.
  destruct Hstep as (s' & Hrun & Hs').
  - constructor.
  - unfold lastSpawnOr0, emptyArray, packetInterval in *; cbn [lastSpawnTime]. lra.
  - exact Hdraws.
  - lra.
  - lra.
  - unfold packetSpeed, width, height in *. lra.
  - exists s'; split; [exact Hrun |].
    eapply starRunning_bound; [| exact Hs']. unfold packetSpeed; lra.
Qed.

(** Every frame of a run on the star topology pushes a packet, once the
    clock has passed [packetInterval] and as long as no packet has reached
    the rim. *)
Lemma runFrames_star (fuel : nat) (width height : R) (times : list R) :
  forall (bound time : R) (count spawned : nat) (s : AnimState),
    starRunning width height bound time count spawned s ->
    0 <= bound -> time > packetInterval ->
    ascendingFrom time times ->
    bound + packetSpeed * ((lastTimeOf time times - time) / 16)
    < Rmin width height * 0.35 ->
    exists s',
      runFrames "star" fuel times s = Ok s'
      /\ starRunning width height
           (bound + packetSpeed * ((lastTimeOf time times - time) / 16))
           (lastTimeOf time times)
           (count + length times) (spawned + length times) s'.
Proof.
  induction times as [| t times IH]; intros bound time count spawned s Hs Hb Ht Hasc Hlt.
  - simpl. exists s; split; [reflexivity |].
    rewrite !Nat.add_0_r.
    eapply starRunning_bound; [| exact Hs]. unfold packetSpeed; lra.
  - simpl in Hasc, Hlt |- *. destruct Hasc as [Hle Hasc].
    assert (Hmono : forall a l, ascendingFrom a l -> a <= lastTimeOf a l).
    { intros a l; revert a; induction l as [| b l IHl]; simpl; intros a Ha;
        [lra |]. destruct Ha as [Hab Hl]. specialize (IHl b Hl). lra. }
    pose proof (Hmono t times Hasc) as Hlast.
    destruct (runFrame_star fuel width height bound time t count spawned s Hs Hb Hle)
      as (s1 & Hrun1 & Hs1).
    { unfold packetInterval in *; lra. }
    { unfold packetSpeed in *; lra. }
    rewrite Hrun1; simpl.
    destruct (IH _ t _ _ s1 Hs1) as (s' & Hrun & Hs'); try assumption.
    { unfold packetSpeed in *; lra. }
    { unfold packetInterval in *; lra. }
    { unfold packetSpeed in *; lra. }
    exists s'; split; [exact Hrun |].
    replace (count + S (length times))%nat with (S count + length times)%nat by lia.
    replace (spawned + S (length times))%nat with (S spawned + length times)%nat
      by lia.
    eapply starRunning_bound; [| exact Hs']. unfold packetSpeed; lra.
Qed.

(** ** A 500 pixel wide canvas *)

Lemma INR_500 : INR 500 = 500.
Proof. rewrite INR_IZR_INZ. reflexivity. Qed.

Lemma canvas_height_500 : floor (Rmin (INR 500 * 0.6) 400) = 300%Z.
Proof. rewrite INR_500, Rmin_left by lra. apply floor_unique; lra. Qed.

Lemma canvas_min_500 :
  Rmin (INR 500) (IZR (floor (Rmin (INR 500 * 0.6) 400))) = 300.
Proof. rewrite canvas_height_500, INR_500. apply Rmin_right; lra. Qed.

Lemma zeroDraws_in_range (n : nat) : 0 <= zeroDraws n < 1.
Proof. unfold zeroDraws; lra. Qed.

(** C6 fails on the code.  The effect mounts at 2000 ms on a canvas 500
    pixels wide with the star topology, and three more frames follow at
    2016, 2032 and 2048 ms: a run of 48 ms, less than one spawn interval.
    The frame run by [resizeCanvas] pushes a packet and so does each of
    the three frames: four spawn events, and four packets in flight. *)
Theorem spawn_on_every_frame_example :
  exists s0 s : AnimState,
    resizeCanvas "star" 0 500 2000 (mountState (mkWorld [] zeroDraws)) = Ok s0
    /\ runFrames "star" 0 [2016; 2032; 2048] s0 = Ok s
    /\ spawnEvents s0 = 1%nat
    /\ spawnEvents s = 4%nat
    /\ length (items (packets s)) = 4%nat
    /\ lastSpawnTime (packets s) = None
    /\ floor ((2048 - 2000) / packetInterval) = 0%Z.
Proof.
  destruct (resizeCanvas_star 0 500 2000 (mountState (mkWorld [] zeroDraws)))
    as (s0 & Hresize & Hs0).
  { unfold packetInterval; lra. }
  { intros n; apply zeroDraws_in_range. }
  { rewrite canvas_min_500; lra. }
  destruct (runFrames_star 0 _ _ [2016; 2032; 2048] 0 2000 1 1 s0 Hs0)
    as (s & Hrun & Hs).
  { lra. }
  { unfold packetInterval; lra. }
  { simpl; lra. }
  { rewrite canvas_min_500. unfold packetSpeed; simpl lastTimeOf. lra. }
  exists s0, s. split; [exact Hresize |]. split; [exact Hrun |].
  split; [exact (running_spawned _ _ _ _ _ _ _ Hs0) |].
  split; [exact (running_spawned _ _ _ _ _ _ _ Hs) |].
  split; [exact (running_count _ _ _ _ _ _ _ Hs) |].
  split; [exact (running_forgot _ _ _ _ _ _ _ Hs) |].
  apply floor_unique. unfold packetInterval. lra.
Qed.

(** ** [resizeCanvas] *)

Lemma createPacket_Some (path : Path) (p : Packet.t) :
  createPacket path = Ok (Some p) ->
  Packet.path p = path /\ Packet.currentSegment p = 0%nat
  /\ Packet.distanceTraveled p = 0.
Proof.
  unfold createPacket. destruct (_ <? _)%Z; [discriminate |].
  intros H. apply rbind_Ok in H as (p0 & _ & H). injection H as <-.
  repeat split.
Qed.

Lemma spawnStep_Ok (currentTime : R) (currentPaths : list Path)
  (pk : PacketArray) (w : World) (pk' : PacketArray) (pushed : bool)
  (w' : World) :
  spawnStep currentTime currentPaths pk w = Ok ((pk', pushed), w') ->
  (pushed = false /\ pk' = pk)
  \/ (pushed = true
      /\ currentTime - lastSpawnOr0 pk > packetInterval
      /\ exists p, pk' = mkPacketArray (items pk ++ [p]) (Some currentTime)
                   /\ Packet.currentSegment p = 0%nat
                   /\ Packet.distanceTraveled p = 0).
Proof.
  unfold spawnStep.
  destruct (Rgtb _ _) eqn:Egt;
    [| intros H; injection H as <- <- _; left; split; reflexivity].
  apply Rgtb_true in Egt.
  destruct (0 <? length currentPaths)%nat;
    [| intros H; injection H as <- <- _; left; split; reflexivity].
  intros H.
  apply bind_Ok in H as (u & w1 & _ & H).
  apply bind_Ok in H as (path & w2 & _ & H).
  apply bind_Ok in H as (newPacket & w3 & Hc & H).
  apply liftR_Ok in Hc as (Hc & _).
  destruct newPacket as [p |].
  - injection H as <- <- _. right. split; [reflexivity |]. split; [exact Egt |].
    apply createPacket_Some in Hc as (_ & Hseg & Hd). exists p. auto.
  - injection H as <- <- _. left; split; reflexivity.
Qed.

Lemma animate_Ok (selectedTopology : string) (fuel : nat) (t : R)
  (s s' : AnimState) :
  animate selectedTopology fuel t s = Ok s' ->
  exists (currentPaths : list Path) (pk : PacketArray) (pushed : bool)
         (w1 w2 : World),
    spawnStep t currentPaths (packets s) w1 = Ok ((pk, pushed), w2)
    /\ updatePackets (t - lastTime s) pk = Ok (packets s')
    /\ spawnEvents s' = (spawnEvents s + if pushed then 1 else 0)%nat
    /\ lastTime s' = t.
Proof.
  unfold animate. intros H. apply rbind_Ok in H as ([[pk2 pushed] w] & Hf & H).
  injection H as <-. cbn [packets spawnEvents lastTime fst snd].
  unfold animateFrame in Hf.
  apply bind_Ok in Hf as (u0 & w0 & _ & Hf).
  apply bind_Ok in Hf as (currentPaths & w1 & _ & Hf).
  apply bind_Ok in Hf as ([pk pushed'] & w2 & Hspawn & Hf).
  apply bind_Ok in Hf as (pk2' & w3 & Hupd & Hf).
  apply liftR_Ok in Hupd as (Hupd & ->).
  apply bind_Ok in Hf as (u1 & w4 & _ & Hf).
  injection Hf as <- <- _.
  exists currentPaths, pk, pushed', w1, w2. auto.
Qed.

Lemma Forall2_nil_l {A B : Type} (P : A -> B -> Prop) (l : list B) :
  Forall2 P [] l -> l = [].
Proof. inversion 1; reflexivity. Qed.

Lemma Forall2_single_l {A B : Type} (P : A -> B -> Prop) (a : A) (l : list B) :
  Forall2 P [a] l -> exists b, l = [b] /\ P a b.
Proof.
  inversion 1 as [| a' b la lb Hab Hrest]; subst.
  apply Forall2_nil_l in Hrest as ->. exists b; split; [reflexivity | exact Hab].
Qed.

(** C7, as the code has it.  When [resizeCanvas] returns, none of the
    packets it found is left: the array was emptied, and the frame that
    [resizeCanvas] then runs leaves in it at most the one packet it
    spawned itself, which has not moved yet; it leaves the array empty
    when [performance.now()] is at most [packetInterval]. *)
Theorem resizeCanvas_restarts_packets (selectedTopology : string) (fuel : nat)
  (offsetWidth : nat) (now : R) (s s' : AnimState) :
  resizeCanvas selectedTopology fuel offsetWidth now s = Ok s' ->
  (length (items (packets s')) <= 1)%nat
  /\ (length (items (packets s')) <= spawnEvents s' - spawnEvents s)%nat
  /\ (now <= packetInterval -> items (packets s') = [])
  /\ (forall p, In p (items (packets s')) -> Packet.distanceTraveled p = 0)
  /\ lastTime s' = now.
Proof.
  unfold resizeCanvas. intros H.
  apply animate_Ok in H as (paths & pk & pushed & w1 & w2 & Hspawn & Hupd & Hev & Ht).
  cbn [packets lastTime spawnEvents] in *.
  apply updatePackets_Ok in Hupd as (rs & Hrs & Hpk). rewrite Hpk.
  cbn [items].
  apply spawnStep_Ok in Hspawn
      as [(-> & ->) | (-> & Hgt & p & -> & Hseg & Hd)]; cbn [items emptyArray app] in Hrs.
  - apply Forall2_nil_l in Hrs as ->. unfold keptPackets; simpl.
    repeat split; auto; try lia; try (intros p []).
  - apply Forall2_single_l in Hrs as ([keep q] & -> & Hq).
    unfold lastSpawnOr0, emptyArray in Hgt; cbn [lastSpawnTime] in Hgt.
    unfold keptPackets; destruct keep; simpl.
    + split; [lia |]. split; [lia |]. split; [intros; lra |]. split; [| exact Ht].
      intros p' [<- | []].
      destruct (updatePacket_cases (now - now) p)
        as [[_ Hu] | (a & b & _ & _ & _ & [(_ & _ & Hu) | [(_ & _ & Hu) | (_ & Hu)]])];
        rewrite Hu in Hq; try discriminate.
      * injection Hq as <-. reflexivity.
      * apply rbind_Ok in Hq as (ratio & _ & Hq). injection Hq as <-.
        unfold advancedDistance, packetSpeed; cbn [Packet.distanceTraveled].
        rewrite Hd. lra.
    + split; [lia |]. split; [lia |]. split; [intros; lra |]. split; [| exact Ht].
      intros p' [].
Qed.

(** C7 as stated fails: after a resize more than a second into the life
    of the page the array holds the packet that the restarted frame
    spawned. *)
Lemma resizeCanvas_leaves_a_packet :
  exists s' : AnimState,
    resizeCanvas "star" 0 500 5000 (mountState (mkWorld [] zeroDraws)) = Ok s'
    /\ length (items (packets s')) = 1%nat
    /\ items (packets s') <> [].
Proof.
  destruct (resizeCanvas_star 0 500 5000 (mountState (mkWorld [] zeroDraws)))
    as (s' & Hresize & Hs').
  - unfold packetInterval; lra.
  - intros n; apply zeroDraws_in_range.
  - rewrite canvas_min_500; lra.
  - exists s'. split; [exact Hresize |].
    pose proof (running_count _ _ _ _ _ _ _ Hs') as Hcount.
    split; [exact Hcount |].
    intros Hnil. rewrite Hnil in Hcount. discriminate Hcount.
Qed.

(** * Further properties of the packet engine *)

Lemma updatePacket_well_placed (deltaTime : R) (p : Packet.t) :
  0 <= deltaTime ->
  0 <= Packet.distanceTraveled p ->
  exists keep q,
    updatePacket deltaTime p = Ok (keep, q)
    /\ (keep = true -> wellPlaced q).
Proof.
  intros Hdt Hd.
  assert (Hadv : 0 <= advancedDistance deltaTime p).
  { unfold advancedDistance, packetSpeed.
    assert (0 <= deltaTime / 16) by lra. nra. }
  destruct (updatePacket_cases deltaTime p)
    as [[_ Hu] | (s & e & Hend & Ns & Ne
                  & [(_ & _ & Hu) | [(_ & Hlen & Hu) | (Hl & Hu)]])].
  - eexists _, _; split; [exact Hu | discriminate].
  - eexists _, _; split; [exact Hu | discriminate].
  - eexists _, _; split; [exact Hu |]. intros _.
    split; [cbn [Packet.distanceTraveled]; lra |].
    cbn [Packet.path Packet.currentSegment Packet.distanceTraveled].
    destruct (index_in_range (Packet.path p) (Packet.currentSegment p + 1 + 1))
      as (e' & _ & Ne'); [lia |].
    exists e, e'. split; [exact Ne |]. split; [exact Ne' |]. left; reflexivity.
  - rewrite checkedDiv_ok in Hu by lra. cbn [rbind] in Hu.
    eexists _, _; split; [exact Hu |]. intros _.
    split; [cbn [Packet.distanceTraveled]; exact Hadv |].
    cbn [Packet.path Packet.currentSegment Packet.distanceTraveled].
    exists s, e. split; [exact Ns |]. split; [exact Ne |]. right; exact Hl.
Qed.

(** X1. As long as every packet has a non-negative travelled distance and
    the elapsed time is non-negative, [updatePackets] returns normally, and
    every packet it keeps still has a segment ahead of it, with a distance
    that is zero or within that segment. *)
Theorem updatePackets_keeps_well_placed (deltaTime : R) (packets : PacketArray) :
  0 <= deltaTime ->
  Forall (fun p => 0 <= Packet.distanceTraveled p) (items packets) ->
  exists packets',
    updatePackets deltaTime packets = Ok packets'
    /\ Forall wellPlaced (items packets').
Proof.
  intros Hdt Hall.
  assert (Hrs : exists rs,
             Forall2 (fun p r => updatePacket deltaTime p = Ok r)
                     (items packets) rs
             /\ Forall wellPlaced (keptPackets rs)).
  { induction Hall as [| p ps Hp _ IH].
    - exists []; split; constructor.
    - destruct IH as (rs & Hrs & Hkept).
      destruct (updatePacket_well_placed deltaTime p Hdt Hp) as (keep & q & Hq & Hw).
      exists ((keep, q) :: rs). split; [constructor; assumption |].
      unfold keptPackets in *. destruct keep; simpl; [| exact Hkept].
      constructor; [apply Hw; reflexivity | exact Hkept]. }
  destruct Hrs as (rs & Hrs & Hkept).
  exists (mkPacketArray (keptPackets rs) None). split; [| exact Hkept].
  apply updatePackets_Ok. exists rs; split; [exact Hrs | reflexivity].
Qed.

Lemma segment_3_4_5 :
  segmentLength (Node.mk 0 0 None) (Node.mk 3 4 None) = 5.
Proof.
  unfold segmentLength; cbn [Node.x Node.y]. apply sqrt_lem_1; lra.
Qed.

Lemma updatePackets_keeps_well_placed_witness :
  exists packets',
    updatePackets 16
      (mkPacketArray
         [ Packet.mk 3 4 [Node.mk 0 0 None; Node.mk 3 4 None] 1 0;
           Packet.mk 0 0 [Node.mk 0 0 None; Node.mk 3 4 None] 0 1 ] None)
    = Ok packets'
    /\ Forall wellPlaced (items packets').
Proof.
  apply (updatePackets_keeps_well_placed 16
           (mkPacketArray
              [ Packet.mk 3 4 [Node.mk 0 0 None; Node.mk 3 4 None] 1 0;
                Packet.mk 0 0 [Node.mk 0 0 None; Node.mk 3 4 None] 0 1 ] None)).
  - lra.
  - cbn [items]. repeat constructor; cbn [Packet.distanceTraveled]; lra.
Defined.

(** With the clock 16 ms back, a packet half a unit along a segment of
    length five is put one unit behind the start node. *)
Example updatePacket_backwards :
  updatePacket (-16) (Packet.mk 0 0 [Node.mk 0 0 None; Node.mk 3 4 None] 0 0.5)
  = Ok (true,
        Packet.mk (0 + (3 - 0) * (-1 / 5)) (0 + (4 - 0) * (-1 / 5))
          [Node.mk 0 0 None; Node.mk 3 4 None] 0 (-1)).
Proof.
  assert (Hlen : segmentLength (Node.mk 0 0 None) (Node.mk 3 4 None) = 5).
  { unfold segmentLength; simpl Node.x; simpl Node.y.
    apply sqrt_lem_1; lra. }
  unfold updatePacket; simpl.
  rewrite Hlen. unfold packetSpeed.
  replace (0.5 + 1.5 * (-16 / 16)) with (-1) by lra.
  rewrite (proj2 (Rgeb_false (-1) 5)) by lra.
  rewrite checkedDiv_ok by lra. reflexivity.
Qed.

(** X2. A packet that [updatePackets] keeps on its segment is placed on the
    line through the ends of the segment: its new distance is below the
    length of the segment, its position is at the absolute value of that
    distance from the start node and at the length less the distance from
    the end node.  So with a distance that is not negative it lies on the
    segment, at its travelled distance from the start; with a negative one
    (a negative elapsed time) it lies behind the start node. *)
Theorem interpolated_position_on_segment (deltaTime : R) (p q : Packet.t) :
  updatePacket deltaTime p = Ok (true, q) ->
  Packet.currentSegment q = Packet.currentSegment p ->
  exists startNode endNode,
    nth_error (Packet.path p) (Packet.currentSegment p) = Some startNode
    /\ nth_error (Packet.path p) (Packet.currentSegment p + 1) = Some endNode
    /\ Packet.distanceTraveled q
       = Packet.distanceTraveled p + packetSpeed * (deltaTime / 16)
    /\ Packet.distanceTraveled q < segmentLength startNode endNode
    /\ sqrt ((Packet.x q - Node.x startNode) ^ 2
             + (Packet.y q - Node.y startNode) ^ 2)
       = Rabs (Packet.distanceTraveled q)
    /\ sqrt ((Node.x endNode - Packet.x q) ^ 2
             + (Node.y endNode - Packet.y q) ^ 2)
       = segmentLength startNode endNode - Packet.distanceTraveled q
    /\ (0 <= Packet.distanceTraveled q ->
        sqrt ((Packet.x q - Node.x startNode) ^ 2
              + (Packet.y q - Node.y startNode) ^ 2)
        = Packet.distanceTraveled q)
    /\ (Packet.distanceTraveled q < 0 ->
        sqrt ((Node.x endNode - Packet.x q) ^ 2
              + (Node.y endNode - Packet.y q) ^ 2)
        > segmentLength startNode endNode).
Proof.
  intros Hu Hseg.
  destruct (updatePacket_cases deltaTime p)
    as [[_ Hu'] | (s & e & Hend & Ns & Ne
                   & [(_ & _ & Hu') | [(_ & _ & Hu') | (Hl & Hu')]])];
    rewrite Hu' in Hu; try discriminate.
  - injection Hu as <-. cbn [Packet.currentSegment] in Hseg. lia.
  - assert (Hne : segmentLength s e <> 0).
    { intros Hz. rewrite Hz in Hu. unfold checkedDiv in Hu.
      destruct (Req_dec_T 0 0) as [_ | Hne]; [discriminate Hu | contradiction]. }
    rewrite (checkedDiv_ok _ _ Hne) in Hu. cbn [rbind] in Hu.
    injection Hu as <-. exists s, e.
    split; [exact Ns |]. split; [exact Ne |].
    cbn [Packet.x Packet.y Packet.distanceTraveled].
    split; [reflexivity |]. split; [exact Hl |].
    pose proof (segmentLength_nonneg s e) as Hnn.
    set (d := advancedDistance deltaTime p) in *.
    set (len := segmentLength s e) in *.
    assert (Hsq : (Node.x e - Node.x s) ^ 2 + (Node.y e - Node.y s) ^ 2
                  = len * len).
    { symmetry. apply sqrt_sqrt.
      apply Rplus_le_le_0_compat; apply pow2_ge_0. }
    assert (Hlen : 0 < len) by lra.
    assert (Hstart : sqrt ((Node.x s + (Node.x e - Node.x s) * (d / len)
                            - Node.x s) ^ 2
                           + (Node.y s + (Node.y e - Node.y s) * (d / len)
                              - Node.y s) ^ 2)
                     = Rabs d).
    { apply sqrt_lem_1;
        [apply Rplus_le_le_0_compat; apply pow2_ge_0 | apply Rabs_pos |].
      transitivity (d * d);
        [unfold Rabs; destruct (Rcase_abs d); ring |].
      transitivity ((d / len) ^ 2 * (len * len)); [field; lra |].
      rewrite <- Hsq. ring. }
    assert (Hfinish : sqrt ((Node.x e
                             - (Node.x s + (Node.x e - Node.x s) * (d / len))) ^ 2
                            + (Node.y e
                               - (Node.y s + (Node.y e - Node.y s) * (d / len))) ^ 2)
                      = len - d).
    { apply sqrt_lem_1;
        [apply Rplus_le_le_0_compat; apply pow2_ge_0 | lra |].
      transitivity ((1 - d / len) ^ 2 * (len * len)); [field; lra |].
      rewrite <- Hsq. ring. }
    split; [exact Hstart |]. split; [exact Hfinish |]. split.
    + intros Hd. rewrite Hstart. apply Rabs_pos_eq. exact Hd.
    + intros Hd. rewrite Hfinish. lra.
Qed.

(** A packet one unit along a segment of length five moves to the middle
    of it in a frame of 16 ms; with the clock 16 ms back, a packet half a
    unit along it lands one unit behind the start node. *)
Lemma interpolated_position_on_segment_witness :
  (exists startNode endNode,
      nth_error [Node.mk 0 0 None; Node.mk 3 4 None] 0 = Some startNode
      /\ nth_error [Node.mk 0 0 None; Node.mk 3 4 None] (0 + 1) = Some endNode
      /\ 2.5 = 1 + packetSpeed * (16 / 16)
      /\ 2.5 < segmentLength startNode endNode
      /\ sqrt ((0 + (3 - 0) * (2.5 / 5) - Node.x startNode) ^ 2
               + (0 + (4 - 0) * (2.5 / 5) - Node.y startNode) ^ 2)
         = Rabs 2.5
      /\ sqrt ((Node.x endNode - (0 + (3 - 0) * (2.5 / 5))) ^ 2
               + (Node.y endNode - (0 + (4 - 0) * (2.5 / 5))) ^ 2)
         = segmentLength startNode endNode - 2.5
      /\ (0 <= 2.5 ->
          sqrt ((0 + (3 - 0) * (2.5 / 5) - Node.x startNode) ^ 2
                + (0 + (4 - 0) * (2.5 / 5) - Node.y startNode) ^ 2)
          = 2.5)
      /\ (2.5 < 0 ->
          sqrt ((Node.x endNode - (0 + (3 - 0) * (2.5 / 5))) ^ 2
                + (Node.y endNode - (0 + (4 - 0) * (2.5 / 5))) ^ 2)
          > segmentLength startNode endNode))
  /\ (exists startNode endNode,
         nth_error [Node.mk 0 0 None; Node.mk 3 4 None] 0 = Some startNode
         /\ nth_error [Node.mk 0 0 None; Node.mk 3 4 None] (0 + 1) = Some endNode
         /\ -1 = 0.5 + packetSpeed * (-16 / 16)
         /\ -1 < segmentLength startNode endNode
         /\ sqrt ((0 + (3 - 0) * (-1 / 5) - Node.x startNode) ^ 2
                  + (0 + (4 - 0) * (-1 / 5) - Node.y startNode) ^ 2)
            = Rabs (-1)
         /\ sqrt ((Node.x endNode - (0 + (3 - 0) * (-1 / 5))) ^ 2
                  + (Node.y endNode - (0 + (4 - 0) * (-1 / 5))) ^ 2)
            = segmentLength startNode endNode - -1
         /\ (0 <= -1 ->
             sqrt ((0 + (3 - 0) * (-1 / 5) - Node.x startNode) ^ 2
                   + (0 + (4 - 0) * (-1 / 5) - Node.y startNode) ^ 2)
             = -1)
         /\ (-1 < 0 ->
             sqrt ((Node.x endNode - (0 + (3 - 0) * (-1 / 5))) ^ 2
                   + (Node.y endNode - (0 + (4 - 0) * (-1 / 5))) ^ 2)
             > segmentLength startNode endNode)).
Proof.
  split.
  - apply (interpolated_position_on_segment 16
             (Packet.mk 0 0 [Node.mk 0 0 None; Node.mk 3 4 None] 0 1)
             (Packet.mk (0 + (3 - 0) * (2.5 / 5)) (0 + (4 - 0) * (2.5 / 5))
                [Node.mk 0 0 None; Node.mk 3 4 None] 0 2.5)).
    + apply updatePacket_interpolates.
    + reflexivity.
  - apply (interpolated_position_on_segment (-16)
             (Packet.mk 0 0 [Node.mk 0 0 None; Node.mk 3 4 None] 0 0.5)
             (Packet.mk (0 + (3 - 0) * (-1 / 5)) (0 + (4 - 0) * (-1 / 5))
                [Node.mk 0 0 None; Node.mk 3 4 None] 0 (-1))).
    + apply updatePacket_backwards.
    + reflexivity.
Defined.

Lemma updatePackets_single (deltaTime : R) (p : Packet.t) (keep : bool)
  (q : Packet.t) (last : option R) :
  updatePacket deltaTime p = Ok (keep, q) ->
  updatePackets deltaTime (mkPacketArray [p] last)
  = Ok (mkPacketArray (if keep then [q] else []) None).
Proof.
  intros Hq. unfold updatePackets; cbn [items rmapM]. rewrite Hq.
  cbn [rbind]. unfold keptPackets. destruct keep; reflexivity.
Qed.

(** A packet on a two-point path, [d] along it, position aside. *)
Lemma updatePacket_two_points (deltaTime x y : R) (a b : Node.t) (d : R) :
  0 <= deltaTime -> 0 <= d ->
  let d' := d + packetSpeed * (deltaTime / 16) in
  (d' < segmentLength a b ->
   exists x' y',
     updatePacket deltaTime (Packet.mk x y [a; b] 0 d)
     = Ok (true, Packet.mk x' y' [a; b] 0 d'))
  /\ (segmentLength a b <= d' ->
      exists q, updatePacket deltaTime (Packet.mk x y [a; b] 0 d) = Ok (false, q)).
Proof.
  intros Hdt Hd d'.
  assert (Hstep : 0 <= packetSpeed * (deltaTime / 16)).
  { unfold packetSpeed. assert (0 <= deltaTime / 16) by lra. nra. }
  destruct (updatePacket_cases deltaTime (Packet.mk x y [a; b] 0 d))
    as [[Hend _] | (s & e & _ & Ns & Ne & Hcases)].
  { discriminate Hend. }
  cbn [Packet.path Packet.currentSegment nth_error Nat.add] in Ns, Ne.
  injection Ns as <-. injection Ne as <-.
  unfold advancedDistance in Hcases.
  cbn [Packet.path Packet.currentSegment Packet.distanceTraveled Packet.x Packet.y]
    in Hcases.
  fold d' in Hcases.
  destruct Hcases as [(Hge & _ & Hu) | [(_ & Hlen & _) | (Hl & Hu)]].
  - split; [intros; lra | intros _; eexists; exact Hu].
  - simpl in Hlen; lia.
  - split; [intros _ | intros; lra].
    rewrite checkedDiv_ok in Hu by (subst d'; lra). cbn [rbind] in Hu.
    eexists _, _; exact Hu.
Qed.

Lemma updateFrames_in_flight (deltaTime : R) (a b : Node.t) (n : nat) :
  0 <= deltaTime ->
  forall (x y d : R) (last : option R),
    0 <= d ->
    d + INR n * (packetSpeed * (deltaTime / 16)) < segmentLength a b ->
    exists x' y',
      updateFrames n deltaTime (mkPacketArray [Packet.mk x y [a; b] 0 d] last)
      = Ok (mkPacketArray
              [Packet.mk x' y' [a; b] 0
                 (d + INR n * (packetSpeed * (deltaTime / 16)))]
              (match n with O => last | S _ => None end)).
Proof.
  intros Hdt.
  assert (Hstep : 0 <= packetSpeed * (deltaTime / 16)).
  { unfold packetSpeed. assert (0 <= deltaTime / 16) by lra. nra. }
  induction n as [| n IH]; intros x y d last Hd Hlt.
  - exists x, y. cbn [updateFrames INR].
    replace (d + 0 * (packetSpeed * (deltaTime / 16))) with d by ring.
    reflexivity.
  - rewrite S_INR in Hlt |- *.
    assert (Hn : 0 <= INR n) by apply pos_INR.
    destruct (updatePacket_two_points deltaTime x y a b d Hdt Hd) as [Hkeep _].
    destruct Hkeep as (x1 & y1 & Hu); [nra |].
    cbn [updateFrames]. rewrite (updatePackets_single _ _ _ _ _ Hu). cbn [rbind].
    destruct (IH x1 y1 (d + packetSpeed * (deltaTime / 16)) None)
      as (x' & y' & Hrun); [lra | lra |].
    exists x', y'. rewrite Hrun.
    replace (d + (INR n + 1) * (packetSpeed * (deltaTime / 16)))
      with (d + packetSpeed * (deltaTime / 16)
            + INR n * (packetSpeed * (deltaTime / 16))) by ring.
    destruct n; reflexivity.
Qed.

Lemma updateFrames_arrival (deltaTime : R) (a b : Node.t) (n : nat) :
  0 <= deltaTime ->
  forall (x y d : R) (last : option R),
    0 <= d ->
    d + INR n * (packetSpeed * (deltaTime / 16)) < segmentLength a b ->
    segmentLength a b <= d + INR (S n) * (packetSpeed * (deltaTime / 16)) ->
    updateFrames (S n) deltaTime (mkPacketArray [Packet.mk x y [a; b] 0 d] last)
    = Ok (mkPacketArray [] None).
Proof.
  intros Hdt.
  assert (Hstep : 0 <= packetSpeed * (deltaTime / 16)).
  { unfold packetSpeed. assert (0 <= deltaTime / 16) by lra. nra. }
  induction n as [| n IH]; intros x y d last Hd Hlt Hge.
  - cbn [INR] in Hlt, Hge.
    destruct (updatePacket_two_points deltaTime x y a b d Hdt Hd) as [_ Hdrop].
    destruct Hdrop as (q & Hu); [lra |].
    cbn [updateFrames]. rewrite (updatePackets_single _ _ _ _ _ Hu). reflexivity.
  - rewrite S_INR in Hlt. rewrite (S_INR (S n)) in Hge.
    assert (Hn : 0 <= INR n) by apply pos_INR.
    destruct (updatePacket_two_points deltaTime x y a b d Hdt Hd) as [Hkeep _].
    destruct Hkeep as (x1 & y1 & Hu); [nra |].
    change (updateFrames (S (S n)) deltaTime ?pk)
      with (let? packets' := updatePackets deltaTime pk in
            updateFrames (S n) deltaTime packets').
    rewrite (updatePackets_single _ _ _ _ _ Hu). cbn [rbind].
    apply IH; lra.
Qed.

(** X3. The life of a packet on a two-point path, in frames of equal
    length: a packet created at the start of the path is still in the
    array, [n] steps of [packetSpeed * (deltaTime / 16)] along it, after
    [n] frames as long as that distance is below the length of the path,
    and it is removed by the first frame that brings the distance up to the
    length. *)
Theorem packet_lifetime (a b : Node.t) (deltaTime : R) (n : nat) (p : Packet.t) :
  0 < deltaTime ->
  createPacket [a; b] = Ok (Some p) ->
  INR n * (packetSpeed * (deltaTime / 16)) < segmentLength a b ->
  (exists q,
      updateFrames n deltaTime (mkPacketArray [p] None)
      = Ok (mkPacketArray [q] None)
      /\ Packet.path q = [a; b]
      /\ Packet.currentSegment q = 0%nat
      /\ Packet.distanceTraveled q = INR n * (packetSpeed * (deltaTime / 16)))
  /\ (segmentLength a b <= INR (S n) * (packetSpeed * (deltaTime / 16)) ->
      updateFrames (S n) deltaTime (mkPacketArray [p] None)
      = Ok (mkPacketArray [] None)).
Proof.
  intros Hdt Hp Hlt. rewrite createPacket_two in Hp. injection Hp as <-.
  split.
  - destruct (updateFrames_in_flight deltaTime a b n (Rlt_le _ _ Hdt)
                (Node.x a) (Node.y a) 0 None) as (x' & y' & Hrun); [lra | lra |].
    eexists; split.
    + rewrite Hrun. destruct n; reflexivity.
    + cbn [Packet.path Packet.currentSegment Packet.distanceTraveled].
      repeat split. ring.
  - intros Hge.
    apply (updateFrames_arrival deltaTime a b n (Rlt_le _ _ Hdt)); lra.
Qed.

Lemma packet_lifetime_witness :
  (exists q,
      updateFrames 3 16
        (mkPacketArray
           [Packet.mk 0 0 [Node.mk 0 0 None; Node.mk 3 4 None] 0 0] None)
      = Ok (mkPacketArray [q] None)
      /\ Packet.path q = [Node.mk 0 0 None; Node.mk 3 4 None]
      /\ Packet.currentSegment q = 0%nat
      /\ Packet.distanceTraveled q = INR 3 * (packetSpeed * (16 / 16)))
  /\ (segmentLength (Node.mk 0 0 None) (Node.mk 3 4 None)
      <= INR 4 * (packetSpeed * (16 / 16)) ->
      updateFrames 4 16
        (mkPacketArray
           [Packet.mk 0 0 [Node.mk 0 0 None; Node.mk 3 4 None] 0 0] None)
      = Ok (mkPacketArray [] None)).
Proof.
  apply (packet_lifetime (Node.mk 0 0 None) (Node.mk 3 4 None) 16 3
           (Packet.mk 0 0 [Node.mk 0 0 None; Node.mk 3 4 None] 0 0)).
  - lra.
  - reflexivity.
  - rewrite segment_3_4_5. unfold packetSpeed. simpl INR. lra.
Defined.

(** * Further properties of the layouts *)

(** ** [connectAll] in closed form *)

Lemma skipn_nth_error {A : Type} (l : list A) (n : nat) (a : A) :
  nth_error l n = Some a -> skipn n l = a :: skipn (S n) l.
Proof.
  revert n; induction l as [| b l IH]; intros [| n] H; try discriminate.
  - injection H as ->. reflexivity.
  - simpl in H |- *. apply IH; exact H.
Qed.

Lemma connect_inner (devices : list Node.t) (cColor : string) (i : nat)
  (di : Node.t) :
  nth_error devices i = Some di ->
  forall (k start : nat) (paths : list Path) (w : World),
    (start + k = length devices)%nat ->
    forEachM (fun j paths =>
                let* di := liftR (index devices i) in
                let* dj := liftR (index devices j) in
                drawConnection (Node.x di) (Node.y di) (Node.x dj) (Node.y dj)
                  cColor ;;
                ret (paths ++ [[di; dj]] ++ [[dj; di]]))
             (seq start k) paths w
    = Ok (paths ++ flat_map (fun e => [[di; e]; [e; di]]) (skipn start devices),
          mkWorld
            (canvasOps w
             ++ map (fun e => DrawConnection (Node.x di) (Node.y di)
                                (Node.x e) (Node.y e) cColor)
                    (skipn start devices))
            (mathRandom w)).
Proof.
  intros Hi. induction k as [| k IH]; intros start paths w Hlen.
  - rewrite skipn_all2 by lia. cbn [seq forEachM flat_map map].
    rewrite !app_nil_r. destruct w; reflexivity.
  - destruct (index_in_range devices start) as (e & He & Ne); [lia |].
    rewrite (skipn_nth_error _ _ _ Ne). cbn [seq forEachM].
    rewrite (bind_run _ _ w
               (paths ++ [[di; e]] ++ [[e; di]])
               (mkWorld (canvasOps w
                         ++ [DrawConnection (Node.x di) (Node.y di)
                               (Node.x e) (Node.y e) cColor])
                        (mathRandom w))).
    + rewrite IH by lia. cbn [canvasOps mathRandom flat_map map app].
      rewrite <- !app_assoc. reflexivity.
    + unfold bind, liftR, drawConnection, emit, ret.
      rewrite (proj2 (index_Ok devices i di) Hi), He. reflexivity.
Qed.

Lemma connect_outer (devices : list Node.t) (cColor : string) :
  forall (k start : nat) (paths : list Path) (w : World),
    (start + k = length devices)%nat ->
    forEachM (fun i paths =>
                forRange (i + 1) (length devices) (fun j paths =>
                  let* di := liftR (index devices i) in
                  let* dj := liftR (index devices j) in
                  drawConnection (Node.x di) (Node.y di) (Node.x dj) (Node.y dj)
                    cColor ;;
                  ret (paths ++ [[di; dj]] ++ [[dj; di]])) paths)
             (seq start k) paths w
    = Ok (paths ++ pairPaths (skipn start devices),
          mkWorld (canvasOps w ++ pairConnections (skipn start devices) cColor)
                  (mathRandom w)).
Proof.
  induction k as [| k IH]; intros start paths w Hlen.
  - rewrite skipn_all2 by lia. cbn [seq forEachM pairPaths pairConnections].
    rewrite !app_nil_r. destruct w; reflexivity.
  - destruct (index_in_range devices start) as (d & _ & Nd); [lia |].
    rewrite (skipn_nth_error _ _ _ Nd). cbn [seq forEachM pairPaths pairConnections].
    erewrite bind_run.
    2:{ unfold forRange.
        apply (connect_inner devices cColor start d Nd
                 (length devices - (start + 1)) (start + 1)). lia. }
    rewrite IH by lia. cbn [canvasOps mathRandom].
    replace (start + 1)%nat with (S start) by lia.
    rewrite <- !app_assoc. reflexivity.
Qed.

Lemma connectAll_run (devices : list Node.t) (cColor : string)
  (paths : list Path) (w : World) :
  connectAll devices cColor paths w
  = Ok (paths ++ pairPaths devices,
        mkWorld (canvasOps w ++ pairConnections devices cColor) (mathRandom w)).
Proof.
  unfold connectAll, forRange.
  apply (connect_outer devices cColor (length devices - 0) 0 paths w). lia.
Qed.

Lemma pairPaths_length (devices : list Node.t) :
  length (pairPaths devices) = (length devices * (length devices - 1))%nat.
Proof.
  induction devices as [| d rest IH]; [reflexivity |].
  cbn [pairPaths]. unfold Path in *. rewrite length_app, IH.
  assert (Hf : length (flat_map (fun e => [[d; e]; [e; d]]) rest)
               = (2 * length rest)%nat).
  { clear; induction rest as [| e rest IH]; simpl; [reflexivity | lia]. }
  rewrite Hf. cbn [length]. destruct rest; cbn [length]; nia.
Qed.

Lemma pairPaths_complete (devices : list Node.t) :
  forall (i j : nat) (a b : Node.t),
    (i < j)%nat ->
    nth_error devices i = Some a -> nth_error devices j = Some b ->
    In [a; b] (pairPaths devices) /\ In [b; a] (pairPaths devices).
Proof.
  induction devices as [| d rest IH]; intros i j a b Hij Ha Hb.
  - destruct i; discriminate Ha.
  - destruct j as [| j]; [lia |]. cbn [pairPaths]. rewrite !in_app_iff.
    destruct i as [| i].
    + injection Ha as <-. simpl in Hb. apply nth_error_In in Hb.
      split; left; apply in_flat_map; exists b; simpl; auto.
    + simpl in Ha, Hb. destruct (IH i j a b) as [H1 H2]; auto; lia.
Qed.

Lemma pairPaths_sound (devices : list Node.t) (p : Path) :
  In p (pairPaths devices) ->
  exists (i j : nat) (a b : Node.t),
    i <> j /\ nth_error devices i = Some a /\ nth_error devices j = Some b
    /\ p = [a; b].
Proof.
  induction devices as [| d rest IH]; [intros [] |].
  cbn [pairPaths]. rewrite in_app_iff. intros [H | H].
  - apply in_flat_map in H as (e & He & Hp).
    apply In_nth_error in He as (j & Hj).
    destruct Hp as [<- | [<- | []]].
    + exists 0%nat, (S j), d, e. repeat split; auto.
    + exists (S j), 0%nat, e, d. repeat split; auto.
  - destruct (IH H) as (i & j & a & b & Hij & Ha & Hb & ->).
    exists (S i), (S j), a, b. repeat split; auto.
Qed.

(** ** The mesh and hybrid layouts in full *)

Lemma placementLoop_labels (n fuel : nat) (fx fy : R -> R) (lbl : nat -> string)
  (r : R) (w : World) (devices : list Node.t) (w' : World) :
  placementLoop n fuel fx fy lbl r w = Ok (devices, w') ->
  map Node.label devices = map (fun i => Some (lbl i)) (seq 0 n).
Proof.
  unfold placementLoop, forRange.
  replace (n - 0)%nat with n by lia. intros Hrun.
  pose (P := fun (k : nat) (devs : list Node.t) (_ : World) =>
               map Node.label devs = map (fun i => Some (lbl i)) (seq 0 k)).
  change (P n devices w'). rewrite <- (length_seq n 0) at 1.
  eapply (forEachM_invariant _ P _ [] w devices w'); [| reflexivity | exact Hrun].
  clear. intros k i devs v devs' v' Hk HP Hbody.
  apply bind_Ok in Hbody as ([x y] & v1 & _ & Hret).
  injection Hret as <- _. unfold P in *.
  rewrite map_app, HP, seq_S, map_app. cbn [map Node.label Nat.add].
  apply nth_error_split in Hk as (l1 & l2 & Hseq & Hl1).
  assert (Hi : i = k).
  { assert (Hn : nth_error (seq 0 n) k = Some i).
    { rewrite Hseq, nth_error_app2 by lia.
      replace (k - length l1)%nat with 0%nat by lia. reflexivity. }
    assert (Hkn : (k < n)%nat).
    { rewrite <- (length_seq n 0). apply nth_error_Some. rewrite Hn; discriminate. }
    rewrite nth_error_seq in Hn.
    destruct (k <? n)%nat eqn:E; [| apply Nat.ltb_ge in E; lia].
    injection Hn as <-. reflexivity. }
  subst i. reflexivity.
Qed.

Lemma drawnNodes_pairConnections (devices : list Node.t) (cColor : string) :
  drawnNodes (pairConnections devices cColor) = [].
Proof.
  induction devices as [| d rest IH]; [reflexivity |].
  cbn [pairConnections]. rewrite drawnNodes_app, IH, app_nil_r.
  clear IH. induction rest as [| e rest IH]; [reflexivity | exact IH].
Qed.

Lemma drawnPackets_app (ops ops' : list DrawOp) :
  drawnPackets (ops ++ ops') = drawnPackets ops ++ drawnPackets ops'.
Proof. unfold drawnPackets; apply flat_map_app. Qed.

Lemma drawnPackets_pairConnections (devices : list Node.t) (cColor : string) :
  drawnPackets (pairConnections devices cColor) = [].
Proof.
  induction devices as [| d rest IH]; [reflexivity |].
  cbn [pairConnections]. rewrite drawnPackets_app, IH, app_nil_r.
  clear IH. induction rest as [| e rest IH]; [reflexivity | exact IH].
Qed.

Lemma drawnPackets_devices (devices : list Node.t) (r : R) (color : string) :
  drawnPackets (map (fun d => DrawDevice (Node.x d) (Node.y d) r color
                                (Node.label d)) devices) = [].
Proof. induction devices as [| d rest IH]; [reflexivity | exact IH]. Qed.

Lemma drawMeshTopology_run (fuel : nat) (width height r : R)
  (dColor cColor tColor : string) (w : World) (paths : list Path) (w' : World) :
  drawMeshTopology fuel width height r dColor cColor tColor w = Ok (paths, w') ->
  exists devices w1,
    meshPlacement fuel width height r w = Ok (devices, w1)
    /\ paths = pairPaths devices
    /\ w' = mkWorld
              (canvasOps w1 ++ pairConnections devices cColor
               ++ map (fun d => DrawDevice (Node.x d) (Node.y d) r dColor
                                  (Node.label d)) devices)
              (mathRandom w1).
Proof.
  unfold drawMeshTopology. intros Hrun.
  apply bind_Ok in Hrun as (devices & w1 & Hplace & Hrun).
  apply bind_Ok in Hrun as (paths1 & w2 & Hconn & Hrun).
  rewrite connectAll_run in Hconn. apply Ok_pair_inv in Hconn as [<- <-].
  apply bind_Ok in Hrun as (u & w3 & Hdraw & Hrun).
  rewrite drawDevices_run in Hdraw. apply Ok_pair_inv in Hdraw as [_ <-].
  apply Ok_pair_inv in Hrun as [<- <-].
  exists devices, w1. split; [exact Hplace |]. split; [reflexivity |].
  cbn [canvasOps mathRandom]. rewrite <- app_assoc. reflexivity.
Qed.

(** X4. Whenever the mesh layout returns, it has drawn five nodes,
    labelled Device 1 to Device 5, and returned twenty directed paths: for
    every two of the nodes the path from the one to the other, and nothing
    else. *)
Theorem mesh_fully_connected (fuel : nat) (width height r : R)
  (rnd : nat -> R) (nodes : list Node.t) (paths : list Path) :
  generate Mesh fuel width height r rnd = Ok (nodes, paths) ->
  map Node.label nodes
  = [Some "Device 1"; Some "Device 2"; Some "Device 3"; Some "Device 4";
     Some "Device 5"]%string
  /\ length paths = 20%nat
  /\ (forall (i j : nat) (a b : Node.t),
         i <> j -> nth_error nodes i = Some a -> nth_error nodes j = Some b ->
         In [a; b] paths)
  /\ (forall p : Path,
         In p paths ->
         exists (i j : nat) (a b : Node.t),
           i <> j /\ nth_error nodes i = Some a /\ nth_error nodes j = Some b
           /\ p = [a; b]).
Proof.
  intros Hgen. apply generate_Ok in Hgen as (w' & Hdraw & ->).
  cbn [drawTopology] in Hdraw.
  apply drawMeshTopology_run in Hdraw as (devices & w1 & Hplace & -> & ->).
  pose proof (placementLoop_labels _ _ _ _ _ _ _ _ _ Hplace) as Hlabels.
  apply meshPlacement_Ok in Hplace as (Hlen & _ & Hops).
  cbn [canvasOps] in *. rewrite Hops. cbn [app].
  assert (Hnodes : drawnNodes
                     (pairConnections devices connectionColor
                      ++ map (fun d => DrawDevice (Node.x d) (Node.y d) r
                                         deviceColor (Node.label d)) devices)
                   = devices).
  { rewrite drawnNodes_app, drawnNodes_devices, drawnNodes_pairConnections.
    reflexivity. }
  rewrite Hnodes.
  split; [exact Hlabels |].
  split; [rewrite pairPaths_length, Hlen; reflexivity |].
  split.
  - intros i j a b Hij Ha Hb.
    destruct (Nat.lt_gt_cases i j) as [Hc _]. destruct (Hc Hij) as [Hlt | Hgt].
    + apply (pairPaths_complete devices i j a b Hlt Ha Hb).
    + apply (pairPaths_complete devices j i b a Hgt Hb Ha).
  - apply pairPaths_sound.
Qed.

Lemma mesh_fully_connected_witness :
  exists nodes paths,
    generate Mesh 2 400 300 15 exampleDraws = Ok (nodes, paths)
    /\ map Node.label nodes
       = [Some "Device 1"; Some "Device 2"; Some "Device 3"; Some "Device 4";
          Some "Device 5"]%string
    /\ length paths = 20%nat
    /\ (forall (i j : nat) (a b : Node.t),
           i <> j -> nth_error nodes i = Some a -> nth_error nodes j = Some b ->
           In [a; b] paths)
    /\ (forall p : Path,
           In p paths ->
           exists (i j : nat) (a b : Node.t),
             i <> j /\ nth_error nodes i = Some a /\ nth_error nodes j = Some b
             /\ p = [a; b]).
Proof.
  destruct generate_Mesh_example as (nodes & paths & Hgen & _).
  exists nodes, paths. split; [exact Hgen |].
  apply (mesh_fully_connected 2 400 300 15 exampleDraws nodes paths Hgen).
Defined.

Lemma Ok_inv {A : Type} (a b : A) : Ok a = Ok b -> a = b.
Proof. intros H; injection H; auto. Qed.

Lemma circle_x_bound (cx rho theta : R) :
  cx + rho * cos theta <= cx + Rabs rho.
Proof.
  assert (H : rho * cos theta <= Rabs rho).
  { eapply Rle_trans; [apply Rle_abs |]. rewrite Rabs_mult.
    pose proof (Rabs_pos rho).
    assert (Rabs (cos theta) <= 1)
      by (apply Rabs_le; pose proof (COS_bound theta); lra).
    nra. }
  lra.
Qed.

Lemma drawHybridTopology_run (fuel : nat) (width height r : R)
  (dColor cColor tColor : string) (rnd : nat -> R) (paths : list Path)
  (w' : World) :
  drawHybridTopology fuel width height r dColor cColor tColor (mkWorld [] rnd)
  = Ok (paths, w') ->
  exists (hub s0 s1 s2 m0 m1 m2 : Node.t) (starOps : list DrawOp) (w1 : World),
    hub = Node.mk (width * 0.25) (height / 2) (Some "Star Hub"%string)
    /\ Forall (fun s => (Node.x s - Node.x hub) ^ 2 + (Node.y s - Node.y hub) ^ 2
                        = (width * 0.1) ^ 2
                        /\ Node.x s <= Node.x hub + Rabs (width * 0.1))
              [s0; s1; s2]
    /\ map Node.label [s0; s1; s2]
       = [Some "S-Dev 1"; Some "S-Dev 2"; Some "S-Dev 3"]%string
    /\ drawnNodes starOps = [hub; s0; s1; s2]
    /\ hybridMeshPlacement fuel width height r (mkWorld starOps rnd)
       = Ok ([m0; m1; m2], w1)
    /\ drawnNodes (canvasOps w') = [hub; s0; s1; s2; m0; m1; m2]
    /\ paths = [[hub; s0]; [s0; hub]; [hub; s1]; [s1; hub]; [hub; s2]; [s2; hub]]
               ++ pairPaths [m0; m1; m2] ++ [[hub; m0]; [m0; hub]]
    /\ drawnPackets (canvasOps w') = []
    /\ mathRandom w' = mathRandom w1.
Proof.
  intros Hrun. unfold drawHybridTopology in Hrun.
  apply bind_Ok in Hrun as (u0 & w0 & Hhub & Hrun).
  apply emit_Ok in Hhub as ->.
  apply bind_Ok in Hrun as ([starDevices paths0] & w1 & Hstar & Hrun).
  cbn [forRange forEachM seq Nat.sub Nat.add bind ret rbind
       emit drawDevice drawConnection canvasOps mathRandom app
       Node.x Node.y Node.label] in Hstar.
  apply Ok_inv in Hstar. apply pair_equal_spec in Hstar as [Hsp <-].
  apply pair_equal_spec in Hsp as [<- <-].
  apply bind_Ok in Hrun as (meshDevices & w2 & Hplace & Hrun).
  pose proof (hybridMeshPlacement_Ok _ _ _ _ _ _ _ Hplace) as (HlenM & _ & Hops2).
  destruct meshDevices as [| m0 [| m1 [| m2 [| ? ?]]]]; try discriminate HlenM.
  cbn [canvasOps] in Hops2.
  apply bind_Ok in Hrun as (paths1 & w3 & Hconn & Hrun).
  rewrite connectAll_run in Hconn. apply Ok_pair_inv in Hconn as [<- <-].
  apply bind_Ok in Hrun as (u1 & w4 & Hdraw & Hrun).
  rewrite drawDevices_run in Hdraw. apply Ok_pair_inv in Hdraw as [_ <-].
  cbn [length Nat.ltb Nat.leb andb] in Hrun.
  cbn [bind liftR index nth_error rbind emit drawConnection ret canvasOps
       mathRandom Node.x Node.y] in Hrun.
  apply Ok_pair_inv in Hrun as [<- <-].
  eexists _, _, _, _, m0, m1, m2, _, w2.
  repeat match goal with |- _ /\ _ => split end.
  5: exact Hplace.
  4: reflexivity.
  - reflexivity.
  - repeat (constructor;
            [cbn [Node.x Node.y]; split;
             [apply on_circle | apply circle_x_bound] |]).
    constructor.
  - reflexivity.
  - cbn [canvasOps]. rewrite Hops2.
    rewrite !drawnNodes_app, drawnNodes_pairConnections, drawnNodes_devices.
    reflexivity.
  - reflexivity.
  - cbn [canvasOps]. rewrite Hops2.
    rewrite !drawnPackets_app, drawnPackets_pairConnections,
      drawnPackets_devices.
    reflexivity.
  - reflexivity.
Qed.

(** X5. Whenever the hybrid layout returns, it has drawn seven nodes: the
    star hub at [(0.25 * width, height / 2)], three star devices on the
    circle of radius [0.1 * width] around it, and three mesh devices.  It
    returns fourteen directed paths: hub to star device and back for each
    star device, the two directions of every pair of mesh devices, and one
    bridge, between the hub and the first mesh device, in both
    directions. *)
Theorem hybrid_layout (fuel : nat) (width height r : R) (rnd : nat -> R)
  (nodes : list Node.t) (paths : list Path) :
  generate Hybrid fuel width height r rnd = Ok (nodes, paths) ->
  exists hub s0 s1 s2 m0 m1 m2 : Node.t,
    nodes = [hub; s0; s1; s2; m0; m1; m2]
    /\ map Node.label nodes
       = [Some "Star Hub"; Some "S-Dev 1"; Some "S-Dev 2"; Some "S-Dev 3";
          Some "M-Dev 1"; Some "M-Dev 2"; Some "M-Dev 3"]%string
    /\ Node.x hub = width * 0.25 /\ Node.y hub = height / 2
    /\ (forall s, In s [s0; s1; s2] ->
                  (Node.x s - Node.x hub) ^ 2 + (Node.y s - Node.y hub) ^ 2
                  = (width * 0.1) ^ 2)
    /\ paths
       = [ [hub; s0]; [s0; hub]; [hub; s1]; [s1; hub]; [hub; s2]; [s2; hub];
           [m0; m1]; [m1; m0]; [m0; m2]; [m2; m0]; [m1; m2]; [m2; m1];
           [hub; m0]; [m0; hub] ]
    /\ length paths = 14%nat.
Proof.
  intros Hgen. apply generate_Ok in Hgen as (w' & Hdraw & ->).
  cbn [drawTopology] in Hdraw.
  apply drawHybridTopology_run in Hdraw
      as (hub & s0 & s1 & s2 & m0 & m1 & m2 & starOps & w1
          & Hhub & Hcircle & Hlabels & _ & Hplace & Hnodes & -> & _).
  exists hub, s0, s1, s2, m0, m1, m2.
  split; [exact Hnodes |].
  split.
  { rewrite Hnodes.
    pose proof (placementLoop_labels _ _ _ _ _ _ _ _ _ Hplace) as HlabelsM.
    cbn [map] in Hlabels, HlabelsM |- *. rewrite Hhub at 1. cbn [Node.label].
    injection Hlabels as -> -> ->. injection HlabelsM as -> -> ->.
    reflexivity. }
  split; [rewrite Hhub; reflexivity |]. split; [rewrite Hhub; reflexivity |].
  split.
  { rewrite Forall_forall in Hcircle. intros s Hs. apply (Hcircle s Hs). }
  split; reflexivity.
Qed.

Lemma hybrid_layout_witness :
  exists nodes paths,
    generate Hybrid 2 400 300 15 exampleDraws = Ok (nodes, paths)
    /\ exists hub s0 s1 s2 m0 m1 m2 : Node.t,
         nodes = [hub; s0; s1; s2; m0; m1; m2]
         /\ map Node.label nodes
            = [Some "Star Hub"; Some "S-Dev 1"; Some "S-Dev 2"; Some "S-Dev 3";
               Some "M-Dev 1"; Some "M-Dev 2"; Some "M-Dev 3"]%string
         /\ Node.x hub = 400 * 0.25 /\ Node.y hub = 300 / 2
         /\ (forall s, In s [s0; s1; s2] ->
                       (Node.x s - Node.x hub) ^ 2 + (Node.y s - Node.y hub) ^ 2
                       = (400 * 0.1) ^ 2)
         /\ paths
            = [ [hub; s0]; [s0; hub]; [hub; s1]; [s1; hub]; [hub; s2]; [s2; hub];
                [m0; m1]; [m1; m0]; [m0; m2]; [m2; m0]; [m1; m2]; [m2; m1];
                [hub; m0]; [m0; hub] ]
         /\ length paths = 14%nat.
Proof.
  destruct generate_Hybrid_example as (nodes & paths & Hgen & _).
  exists nodes, paths. split; [exact Hgen |].
  apply (hybrid_layout 2 400 300 15 exampleDraws nodes paths Hgen).
Defined.

(** ** Where the random placement puts the devices *)

Lemma placementLoop_in_box (n fuel : nat) (fx fy : R -> R) (lbl : nat -> string)
  (r : R) (PX PY : R -> Prop) (w : World) (devices : list Node.t) (w' : World) :
  (forall u, 0 <= u < 1 -> PX (fx u)) ->
  (forall v, 0 <= v < 1 -> PY (fy v)) ->
  drawsInRange w ->
  placementLoop n fuel fx fy lbl r w = Ok (devices, w') ->
  Forall (fun d => PX (Node.x d) /\ PY (Node.y d)) devices /\ drawsInRange w'.
Proof.
  intros HX HY Hw. unfold placementLoop, forRange. intros Hrun.
  pose (P := fun (_ : nat) (devs : list Node.t) (v : World) =>
               Forall (fun d => PX (Node.x d) /\ PY (Node.y d)) devs
               /\ drawsInRange v).
  change (P (length (seq 0 (n - 0))) devices w').
  eapply (forEachM_invariant _ P _ [] w devices w'); [| | exact Hrun].
  - clear Hrun devices w'. intros k i devs v devs' v' _ (Hall & Hv) Hbody.
    apply bind_Ok in Hbody as ([x y] & v1 & Hloop & Hret).
    apply Ok_pair_inv in Hret as [<- <-].
    apply (doWhile_Ok drawsInRange) in Hloop as (Hv1 & v0 & Hv0 & Hb);
      [| | exact Hv].
    + apply Ok_pair_inv in Hb as [Hval _].
      apply pair_equal_spec in Hval as [Hxy _].
      apply pair_equal_spec in Hxy as [<- <-].
      split; [| exact Hv1].
      apply Forall_app; split; [exact Hall |].
      constructor; [| constructor]. cbn [Node.x Node.y].
      split; [apply HX, (Hv0 0%nat) | apply HY, (Hv0 1%nat)].
    + intros u res u' Hu Hbd. apply Ok_pair_inv in Hbd as [_ <-].
      intros m. apply (Hu (S (S m))).
  - split; [constructor | exact Hw].
Qed.

(** X6. With a random source that keeps its contract, on a canvas at
    least [4 * r] wide and high, the mesh layout places every node inside
    the canvas padded by [2 * r] on each side. *)
Theorem mesh_nodes_inside_padding (fuel : nat) (width height r : R)
  (rnd : nat -> R) (nodes : list Node.t) (paths : list Path) :
  (forall n, 0 <= rnd n < 1) ->
  4 * r <= width -> 4 * r <= height ->
  generate Mesh fuel width height r rnd = Ok (nodes, paths) ->
  Forall (fun d => 2 * r <= Node.x d <= width - 2 * r
                   /\ 2 * r <= Node.y d <= height - 2 * r) nodes.
Proof.
  intros Hrnd Hw Hh Hgen. apply generate_Ok in Hgen as (w' & Hdraw & ->).
  cbn [drawTopology] in Hdraw.
  apply drawMeshTopology_run in Hdraw as (devices & w1 & Hplace & _ & ->).
  pose proof (meshPlacement_Ok _ _ _ _ _ _ _ Hplace) as (_ & _ & Hops).
  cbn [canvasOps] in *. rewrite Hops. cbn [app].
  rewrite drawnNodes_app, drawnNodes_pairConnections, drawnNodes_devices.
  cbn [app].
  apply (placementLoop_in_box 5 fuel _ _ _ r
           (fun x => 2 * r <= x <= width - 2 * r)
           (fun y => 2 * r <= y <= height - 2 * r)) in Hplace.
  - apply Hplace.
  - intros u Hu. nra.
  - intros v Hv. nra.
  - exact Hrnd.
Qed.

Lemma exampleDraws_in_range (n : nat) : 0 <= exampleDraws n < 1.
Proof.
  unfold exampleDraws.
  do 12 (destruct n as [| n]; [cbn [nth]; lra |]).
  destruct n; cbn [nth]; lra.
Qed.

Lemma mesh_nodes_inside_padding_witness :
  exists nodes paths,
    generate Mesh 2 400 300 15 exampleDraws = Ok (nodes, paths)
    /\ Forall (fun d => 2 * 15 <= Node.x d <= 400 - 2 * 15
                        /\ 2 * 15 <= Node.y d <= 300 - 2 * 15) nodes.
Proof.
  destruct generate_Mesh_example as (nodes & paths & Hgen & _).
  exists nodes, paths. split; [exact Hgen |].
  apply (mesh_nodes_inside_padding 2 400 300 15 exampleDraws nodes paths);
    [apply exampleDraws_in_range | lra | lra | exact Hgen].
Defined.

(** X7. With a random source that keeps its contract, the two clusters of
    the hybrid layout do not meet: the hub and the star devices lie at or
    left of [0.35 * width], and every mesh device lies in the rectangle
    from [0.6 * width] to [0.9 * width] and from [0.1 * height] to
    [0.9 * height]. *)
Theorem hybrid_clusters_apart (fuel : nat) (width height r : R)
  (rnd : nat -> R) (nodes : list Node.t) (paths : list Path) :
  (forall n, 0 <= rnd n < 1) ->
  0 <= width -> 0 <= height ->
  generate Hybrid fuel width height r rnd = Ok (nodes, paths) ->
  Forall (fun d => Node.x d <= 0.35 * width) (firstn 4 nodes)
  /\ Forall (fun d => 0.6 * width <= Node.x d <= 0.9 * width
                      /\ 0.1 * height <= Node.y d <= 0.9 * height)
            (skipn 4 nodes).
Proof.
  intros Hrnd Hw Hh Hgen. apply generate_Ok in Hgen as (w' & Hdraw & ->).
  cbn [drawTopology] in Hdraw.
  apply drawHybridTopology_run in Hdraw
      as (hub & s0 & s1 & s2 & m0 & m1 & m2 & starOps & w1
          & Hhub & Hcircle & _ & _ & Hplace & Hnodes & _).
  rewrite Hnodes. cbn [firstn skipn]. split.
  - assert (Habs : Rabs (width * 0.1) = width * 0.1)
      by (apply Rabs_right; lra).
    rewrite Habs in Hcircle.
    assert (Hx : Node.x hub = width * 0.25) by (rewrite Hhub; reflexivity).
    constructor; [lra |].
    eapply Forall_impl; [| exact Hcircle].
    intros s [_ Hs]. lra.
  - apply (placementLoop_in_box 3 fuel _ _ _ r
             (fun x => 0.6 * width <= x <= 0.9 * width)
             (fun y => 0.1 * height <= y <= 0.9 * height)) in Hplace.
    + apply Hplace.
    + intros u Hu. nra.
    + intros v Hv. nra.
    + exact Hrnd.
Qed.

Lemma hybrid_clusters_apart_witness :
  exists nodes paths,
    generate Hybrid 2 400 300 15 exampleDraws = Ok (nodes, paths)
    /\ Forall (fun d => Node.x d <= 0.35 * 400) (firstn 4 nodes)
    /\ Forall (fun d => 0.6 * 400 <= Node.x d <= 0.9 * 400
                        /\ 0.1 * 300 <= Node.y d <= 0.9 * 300)
              (skipn 4 nodes).
Proof.
  destruct generate_Hybrid_example as (nodes & paths & Hgen & _).
  exists nodes, paths. split; [exact Hgen |].
  apply (hybrid_clusters_apart 2 400 300 15 exampleDraws nodes paths);
    [apply exampleDraws_in_range | lra | lra | exact Hgen].
Defined.

(** ** A random source that repeats itself *)

Lemma bind_Diverge {A B : Type} (m : Draw A) (k : A -> Draw B) (w : World) :
  m w = Diverge -> bind m k w = Diverge.
Proof. intros H; unfold bind; rewrite H; reflexivity. Qed.

Lemma collides_same_place (x y r : R) (lbl : option string)
  (devices : list Node.t) :
  0 < r -> collides x y r (Node.mk x y lbl :: devices) = true.
Proof.
  intros Hr. unfold collides. cbn [existsb Node.x Node.y].
  rewrite Rltb_sqrt_near; [reflexivity | | | lra].
  - apply Rplus_le_le_0_compat; apply pow2_ge_0.
  - replace ((x - x) ^ 2 + (y - y) ^ 2) with 0 by ring. nra.
Qed.

Lemma doWhile_repeats (fx fy : R -> R) (r c : R) (ops : list DrawOp)
  (devices : list Node.t) :
  collides (fx c) (fy c) r devices = true ->
  forall fuel : nat,
    doWhile fuel
      (let* u := random in
       let x := fx u in
       let* v := random in
       let y := fy v in
       ret ((x, y), collides x y r devices))
      (mkWorld ops (constDraws c))
    = Diverge.
Proof.
  intros Hcol. induction fuel as [| fuel IH]; [reflexivity |].
  cbn [doWhile].
  rewrite (bind_run _ _ _ ((fx c, fy c), true) (mkWorld ops (constDraws c))).
  - exact IH.
  - unfold bind, random, ret, constDraws. cbn [rbind mathRandom canvasOps].
    rewrite Hcol. reflexivity.
Qed.

Lemma placementLoop_repeats (n fuel : nat) (fx fy : R -> R)
  (lbl : nat -> string) (r c : R) (ops : list DrawOp) :
  0 < r -> (2 <= n)%nat ->
  placementLoop n fuel fx fy lbl r (mkWorld ops (constDraws c)) = Diverge.
Proof.
  intros Hr Hn. destruct n as [| [| n]]; try lia.
  unfold placementLoop, forRange.
  replace (S (S n) - 0)%nat with (S (S n)) by lia. cbn [seq forEachM].
  destruct fuel as [| fuel].
  - apply bind_Diverge. apply bind_Diverge. reflexivity.
  - rewrite (bind_run _ _ _ [Node.mk (fx c) (fy c) (Some (lbl 0%nat))]
               (mkWorld ops (constDraws c))).
    + apply bind_Diverge. apply bind_Diverge.
      apply doWhile_repeats. apply collides_same_place; exact Hr.
    + rewrite (bind_run _ _ _ (fx c, fy c) (mkWorld ops (constDraws c)));
        [reflexivity |].
      cbn [doWhile].
      rewrite (bind_run _ _ _ ((fx c, fy c), false)
                 (mkWorld ops (constDraws c))); reflexivity.
Qed.

(** X8. The placement loops have no bound on their retries: when
    [Math.random()] returns the same value at every call and the device
    radius is positive, the second device collides with the first at every
    attempt, and neither the mesh layout nor the hybrid layout returns,
    however many iterations are allowed. *)
Theorem random_layout_livelock (k : TopologyKind) (fuel : nat)
  (width height r c : R) :
  0 < r ->
  k = Mesh \/ k = Hybrid ->
  generate k fuel width height r (constDraws c) = Diverge.
Proof.
  intros Hr [-> | ->]; unfold generate; cbn [drawTopology].
  - assert (H : drawMeshTopology fuel width height r deviceColor connectionColor
                  textColor (mkWorld [] (constDraws c)) = Diverge).
    { unfold drawMeshTopology, meshPlacement. apply bind_Diverge.
      apply (placementLoop_repeats 5 fuel
               (fun u => r * 2 + u * (width - 2 * (r * 2)))
               (fun v => r * 2 + v * (height - 2 * (r * 2)))
               (fun i => ("Device " ++ showNat (i + 1))%string) r c []);
        [exact Hr | lia]. }
    rewrite H. reflexivity.
  - assert (H : drawHybridTopology fuel width height r deviceColor
                  connectionColor textColor (mkWorld [] (constDraws c))
                = Diverge).
    { unfold drawHybridTopology.
      erewrite bind_run by reflexivity.
      erewrite bind_run by reflexivity.
      apply bind_Diverge.
      apply (placementLoop_repeats 3 fuel
               (fun u => width * 0.6 + u * (width * 0.3))
               (fun v => height * 0.1 + v * (height * 0.8))
               (fun i => ("M-Dev " ++ showNat (i + 1))%string) r c);
        [exact Hr | lia]. }
    rewrite H. reflexivity.
Qed.

Lemma random_layout_livelock_witness :
  generate Mesh 1000 400 300 15 (constDraws 0.5) = Diverge.
Proof.
  apply (random_layout_livelock Mesh 1000 400 300 15 0.5).
  - lra.
  - left; reflexivity.
Defined.

(** * Further properties of the animation driver *)

(** ** Outcomes of the layouts *)

Lemma forEachM_outcome {A St : Type} (body : A -> St -> Draw St) (l : list A) :
  (forall a s w, body a s w = Diverge \/ exists s' w', body a s w = Ok (s', w')) ->
  forall s w,
    forEachM body l s w = Diverge
    \/ exists s' w', forEachM body l s w = Ok (s', w').
Proof.
  intros Hbody. induction l as [| a l IH]; intros s w; cbn [forEachM].
  - right; eexists _, _; reflexivity.
  - destruct (Hbody a s w) as [Hd | (s1 & w1 & Hok)].
    + left. apply bind_Diverge; exact Hd.
    + rewrite (bind_run _ _ _ _ _ Hok). apply IH.
Qed.

Lemma sampler_outcome (fuel : nat) (fx fy : R -> R) (r : R)
  (devices : list Node.t) :
  forall w,
    doWhile fuel
      (let* u := random in
       let x := fx u in
       let* v := random in
       let y := fy v in
       ret ((x, y), collides x y r devices)) w = Diverge
    \/ exists a w',
         doWhile fuel
           (let* u := random in
            let x := fx u in
            let* v := random in
            let y := fy v in
            ret ((x, y), collides x y r devices)) w = Ok (a, w').
Proof.
  induction fuel as [| fuel IH]; intros w; [left; reflexivity |].
  cbn [doWhile].
  erewrite bind_run by reflexivity.
  destruct (collides _ _ r devices).
  - apply IH.
  - right; eexists _, _; reflexivity.
Qed.

Lemma placementLoop_outcome (n fuel : nat) (fx fy : R -> R)
  (lbl : nat -> string) (r : R) (w : World) :
  placementLoop n fuel fx fy lbl r w = Diverge
  \/ exists devices w', placementLoop n fuel fx fy lbl r w = Ok (devices, w').
Proof.
  unfold placementLoop, forRange. apply forEachM_outcome.
  intros i devices v.
  destruct (sampler_outcome fuel fx fy r devices v) as [Hd | ([x y] & v' & Hok)].
  - left. apply bind_Diverge; exact Hd.
  - right. rewrite (bind_run _ _ _ _ _ Hok). eexists _, _; reflexivity.
Qed.

Lemma star_layoutDone (width height r : R) (dColor cColor tColor : string)
  (rnd : nat -> R) :
  layoutDone rnd
    (drawStarTopology width height r dColor cColor tColor (mkWorld [] rnd)).
Proof.
  eexists _, _. split; [apply drawStarTopology_cleared |].
  split; [reflexivity | intros H; exact H].
Qed.

Lemma bus_layoutDone (width height r : R) (dColor cColor tColor : string)
  (rnd : nat -> R) :
  layoutDone rnd
    (drawBusTopology width height r dColor cColor tColor (mkWorld [] rnd)).
Proof.
  eexists _, _. split; [unfold drawBusTopology; eval_draw; reflexivity |].
  split; [reflexivity | intros H; exact H].
Qed.

Lemma tree_layoutDone (width height r : R) (dColor cColor tColor : string)
  (rnd : nat -> R) :
  layoutDone rnd
    (drawTreeTopology width height r dColor cColor tColor (mkWorld [] rnd)).
Proof.
  eexists _, _. split; [unfold drawTreeTopology; eval_draw; reflexivity |].
  split; [reflexivity | intros H; exact H].
Qed.

Lemma mesh_layoutDone (fuel : nat) (width height r : R)
  (dColor cColor tColor : string) (rnd : nat -> R) :
  drawMeshTopology fuel width height r dColor cColor tColor (mkWorld [] rnd)
  = Diverge
  \/ layoutDone rnd
       (drawMeshTopology fuel width height r dColor cColor tColor
          (mkWorld [] rnd)).
Proof.
  destruct (placementLoop_outcome 5 fuel
              (fun u => r * 2 + u * (width - 2 * (r * 2)))
              (fun v => r * 2 + v * (height - 2 * (r * 2)))
              (fun i => ("Device " ++ showNat (i + 1))%string) r
              (mkWorld [] rnd)) as [Hd | (devices & w1 & Hok)].
  - left. unfold drawMeshTopology. apply bind_Diverge. exact Hd.
  - right.
    assert (Hrun : drawMeshTopology fuel width height r dColor cColor tColor
                     (mkWorld [] rnd)
                   = Ok (pairPaths devices,
                         mkWorld
                           ((canvasOps w1 ++ pairConnections devices cColor)
                            ++ map (fun d => DrawDevice (Node.x d) (Node.y d) r
                                               dColor (Node.label d)) devices)
                           (mathRandom w1))).
    { unfold drawMeshTopology.
      rewrite (bind_run _ _ _ _ _ Hok).
      rewrite (bind_run _ _ _ _ _ (connectAll_run _ _ _ _)).
      rewrite (bind_run _ _ _ _ _ (drawDevices_run _ _ _ _)).
      reflexivity. }
    eexists _, _. split; [exact Hrun |].
    pose proof (placementLoop_Ok _ _ _ _ _ _ _ _ _ Hok) as (_ & _ & Hops).
    cbn [canvasOps] in *. rewrite Hops. split.
    + cbn [app]. rewrite drawnPackets_app, drawnPackets_pairConnections,
        drawnPackets_devices. reflexivity.
    + intros Hrnd.
      apply (placementLoop_in_box 5 fuel _ _ _ r (fun _ => True) (fun _ => True))
        in Hok as [_ Hw1]; auto.
Qed.

Lemma hybrid_layoutDone (fuel : nat) (width height r : R)
  (dColor cColor tColor : string) (rnd : nat -> R) :
  drawHybridTopology fuel width height r dColor cColor tColor (mkWorld [] rnd)
  = Diverge
  \/ layoutDone rnd
       (drawHybridTopology fuel width height r dColor cColor tColor
          (mkWorld [] rnd)).
Proof.
  assert (Hprefix :
            exists starOps k,
              drawHybridTopology fuel width height r dColor cColor tColor
                (mkWorld [] rnd)
              = bind (hybridMeshPlacement fuel width height r) k
                  (mkWorld starOps rnd)
              /\ forall meshDevices w1,
                   length meshDevices = 3%nat ->
                   exists paths ops,
                     k meshDevices w1
                     = Ok (paths, mkWorld (canvasOps w1 ++ ops) (mathRandom w1))).
  { eexists _, _. split.
    - unfold drawHybridTopology.
      erewrite bind_run by reflexivity.
      erewrite bind_run by reflexivity.
      reflexivity.
    - intros meshDevices w1 Hlen.
      destruct meshDevices as [| m0 [| m1 [| m2 [| ? ?]]]]; try discriminate Hlen.
      cbv beta.
      rewrite (bind_run _ _ _ _ _ (connectAll_run _ _ _ _)).
      rewrite (bind_run _ _ _ _ _ (drawDevices_run _ _ _ _)).
      cbn [app length Nat.ltb Nat.leb andb].
      cbn [bind liftR index nth_error rbind emit drawConnection ret canvasOps
           mathRandom Node.x Node.y].
      eexists _, _. rewrite <- !app_assoc. reflexivity. }
  destruct Hprefix as (starOps & k & Heq & Hk).
  destruct (placementLoop_outcome 3 fuel
              (fun u => width * 0.6 + u * (width * 0.3))
              (fun v => height * 0.1 + v * (height * 0.8))
              (fun i => ("M-Dev " ++ showNat (i + 1))%string) r
              (mkWorld starOps rnd)) as [Hd | (devices & w1 & Hok)].
  - left. rewrite Heq. apply bind_Diverge. exact Hd.
  - right.
    pose proof (placementLoop_Ok _ _ _ _ _ _ _ _ _ Hok) as (Hlen & _ & _).
    destruct (Hk devices w1 Hlen) as (paths & ops & Hrest).
    assert (Hrun : drawHybridTopology fuel width height r dColor cColor tColor
                     (mkWorld [] rnd)
                   = Ok (paths, mkWorld (canvasOps w1 ++ ops) (mathRandom w1))).
    { rewrite Heq. unfold hybridMeshPlacement.
      rewrite (bind_run _ _ _ _ _ Hok). exact Hrest. }
    eexists _, _. split; [exact Hrun |].
    pose proof (drawHybridTopology_run _ _ _ _ _ _ _ _ _ _ Hrun)
      as (hub & s0 & s1 & s2 & m0 & m1 & m2 & so & w1'
          & _ & _ & _ & _ & Hplace & _ & _ & Hnone & _).
    split; [exact Hnone |].
    intros Hrnd. cbn [drawsInRange mathRandom].
    apply (placementLoop_in_box 3 fuel _ _ _ r (fun _ => True) (fun _ => True))
      in Hok as [_ Hw1]; auto.
Qed.

Lemma layout_outcome (selectedTopology : string) (fuel : nat)
  (width height : R) (rnd : nat -> R) :
  (drawSelectedTopology selectedTopology fuel width height (mkWorld [] rnd)
   = Diverge
   /\ (selectedTopology = "mesh"%string \/ selectedTopology = "hybrid"%string))
  \/ layoutDone rnd
       (drawSelectedTopology selectedTopology fuel width height
          (mkWorld [] rnd)).
Proof.
  unfold drawSelectedTopology.
  destruct (String.eqb_spec selectedTopology "star"); [right; apply star_layoutDone |].
  destruct (String.eqb_spec selectedTopology "mesh").
  { destruct (mesh_layoutDone fuel width height deviceRadius deviceColor
                connectionColor textColor rnd) as [Hd | Hok]; auto. }
  destruct (String.eqb_spec selectedTopology "bus"); [right; apply bus_layoutDone |].
  destruct (String.eqb_spec selectedTopology "tree"); [right; apply tree_layoutDone |].
  destruct (String.eqb_spec selectedTopology "hybrid").
  { destruct (hybrid_layoutDone fuel width height deviceRadius deviceColor
                connectionColor textColor rnd) as [Hd | Hok]; auto. }
  right; apply star_layoutDone.
Qed.

(** ** The spawn step *)

Lemma createPacket_total (path : Path) :
  exists o,
    createPacket path = Ok o
    /\ forall p, o = Some p ->
                 exists node rest,
                   path = node :: rest
                   /\ p = Packet.mk (Node.x node) (Node.y node) path 0 0.
Proof.
  destruct path as [| a [| b rest]].
  - exists None; split; [reflexivity | discriminate].
  - exists None; split; [reflexivity | discriminate].
  - exists (Some (Packet.mk (Node.x a) (Node.y a) (a :: b :: rest) 0 0)). split.
    + unfold createPacket.
      destruct (Z.ltb_spec (Z.of_nat (length (a :: b :: rest))) 2) as [H | _];
        [cbn [length] in H; lia | reflexivity].
    + intros p Hp. injection Hp as <-. exists a, (b :: rest). split; reflexivity.
Qed.

Lemma spawnStep_world (currentTime : R) (currentPaths : list Path)
  (pk : PacketArray) (w : World) (res : PacketArray * bool) (w' : World) :
  spawnStep currentTime currentPaths pk w = Ok (res, w') ->
  canvasOps w' = canvasOps w /\ (drawsInRange w -> drawsInRange w').
Proof.
  unfold spawnStep.
  destruct (Rgtb _ _);
    [| intros H; apply Ok_pair_inv in H as [_ <-]; auto].
  destruct (0 <? length currentPaths)%nat;
    [| intros H; apply Ok_pair_inv in H as [_ <-]; auto].
  intros H.
  apply bind_Ok in H as (u & w1 & Hr & H).
  unfold random in Hr. apply Ok_pair_inv in Hr as [_ <-].
  apply bind_Ok in H as (path & w2 & Hp & H). apply liftR_Ok in Hp as (_ & ->).
  apply bind_Ok in H as (newPacket & w3 & Hc & H). apply liftR_Ok in Hc as (_ & ->).
  assert (Hw : w' = mkWorld (canvasOps w) (fun n => mathRandom w (S n))).
  { destruct newPacket; apply Ok_pair_inv in H as [_ <-]; reflexivity. }
  rewrite Hw. split; [reflexivity |].
  intros Hd n. apply (Hd (S n)).
Qed.

Lemma spawnStep_total (currentTime : R) (currentPaths : list Path)
  (pk : PacketArray) (w : World) :
  0 <= mathRandom w 0%nat < 1 ->
  exists res w', spawnStep currentTime currentPaths pk w = Ok (res, w').
Proof.
  intros Hu. unfold spawnStep.
  destruct (Rgtb _ _); [| eexists _, _; reflexivity].
  destruct (0 <? length currentPaths)%nat eqn:Hlen;
    [| eexists _, _; reflexivity].
  apply Nat.ltb_lt in Hlen.
  destruct (floor_in_range _ _ Hu Hlen) as (k & Hk & Hfloor).
  destruct (index_in_range currentPaths k Hk) as (path & Hpath & _).
  destruct (createPacket_total path) as (o & Ho & _).
  erewrite bind_run by reflexivity.
  cbn [mathRandom]. rewrite Hfloor.
  assert (Hsel : indexZ currentPaths (Z.of_nat k) = Ok path).
  { unfold indexZ. destruct (Z.ltb_spec (Z.of_nat k) 0); [lia |].
    rewrite Nat2Z.id. exact Hpath. }
  rewrite Hsel. unfold liftR at 1. erewrite bind_run by reflexivity.
  rewrite Ho. unfold liftR. erewrite bind_run by reflexivity.
  destruct o; eexists _, _; reflexivity.
Qed.

(** X9. The spawn step only ever appends: it leaves the array as it is,
    or it pushes one packet at the end and stamps the array with the
    current time.  It pushes only when more than [packetInterval] has
    passed since the stamp of the array, or since 0 for an array without a
    stamp; the new packet lies on one of the paths of the frame, at the
    first point of that path, with nothing travelled.  Nothing is drawn. *)
Theorem spawnStep_appends (currentTime : R) (currentPaths : list Path)
  (pk pk' : PacketArray) (pushed : bool) (w w' : World) :
  spawnStep currentTime currentPaths pk w = Ok ((pk', pushed), w') ->
  canvasOps w' = canvasOps w
  /\ ((pushed = false /\ pk' = pk)
      \/ (pushed = true
          /\ currentTime - lastSpawnOr0 pk > packetInterval
          /\ exists (node : Node.t) (rest : list Node.t),
               In (node :: rest) currentPaths
               /\ pk' = mkPacketArray
                          (items pk
                           ++ [Packet.mk (Node.x node) (Node.y node)
                                 (node :: rest) 0 0])
                          (Some currentTime))).
Proof.
  intros H. split; [apply (spawnStep_world _ _ _ _ _ _ H) |].
  unfold spawnStep in H.
  destruct (Rgtb _ _) eqn:Egt;
    [| apply Ok_pair_inv in H as [H _]; apply pair_equal_spec in H as [<- <-];
       left; split; reflexivity].
  apply Rgtb_true in Egt.
  destruct (0 <? length currentPaths)%nat;
    [| apply Ok_pair_inv in H as [H _]; apply pair_equal_spec in H as [<- <-];
       left; split; reflexivity].
  apply bind_Ok in H as (u & w1 & _ & H).
  apply bind_Ok in H as (path & w2 & Hp & H). apply liftR_Ok in Hp as (Hp & _).
  apply bind_Ok in H as (newPacket & w3 & Hc & H). apply liftR_Ok in Hc as (Hc & _).
  assert (Hin : In path currentPaths).
  { unfold indexZ in Hp. destruct (_ <? 0)%Z; [discriminate |].
    apply index_Ok, nth_error_In in Hp. exact Hp. }
  destruct (createPacket_total path) as (o & Ho & Hshape).
  rewrite Ho in Hc. apply Ok_inv in Hc. subst o.
  destruct newPacket as [p |].
  - apply Ok_pair_inv in H as [H _]. apply pair_equal_spec in H as [<- <-].
    right. split; [reflexivity |]. split; [exact Egt |].
    destruct (Hshape p eq_refl) as (node & rest & -> & ->).
    exists node, rest. split; [exact Hin | reflexivity].
  - apply Ok_pair_inv in H as [H _]. apply pair_equal_spec in H as [<- <-].
    left; split; reflexivity.
Qed.

Lemma spawnStep_appends_witness :
  canvasOps (mkWorld [] (fun n => zeroDraws (S n))) = canvasOps (mkWorld [] zeroDraws)
  /\ ((true = false
       /\ mkPacketArray
            [Packet.mk 0 0 [Node.mk 0 0 None; Node.mk 3 4 None] 0 0] (Some 2000)
          = emptyArray)
      \/ (true = true
          /\ 2000 - lastSpawnOr0 emptyArray > packetInterval
          /\ exists (node : Node.t) (rest : list Node.t),
               In (node :: rest) [[Node.mk 0 0 None; Node.mk 3 4 None]]
               /\ mkPacketArray
                    [Packet.mk 0 0 [Node.mk 0 0 None; Node.mk 3 4 None] 0 0]
                    (Some 2000)
                  = mkPacketArray
                      (items emptyArray
                       ++ [Packet.mk (Node.x node) (Node.y node)
                             (node :: rest) 0 0])
                      (Some 2000))).
Proof.
  apply (spawnStep_appends 2000 [[Node.mk 0 0 None; Node.mk 3 4 None]]
           emptyArray _ true (mkWorld [] zeroDraws)).
  unfold spawnStep.
  rewrite (proj2 (Rgtb_true _ _))
    by (unfold lastSpawnOr0, emptyArray, packetInterval; cbn [lastSpawnTime]; lra).
  cbn [length Nat.ltb Nat.leb].
  erewrite bind_run by reflexivity.
  cbn [mathRandom]. unfold zeroDraws at 1.
  rewrite (floor_unique 0) by (simpl; lra).
  reflexivity.
Defined.

(** ** One frame *)

Lemma drawnPackets_packets (ps : list Packet.t) :
  drawnPackets (map (fun p => DrawPacket (Packet.x p) (Packet.y p)) ps)
  = map (fun p => (Packet.x p, Packet.y p)) ps.
Proof.
  induction ps as [| p ps IH]; [reflexivity |].
  cbn [map drawnPackets flat_map app]. f_equal. exact IH.
Qed.

Lemma wellPlaced_nonneg (ps : list Packet.t) :
  Forall wellPlaced ps -> Forall (fun p => 0 <= Packet.distanceTraveled p) ps.
Proof. apply Forall_impl. intros p [H _]; exact H. Qed.

Lemma animate_outcome (selectedTopology : string) (fuel : nat) (t : R)
  (s : AnimState) :
  lastTime s <= t ->
  Forall (fun p => 0 <= Packet.distanceTraveled p) (items (packets s)) ->
  drawsInRange (world s) ->
  (animate selectedTopology fuel t s = Diverge
   /\ (selectedTopology = "mesh"%string \/ selectedTopology = "hybrid"%string))
  \/ exists s',
       animate selectedTopology fuel t s = Ok s'
       /\ Forall wellPlaced (items (packets s'))
       /\ drawsInRange (world s')
       /\ lastTime s' = t.
Proof.
  intros Ht Hpk Hdraws. unfold animate, animateFrame.
  rewrite (bind_run clearRect _ _ tt (mkWorld [] (mathRandom (world s))))
    by reflexivity.
  destruct (layout_outcome selectedTopology fuel (canvasWidth s) (canvasHeight s)
              (mathRandom (world s)))
    as [[Hd Hsel] | (paths & w1 & Hlay & _ & Hw1)].
  { left. split; [| exact Hsel]. rewrite (bind_Diverge _ _ _ Hd). reflexivity. }
  right. specialize (Hw1 Hdraws).
  rewrite (bind_run _ _ _ _ _ Hlay).
  destruct (spawnStep_total t paths (packets s) w1 (Hw1 0%nat))
    as ([pk1 pushed] & w2 & Hspawn).
  rewrite (bind_run _ _ _ _ _ Hspawn).
  pose proof (spawnStep_world _ _ _ _ _ _ Hspawn) as [_ Hw2].
  specialize (Hw2 Hw1).
  assert (Hpk1 : Forall (fun p => 0 <= Packet.distanceTraveled p) (items pk1)).
  { apply spawnStep_Ok in Hspawn
        as [(_ & ->) | (_ & _ & p & -> & _ & Hd)]; [exact Hpk |].
    cbn [items]. apply Forall_app; split; [exact Hpk |].
    constructor; [rewrite Hd; lra | constructor]. }
  assert (Hupd : exists pk2,
             updatePackets (t - lastTime s) pk1 = Ok pk2
             /\ Forall wellPlaced (items pk2)).
  { assert (Hrs : exists rs,
               Forall2 (fun p r => updatePacket (t - lastTime s) p = Ok r)
                       (items pk1) rs
               /\ Forall wellPlaced (keptPackets rs)).
    { induction Hpk1 as [| p ps Hp _ IH].
      - exists []; split; constructor.
      - destruct IH as (rs & Hrs & Hkept).
        destruct (updatePacket_well_placed (t - lastTime s) p) as (keep & q & Hq & Hwp);
          [lra | exact Hp |].
        exists ((keep, q) :: rs). split; [constructor; assumption |].
        unfold keptPackets in *. destruct keep; simpl; [| exact Hkept].
        constructor; [apply Hwp; reflexivity | exact Hkept]. }
    destruct Hrs as (rs & Hrs & Hkept).
    exists (mkPacketArray (keptPackets rs) None). split; [| exact Hkept].
    apply updatePackets_Ok. exists rs; split; [exact Hrs | reflexivity]. }
  destruct Hupd as (pk2 & Hupd & Hwell).
  unfold liftR at 1. rewrite Hupd. erewrite bind_run by reflexivity.
  rewrite (bind_run _ _ _ _ _ (drawPackets_run _ _)).
  unfold ret. cbn [rbind fst snd].
  eexists; split; [reflexivity |].
  cbn [packets world lastTime mathRandom].
  split; [exact Hwell |]. split; [exact Hw2 | reflexivity].
Qed.

(** X10. A frame never raises.  When the frame starts no earlier than the
    previous one, every packet has a non-negative travelled distance and
    [Math.random] keeps its contract, [animate] returns, unless the
    topology is mesh or hybrid and a placement loop does not end; and
    when it returns, the same conditions hold again for the next frame:
    every packet left has a segment ahead of it and a distance that is
    zero or within that segment. *)
Theorem animate_never_raises (selectedTopology : string) (fuel : nat) (t : R)
  (s : AnimState) :
  lastTime s <= t ->
  Forall (fun p => 0 <= Packet.distanceTraveled p) (items (packets s)) ->
  (forall n, 0 <= mathRandom (world s) n < 1) ->
  (animate selectedTopology fuel t s = Diverge
   /\ (selectedTopology = "mesh"%string \/ selectedTopology = "hybrid"%string))
  \/ exists s',
       animate selectedTopology fuel t s = Ok s'
       /\ lastTime s' = t
       /\ Forall wellPlaced (items (packets s'))
       /\ Forall (fun p => 0 <= Packet.distanceTraveled p) (items (packets s'))
       /\ (forall n, 0 <= mathRandom (world s') n < 1).
Proof.
  intros Ht Hpk Hdraws.
  destruct (animate_outcome selectedTopology fuel t s Ht Hpk Hdraws)
    as [Hd | (s' & Hok & Hwell & Hdr & Hlast)]; [left; exact Hd |].
  right. exists s'. split; [exact Hok |]. split; [exact Hlast |].
  split; [exact Hwell |]. split; [apply wellPlaced_nonneg; exact Hwell | exact Hdr].
Qed.

Lemma animate_never_raises_witness :
  (animate "bus" 0 2000 (mountState (mkWorld [] zeroDraws)) = Diverge
   /\ ("bus"%string = "mesh"%string \/ "bus"%string = "hybrid"%string))
  \/ exists s',
       animate "bus" 0 2000 (mountState (mkWorld [] zeroDraws)) = Ok s'
       /\ lastTime s' = 2000
       /\ Forall wellPlaced (items (packets s'))
       /\ Forall (fun p => 0 <= Packet.distanceTraveled p) (items (packets s'))
       /\ (forall n, 0 <= mathRandom (world s') n < 1).
Proof.
  apply (animate_never_raises "bus" 0 2000 (mountState (mkWorld [] zeroDraws))).
  - cbn [mountState lastTime]. lra.
  - constructor.
  - intros n. apply zeroDraws_in_range.
Defined.

(** X11. Every frame that returns has drawn the live packets, and only
    them: after the layout, the canvas shows one packet marker for each
    packet left in the array, at the position of that packet and in the
    order of the array.  The canvas size is the one the frame found. *)
Theorem animate_draws_live_packets (selectedTopology : string) (fuel : nat)
  (t : R) (s s' : AnimState) :
  animate selectedTopology fuel t s = Ok s' ->
  drawnPackets (canvasOps (world s'))
  = map (fun p => (Packet.x p, Packet.y p)) (items (packets s'))
  /\ canvasWidth s' = canvasWidth s
  /\ canvasHeight s' = canvasHeight s.
Proof.
  unfold animate. intros H.
  apply rbind_Ok in H as ([[pk2 pushed] w] & Hf & H).
  apply Ok_inv in H. subst s'. cbn [packets world canvasWidth canvasHeight fst].
  split; [| split; reflexivity].
  unfold animateFrame in Hf.
  rewrite (bind_run clearRect _ _ tt (mkWorld [] (mathRandom (world s))))
    in Hf by reflexivity.
  apply bind_Ok in Hf as (paths & w1 & Hlay & Hf).
  destruct (layout_outcome selectedTopology fuel (canvasWidth s) (canvasHeight s)
              (mathRandom (world s)))
    as [[Hd _] | (paths' & w1' & Hlay' & Hnone & _)];
    [rewrite Hd in Hlay; discriminate |].
  rewrite Hlay in Hlay'. apply Ok_pair_inv in Hlay' as [<- <-].
  apply bind_Ok in Hf as ([pk1 pushed1] & w2 & Hspawn & Hf).
  apply spawnStep_world in Hspawn as [Hops2 _].
  apply bind_Ok in Hf as (pk2' & w3 & Hupd & Hf).
  apply liftR_Ok in Hupd as (_ & ->).
  rewrite (bind_run _ _ _ _ _ (drawPackets_run _ _)) in Hf.
  apply Ok_pair_inv in Hf as [Hres <-]. apply pair_equal_spec in Hres as [<- _].
  cbn [canvasOps]. rewrite drawnPackets_app, Hops2, Hnone, drawnPackets_packets.
  reflexivity.
Qed.

Lemma animate_draws_live_packets_witness :
  exists s',
    animate "star" 0 2000
      (mkAnimState emptyArray 1990 500 300 None [] 0 (mkWorld [] zeroDraws) 0)
    = Ok s'
    /\ drawnPackets (canvasOps (world s'))
       = map (fun p => (Packet.x p, Packet.y p)) (items (packets s'))
    /\ canvasWidth s' = 500
    /\ canvasHeight s' = 300.
Proof.
  destruct (animate_star 0 2000 0
              (mkAnimState emptyArray 1990 500 300 None [] 0
                 (mkWorld [] zeroDraws) 0)) as (s' & Hrun & _);
    cbn [packets lastTime canvasWidth canvasHeight world items emptyArray].
  - constructor.
  - unfold lastSpawnOr0, emptyArray, packetInterval; cbn [lastSpawnTime]. lra.
  - intros n; apply zeroDraws_in_range.
  - lra.
  - lra.
  - rewrite Rmin_right by lra. unfold packetSpeed. lra.
  - exists s'. split; [exact Hrun |].
    apply (animate_draws_live_packets "star" 0 2000 _ s' Hrun).
Defined.

(** ** Scheduling *)

Lemma animate_schedule (selectedTopology : string) (fuel : nat) (t : R)
  (s s' : AnimState) :
  animate selectedTopology fuel t s = Ok s' ->
  animationFrameId s' = Some (S (frameRequests s))
  /\ pendingFrames s' = pendingFrames s ++ [S (frameRequests s)]
  /\ frameRequests s' = S (frameRequests s)
  /\ canvasWidth s' = canvasWidth s
  /\ canvasHeight s' = canvasHeight s.
Proof.
  unfold animate. intros H. apply rbind_Ok in H as ([r w] & _ & H).
  apply Ok_inv in H. subst s'. repeat split.
Qed.

Lemma cancel_only (id : nat) : cancelAnimationFrame id [id] = [].
Proof. unfold cancelAnimationFrame; cbn [filter]. rewrite Nat.eqb_refl. reflexivity. Qed.

(** X12. There is never more than one animation loop.  From a state in
    which nothing is pending, or only the request that
    [animationFrameId.current] names, a resize leaves exactly one request
    pending, the one it has just made, and so does a frame; the cleanup
    of the effect leaves none, and after it no frame runs. *)
Theorem single_animation_loop (selectedTopology : string) (fuel : nat)
  (s : AnimState) :
  pendingFrames s = [] \/ oneLoop s ->
  (forall (offsetWidth : nat) (now : R) (s' : AnimState),
      resizeCanvas selectedTopology fuel offsetWidth now s = Ok s' ->
      oneLoop s' /\ pendingFrames s' = [S (frameRequests s)])
  /\ (forall (t : R) (s' : AnimState),
         runFrame selectedTopology fuel t s = Ok s' ->
         (pendingFrames s = [] /\ s' = s)
         \/ (oneLoop s' /\ pendingFrames s' = [S (frameRequests s)]))
  /\ pendingFrames (cleanup s) = []
  /\ (forall t : R,
         runFrame selectedTopology fuel t (cleanup s) = Ok (cleanup s)).
Proof.
  intros Hinv.
  assert (Hcancel :
            match animationFrameId s with
            | Some id =>
                if (id =? 0)%nat then pendingFrames s
                else cancelAnimationFrame id (pendingFrames s)
            | None => pendingFrames s
            end = []).
  { destruct Hinv as [Hnil | (id & Hid & Hcur & Hpend)].
    - rewrite Hnil. destruct (animationFrameId s) as [id |]; [| reflexivity].
      destruct (id =? 0)%nat; reflexivity.
    - rewrite Hcur, Hpend. apply Nat.eqb_neq in Hid. rewrite Hid.
      apply cancel_only. }
  assert (Hnew : forall s0 t s',
             pendingFrames s0 = [] -> frameRequests s0 = frameRequests s ->
             animate selectedTopology fuel t s0 = Ok s' ->
             oneLoop s' /\ pendingFrames s' = [S (frameRequests s)]).
  { intros s0 t s' Hp Hf Hrun.
    apply animate_schedule in Hrun as (Hid & Hpend & _).
    rewrite Hp, Hf in Hpend. rewrite Hf in Hid. split; [| exact Hpend].
    exists (S (frameRequests s)). split; [lia |]. split; assumption. }
  split; [| split; [| split]].
  - intros offsetWidth now s' Hrun. unfold resizeCanvas in Hrun.
    eapply Hnew; [| | exact Hrun]; [exact Hcancel | reflexivity].
  - intros t s' Hrun. unfold runFrame in Hrun.
    destruct Hinv as [Hnil | (id & Hid & Hcur & Hpend)].
    + left. split; [exact Hnil |]. rewrite Hnil in Hrun.
      destruct (animationFrameId s); cbn [existsb] in Hrun;
        apply Ok_inv in Hrun; symmetry; exact Hrun.
    + right. rewrite Hcur, Hpend in Hrun. cbn [existsb] in Hrun.
      rewrite Nat.eqb_refl in Hrun. cbn [orb] in Hrun.
      eapply Hnew; [| | exact Hrun]; [apply cancel_only | reflexivity].
  - unfold cleanup. destruct (animationFrameId s) as [id |] eqn:Hcur.
    + destruct (id =? 0)%nat eqn:Hz; [exact Hcancel | exact Hcancel].
    + exact Hcancel.
  - intros t.
    assert (Hclean : pendingFrames (cleanup s) = []).
    { unfold cleanup. destruct (animationFrameId s) as [id |] eqn:Hcur.
      - destruct (id =? 0)%nat eqn:Hz; [exact Hcancel | exact Hcancel].
      - exact Hcancel. }
    unfold runFrame. rewrite Hclean.
    destruct (animationFrameId (cleanup s)); reflexivity.
Qed.


(** ** The size of the canvas *)

(** X13. A resize sets the width of the canvas to the width of the
    element and its height to the whole number of pixels in
    [min(0.6 * width, 400)]: never more than 400, never more than six
    tenths of the width, and less than one pixel below the smaller of the
    two. *)
Theorem resizeCanvas_canvas_size (selectedTopology : string) (fuel : nat)
  (offsetWidth : nat) (now : R) (s s' : AnimState) :
  resizeCanvas selectedTopology fuel offsetWidth now s = Ok s' ->
  canvasWidth s' = INR offsetWidth
  /\ (exists z : Z, (0 <= z)%Z /\ canvasHeight s' = IZR z)
  /\ canvasHeight s' <= 400
  /\ canvasHeight s' <= 0.6 * canvasWidth s'
  /\ Rmin (0.6 * canvasWidth s') 400 - 1 < canvasHeight s'.
Proof.
  unfold resizeCanvas. intros H.
  apply animate_schedule in H as (_ & _ & _ & Hw & Hh).
  cbn [canvasWidth canvasHeight] in Hw, Hh. rewrite Hw, Hh.
  set (m := Rmin (INR offsetWidth * 0.6) 400).
  assert (Hm0 : 0 <= m).
  { unfold m. apply Rmin_glb; [| lra].
    pose proof (pos_INR offsetWidth). lra. }
  assert (Hm1 : m <= 400) by apply Rmin_r.
  assert (Hm2 : m <= INR offsetWidth * 0.6) by apply Rmin_l.
  destruct (base_Int_part m) as [Hle Hgt]. unfold floor.
  split; [reflexivity |]. split.
  - exists (Int_part m). split; [| reflexivity].
    apply Z.lt_succ_r, lt_IZR. rewrite succ_IZR. lra.
  - split; [lra |]. split; [lra |].
    replace (0.6 * INR offsetWidth) with (INR offsetWidth * 0.6) by ring.
    fold m. lra.
Qed.

Lemma resizeCanvas_canvas_size_witness :
  exists s',
    resizeCanvas "star" 0 500 5000 (mountState (mkWorld [] zeroDraws)) = Ok s'
    /\ canvasWidth s' = INR 500
    /\ (exists z : Z, (0 <= z)%Z /\ canvasHeight s' = IZR z)
    /\ canvasHeight s' <= 400
    /\ canvasHeight s' <= 0.6 * canvasWidth s'
    /\ Rmin (0.6 * canvasWidth s') 400 - 1 < canvasHeight s'.
Proof.
  destruct (resizeCanvas_star 0 500 5000 (mountState (mkWorld [] zeroDraws)))
    as (s' & Hresize & _).
  - unfold packetInterval; lra.
  - intros n; apply zeroDraws_in_range.
  - rewrite canvas_min_500; lra.
  - exists s'. split; [exact Hresize |].
    apply (resizeCanvas_canvas_size "star" 0 500 5000
             (mountState (mkWorld [] zeroDraws)) s' Hresize).
Defined.

(** ** The bus line *)

Lemma busDeviceNode_x (width height r : R) (i : nat) :
  Node.x (busDeviceNode width height r i) = width * 0.1 + INR i * (width * 0.2).
Proof.
  unfold busDeviceNode; cbn [Node.x]. rewrite INR_4.
  replace ((width * 0.9 - width * 0.1) / 4) with (width * 0.2) by lra.
  reflexivity.
Qed.

Lemma segmentLength_level (p q : Node.t) :
  Node.y p = Node.y q -> segmentLength p q = Rabs (Node.x q - Node.x p).
Proof.
  intros Hy. unfold segmentLength. rewrite Hy.
  replace ((Node.x q - Node.x p) ^ 2 + (Node.y q - Node.y q) ^ 2)
    with ((Node.x q - Node.x p)²) by (unfold Rsqr; ring).
  apply sqrt_Rsqr_abs.
Qed.

Lemma bus_path_shape (width height r : R) (a b : Node.t) :
  In [a; b]
     (flat_map (fun i =>
                  bothWays (busAttachment height (busDeviceNode width height r i))
                           (busAttachment height
                              (busDeviceNode width height r (i + 1))))
               (seq 0 4)) ->
  Node.y a = height / 2 /\ Node.y b = height / 2
  /\ Rabs (Node.x b - Node.x a) = Rabs (width * 0.2)
  /\ segmentLength a b = Rabs (width * 0.2).
Proof.
  intros Hin. apply in_flat_map in Hin as (i & _ & Hp).
  assert (Hstep : Node.x (busDeviceNode width height r (i + 1))
                  - Node.x (busDeviceNode width height r i) = width * 0.2).
  { rewrite !busDeviceNode_x, plus_INR. simpl (INR 1). ring. }
  destruct Hp as [Hp | [Hp | []]]; injection Hp as <- <-;
    unfold busAttachment; cbn [Node.x Node.y];
    (split; [reflexivity |]); (split; [reflexivity |]).
  - rewrite segmentLength_level by reflexivity. cbn [Node.x]. rewrite Hstep. auto.
  - rewrite segmentLength_level by reflexivity. cbn [Node.x].
    replace (Node.x (busDeviceNode width height r i)
             - Node.x (busDeviceNode width height r (i + 1)))
      with (- (width * 0.2)) by (rewrite <- Hstep; ring).
    rewrite Rabs_Ropp. auto.
Qed.

(** X14. The bus layout spaces its five devices evenly from one tenth to
    nine tenths of the width, a fifth of the width apart, all [2 * r]
    below the bus line at half the height; and every path it returns runs
    along the bus line over exactly one such step. *)
Theorem bus_layout_spacing (fuel : nat) (width height r : R) (rnd : nat -> R) :
  exists (nodes : list Node.t) (paths : list Path),
    generate Bus fuel width height r rnd = Ok (nodes, paths)
    /\ (forall (i : nat) (d : Node.t),
           nth_error nodes i = Some d ->
           Node.x d = width * 0.1 + INR i * (width * 0.2)
           /\ Node.y d = height / 2 + 2 * r)
    /\ (forall a b : Node.t,
           In [a; b] paths ->
           Node.y a = height / 2 /\ Node.y b = height / 2
           /\ Rabs (Node.x b - Node.x a) = Rabs (width * 0.2)
           /\ segmentLength a b = Rabs (width * 0.2)).
Proof.
  eexists _, _. split; [apply generate_Bus |]. split.
  - intros i d Hd.
    assert (Hi : (i < 5)%nat).
    { change 5%nat with (length (map (busDeviceNode width height r) (seq 0 5))).
      apply nth_error_Some. rewrite Hd; discriminate. }
    assert (Hd' : d = busDeviceNode width height r i).
    { do 5 (destruct i as [| i]; [injection Hd as <-; reflexivity |]). lia. }
    subst d. split; [apply busDeviceNode_x |].
    unfold busDeviceNode; cbn [Node.y]. ring.
  - intros a b Hin. apply (bus_path_shape width height r a b Hin).
Qed.

(** ** Navigation *)

Lemma last_cons_irrel {A : Type} (l : list A) :
  forall x d d' : A, last (x :: l) d = last (x :: l) d'.
Proof.
  induction l as [| y l IH]; intros x d d'; [reflexivity |].
  cbn [last] in *. apply IH.
Qed.

Lemma scroll_fold (document : list string) (ids : list string) :
  forall st : PageState,
    let shown := filter (fun id => existsb (String.eqb id) document) ids in
    let st' := fold_left (fun st id => scrollToSection document id st) ids st in
    scrolledTo st' = scrolledTo st ++ shown
    /\ activeSection st' = last shown (activeSection st).
Proof.
  induction ids as [| id ids IH]; intros st; cbn [filter fold_left].
  - cbn zeta. rewrite app_nil_r. split; reflexivity.
  - specialize (IH (scrollToSection document id st)). cbv zeta in IH |- *.
    destruct IH as [IH1 IH2]. rewrite IH1, IH2. unfold scrollToSection.
    destruct (existsb (String.eqb id) document).
    + cbn [scrolledTo activeSection]. rewrite <- app_assoc. split; [reflexivity |].
      destruct (filter _ ids) as [| x l]; [reflexivity |].
      cbn [last]. apply last_cons_irrel.
    + split; reflexivity.
Qed.

(** X15. Navigation ignores sections that are not on the page.  After any
    sequence of [scrollToSection] calls the page has scrolled, in order, to
    exactly the requested ids that name an element of the document, and the
    active section is the last of those, or the one it was when none of
    the ids exists. *)
Theorem scrollToSection_sequence (document ids : list string) (st : PageState) :
  let shown := filter (fun id => existsb (String.eqb id) document) ids in
  let st' := fold_left (fun st id => scrollToSection document id st) ids st in
  scrolledTo st' = scrolledTo st ++ shown
  /\ activeSection st' = last shown (activeSection st)
  /\ Forall (fun id => In id document) shown
  /\ (activeSection st' = activeSection st \/ In (activeSection st') document).
Proof.
  cbv zeta. destruct (scroll_fold document ids st) as [H1 H2]. cbv zeta in H1, H2.
  assert (Hshown : Forall (fun id => In id document)
                     (filter (fun id => existsb (String.eqb id) document) ids)).
  { apply Forall_forall. intros id Hid. apply filter_In in Hid as [_ Hex].
    apply existsb_exists in Hex as (x & Hx & Heq).
    apply String.eqb_eq in Heq. subst x. exact Hx. }
  split; [exact H1 |]. split; [exact H2 |]. split; [exact Hshown |].
  rewrite H2.
  destruct (filter (fun id => existsb (String.eqb id) document) ids)
    as [| x l] eqn:E; [left; reflexivity |].
  right. rewrite Forall_forall in Hshown. apply Hshown.
  clear. revert x. induction l as [| y l IH]; intros x; [left; reflexivity |].
  cbn [last]. right. apply IH.
Qed.

Example scrollToSection_nav :
  fold_left (fun st id => scrollToSection pageSections id st)
    ["topologies"; "pricing"; "simulation"]%string initialPage
  = mkPageState "simulation" ["topologies"; "simulation"]%string.
Proof. reflexivity. Qed.

(** ** No path is degenerate *)

Lemma segmentLength_pos_x (a b : Node.t) :
  Node.x a <> Node.x b -> 0 < segmentLength a b.
Proof.
  intros H. unfold segmentLength. apply sqrt_lt_R0.
  assert (0 < (Node.x b - Node.x a) ^ 2) by (rewrite <- Rsqr_pow2; apply Rlt_0_sqr; lra).
  pose proof (pow2_ge_0 (Node.y b - Node.y a)). lra.
Qed.

Lemma segmentLength_pos_y (a b : Node.t) :
  Node.y a <> Node.y b -> 0 < segmentLength a b.
Proof.
  intros H. unfold segmentLength. apply sqrt_lt_R0.
  assert (0 < (Node.y b - Node.y a) ^ 2) by (rewrite <- Rsqr_pow2; apply Rlt_0_sqr; lra).
  pose proof (pow2_ge_0 (Node.x b - Node.x a)). lra.
Qed.

Lemma segmentLength_sym (a b : Node.t) : segmentLength a b = segmentLength b a.
Proof. unfold segmentLength; f_equal; ring. Qed.

Lemma spaced_pairPaths (r : R) (devices : list Node.t) (a b : Node.t) :
  0 < r -> spaced r devices -> In [a; b] (pairPaths devices) ->
  0 < segmentLength a b.
Proof.
  intros Hr Hsp Hin.
  apply pairPaths_sound in Hin as (i & j & a' & b' & Hij & Ha & Hb & Heq).
  injection Heq as -> ->.
  pose proof (Hsp i j a' b' Hij Ha Hb) as Hd.
  change (segmentLength a' b') with (distance b' a'). rewrite distance_sym. lra.
Qed.

Lemma tree_paths_positive (width height : R) (a b : Node.t) :
  0 < height ->
  In [a; b] (flat_map (fun e => bothWays (fst e) (snd e)) (treeEdges width height)) ->
  0 < segmentLength a b.
Proof.
  intros Hh Hin. apply in_flat_map in Hin as (e & He & Hp).
  unfold treeEdges in He. cbn [In] in He.
  repeat (destruct He as [<- | He];
          [destruct Hp as [Hp | [Hp | []]]; injection Hp as <- <-;
           apply segmentLength_pos_y;
           unfold treeRoot, treeSubHubA, treeSubHubB, treeLeaf; cbn [Node.y fst snd];
           lra |]).
  contradiction.
Qed.

(** X16. No layout returns a degenerate path: on a canvas of positive
    width and height, with a positive device radius and a random source
    that keeps its contract, the two points of every returned path are a
    positive distance apart. *)
Theorem paths_have_positive_length (k : TopologyKind) (fuel : nat)
  (width height r : R) (rnd : nat -> R) (nodes : list Node.t)
  (paths : list Path) :
  0 < width -> 0 < height -> 0 < r ->
  (forall n, 0 <= rnd n < 1) ->
  generate k fuel width height r rnd = Ok (nodes, paths) ->
  forall path : Path,
    In path paths ->
    exists a b : Node.t, path = [a; b] /\ 0 < segmentLength a b.
Proof.
  intros Hw Hh Hr Hrnd Hgen path Hpath. destruct k.
  - (* star *)
    rewrite generate_Star in Hgen. apply Ok_pair_inv in Hgen as [_ <-].
    assert (Hmin : 0 < Rmin width height) by (apply Rmin_glb_lt; assumption).
    destruct (starPaths_segments width height path (Rlt_le _ _ Hmin) Hpath)
      as (a & b & -> & Hlen).
    exists a, b. split; [reflexivity | lra].
  - (* mesh *)
    apply generate_Ok in Hgen as (w' & Hdraw & _). cbn [drawTopology] in Hdraw.
    apply drawMeshTopology_run in Hdraw as (devices & w1 & Hplace & -> & _).
    apply meshPlacement_Ok in Hplace as (_ & Hsp & _).
    destruct (pairPaths_sound devices path Hpath) as (i & j & a & b & _ & _ & _ & ->).
    exists a, b. split; [reflexivity |].
    apply (spaced_pairPaths r devices a b Hr Hsp Hpath).
  - (* bus *)
    rewrite generate_Bus in Hgen. apply Ok_pair_inv in Hgen as [_ <-].
    pose proof Hpath as Hin. apply in_flat_map in Hin as (i & _ & Hp).
    destruct Hp as [<- | [<- | []]]; eexists _, _; (split; [reflexivity |]);
      (apply bus_path_shape in Hpath as (_ & _ & _ & ->);
       apply Rabs_pos_lt; lra).
  - (* tree *)
    rewrite generate_Tree in Hgen. apply Ok_pair_inv in Hgen as [_ <-].
    pose proof Hpath as Hin. apply in_flat_map in Hin as (e & _ & Hp).
    destruct Hp as [<- | [<- | []]]; eexists _, _; (split; [reflexivity |]);
      apply (tree_paths_positive width height _ _ Hh Hpath).
  - (* hybrid *)
    apply generate_Ok in Hgen as (w' & Hdraw & _). cbn [drawTopology] in Hdraw.
    apply drawHybridTopology_run in Hdraw
        as (hub & s0 & s1 & s2 & m0 & m1 & m2 & starOps & w1
            & Hhub & Hcircle & _ & _ & Hplace & _ & -> & _).
    pose proof (hybridMeshPlacement_Ok _ _ _ _ _ _ _ Hplace) as (_ & Hsp & _).
    apply (placementLoop_in_box 3 fuel _ _ _ r
             (fun x => 0.6 * width <= x <= 0.9 * width) (fun _ => True))
      in Hplace as [Hbox _];
      [| intros u Hu; nra | auto | exact Hrnd].
    assert (Hspoke : forall s, In s [s0; s1; s2] ->
                               0 < segmentLength hub s).
    { intros s Hs. rewrite Forall_forall in Hcircle.
      destruct (Hcircle s Hs) as [Hc _].
      unfold segmentLength. rewrite Hc. apply sqrt_lt_R0. nra. }
    assert (Hbridge : 0 < segmentLength hub m0).
    { apply segmentLength_pos_x. apply Forall_inv in Hbox as [Hm0 _].
      rewrite Hhub at 1. cbn [Node.x]. lra. }
    rewrite !in_app_iff in Hpath. destruct Hpath as [Hp | [Hp | Hp]].
    + cbn [In] in Hp.
      repeat (destruct Hp as [<- | Hp];
              [eexists _, _; split; [reflexivity |];
               first [ apply Hspoke; simpl; tauto
                     | rewrite segmentLength_sym; apply Hspoke; simpl; tauto ] |]).
      contradiction.
    + destruct (pairPaths_sound _ path Hp) as (i & j & a & b & _ & _ & _ & ->).
      exists a, b. split; [reflexivity |].
      apply (spaced_pairPaths r _ a b Hr Hsp Hp).
    + cbn [In] in Hp. destruct Hp as [<- | [<- | []]];
        eexists _, _; (split; [reflexivity |]);
        [exact Hbridge | rewrite segmentLength_sym; exact Hbridge].
Qed.

Lemma paths_have_positive_length_witness :
  exists nodes paths,
    generate Hybrid 2 400 300 15 exampleDraws = Ok (nodes, paths)
    /\ forall path : Path,
         In path paths ->
         exists a b : Node.t, path = [a; b] /\ 0 < segmentLength a b.
Proof.
  destruct generate_Hybrid_example as (nodes & paths & Hgen & _).
  exists nodes, paths. split; [exact Hgen |].
  apply (paths_have_positive_length Hybrid 2 400 300 15 exampleDraws nodes paths);
    [lra | lra | lra | apply exampleDraws_in_range | exact Hgen].
Defined.

(** ** A whole run *)

Lemma runFrame_outcome (selectedTopology : string) (fuel : nat) (t : R)
  (s : AnimState) :
  lastTime s <= t ->
  Forall (fun p => 0 <= Packet.distanceTraveled p) (items (packets s)) ->
  drawsInRange (world s) ->
  (runFrame selectedTopology fuel t s = Diverge
   /\ (selectedTopology = "mesh"%string \/ selectedTopology = "hybrid"%string))
  \/ exists s',
       runFrame selectedTopology fuel t s = Ok s'
       /\ lastTime s' <= t
       /\ Forall (fun p => 0 <= Packet.distanceTraveled p) (items (packets s'))
       /\ drawsInRange (world s').
Proof.
  intros Ht Hpk Hdraws. unfold runFrame.
  destruct (animationFrameId s) as [id |];
    [| right; exists s; split; [reflexivity |];
       split; [exact Ht | split; [exact Hpk | exact Hdraws]]].
  destruct (existsb (Nat.eqb id) (pendingFrames s));
    [| right; exists s; split; [reflexivity |];
       split; [exact Ht | split; [exact Hpk | exact Hdraws]]].
  match goal with
  | |- (animate _ _ _ ?s0 = _ /\ _) \/ _ =>
      destruct (animate_outcome selectedTopology fuel t s0 Ht Hpk Hdraws)
        as [Hd | (s' & Hok & Hwell & Hdr & Hlast)]
  end.
  - left; exact Hd.
  - right. exists s'. split; [exact Hok |]. split; [lra |].
    split; [apply wellPlaced_nonneg; exact Hwell | exact Hdr].
Qed.

(** X18. A run never raises.  Started from a state whose packets have
    non-negative travelled distances, with frame times that never go back
    and a random source that keeps its contract, any number of frames runs
    to the end, unless the topology is mesh or hybrid and a placement loop
    does not end; the packets at the end again have non-negative
    distances. *)
Theorem runFrames_never_raises (selectedTopology : string) (fuel : nat)
  (times : list R) (s : AnimState) :
  ascendingFrom (lastTime s) times ->
  Forall (fun p => 0 <= Packet.distanceTraveled p) (items (packets s)) ->
  (forall n, 0 <= mathRandom (world s) n < 1) ->
  (runFrames selectedTopology fuel times s = Diverge
   /\ (selectedTopology = "mesh"%string \/ selectedTopology = "hybrid"%string))
  \/ exists s',
       runFrames selectedTopology fuel times s = Ok s'
       /\ Forall (fun p => 0 <= Packet.distanceTraveled p) (items (packets s'))
       /\ (forall n, 0 <= mathRandom (world s') n < 1).
Proof.
  assert (Hgen : forall (t0 : R) (s0 : AnimState),
             lastTime s0 <= t0 ->
             ascendingFrom t0 times ->
             Forall (fun p => 0 <= Packet.distanceTraveled p) (items (packets s0)) ->
             drawsInRange (world s0) ->
             (runFrames selectedTopology fuel times s0 = Diverge
              /\ (selectedTopology = "mesh"%string
                  \/ selectedTopology = "hybrid"%string))
             \/ exists s',
                  runFrames selectedTopology fuel times s0 = Ok s'
                  /\ Forall (fun p => 0 <= Packet.distanceTraveled p)
                            (items (packets s'))
                  /\ drawsInRange (world s')).
  { induction times as [| t times IH]; intros t0 s0 Hle Hasc Hpk Hdr.
    - right. exists s0. split; [reflexivity |]. split; [exact Hpk | exact Hdr].
    - cbn [ascendingFrom] in Hasc. destruct Hasc as [Ht Hasc]. cbn [runFrames].
      destruct (runFrame_outcome selectedTopology fuel t s0) as
        [[Hd Hsel] | (s1 & Hok & Hle1 & Hpk1 & Hdr1)];
        [lra | exact Hpk | exact Hdr | |].
      + left. rewrite Hd. split; [reflexivity | exact Hsel].
      + rewrite Hok. cbn [rbind]. apply (IH t s1); assumption. }
  intros Hasc Hpk Hdraws.
  apply (Hgen (lastTime s) s); [lra | exact Hasc | exact Hpk | exact Hdraws].
Qed.

Lemma runFrames_never_raises_witness :
  (runFrames "tree" 0 [16; 32; 1500; 1516]
     (mkAnimState emptyArray 0 500 300 (Some 1%nat) [1%nat] 1
        (mkWorld [] zeroDraws) 0) = Diverge
   /\ ("tree"%string = "mesh"%string \/ "tree"%string = "hybrid"%string))
  \/ exists s',
       runFrames "tree" 0 [16; 32; 1500; 1516]
         (mkAnimState emptyArray 0 500 300 (Some 1%nat) [1%nat] 1
            (mkWorld [] zeroDraws) 0) = Ok s'
       /\ Forall (fun p => 0 <= Packet.distanceTraveled p) (items (packets s'))
       /\ (forall n, 0 <= mathRandom (world s') n < 1).
Proof.
  apply (runFrames_never_raises "tree" 0 [16; 32; 1500; 1516]
           (mkAnimState emptyArray 0 500 300 (Some 1%nat) [1%nat] 1
              (mkWorld [] zeroDraws) 0)).
  - cbn [ascendingFrom lastTime]. lra.
  - constructor.
  - intros n. apply zeroDraws_in_range.
Defined.

(** * Resize, frame and cleanup on a running animation *)

Lemma runningExample_draws : drawsInRange (world runningExample).
Proof. intros n; apply zeroDraws_in_range. Qed.

Lemma runningExample_oneLoop : oneLoop runningExample.
Proof.
  exists 3%nat. split; [discriminate |]. split; reflexivity.
Qed.

(** A resize at 5000 ms finds two packets and a spawn time of 4500 ms, and
    leaves at most the packet its own frame spawned; a resize at 800 ms
    finds one packet and leaves none. *)
Lemma resizeCanvas_restarts_packets_witness :
  (length (items (packets runningExample)) = 2%nat
   /\ lastSpawnTime (packets runningExample) = Some 4500
   /\ exists s' : AnimState,
        resizeCanvas "star" 0 500 5000 runningExample = Ok s'
        /\ (length (items (packets s')) <= 1)%nat
        /\ (length (items (packets s'))
            <= spawnEvents s' - spawnEvents runningExample)%nat
        /\ (5000 <= packetInterval -> items (packets s') = [])
        /\ (forall p, In p (items (packets s')) -> Packet.distanceTraveled p = 0)
        /\ lastTime s' = 5000)
  /\ (length (items (packets earlyExample)) = 1%nat
      /\ lastSpawnTime (packets earlyExample) = Some 200
      /\ exists s' : AnimState,
           resizeCanvas "star" 0 500 800 earlyExample = Ok s'
           /\ items (packets s') = []
           /\ (length (items (packets s')) <= 1)%nat
           /\ (length (items (packets s'))
               <= spawnEvents s' - spawnEvents earlyExample)%nat
           /\ (forall p, In p (items (packets s')) -> Packet.distanceTraveled p = 0)
           /\ lastTime s' = 800).
Proof.
  split.
  - split; [reflexivity |]. split; [reflexivity |].
    destruct (resizeCanvas_star 0 500 5000 runningExample) as (s' & Hresize & _).
    + unfold packetInterval; lra.
    + exact runningExample_draws.
    + rewrite canvas_min_500; lra.
    + exists s'. split; [exact Hresize |].
      exact (resizeCanvas_restarts_packets "star" 0 500 5000 runningExample s'
               Hresize).
  - split; [reflexivity |]. split; [reflexivity |].
    assert (Hok : exists s', resizeCanvas "star" 0 500 800 earlyExample = Ok s').
    { unfold resizeCanvas.
      match goal with
      | |- exists s', animate _ _ _ ?s0 = _ =>
          destruct (animate_outcome "star" 0 800 s0)
            as [[_ [Hsel | Hsel]] | (s' & Hrun & _)]
      end.
      - cbn [lastTime]; lra.
      - constructor.
      - intros n; apply zeroDraws_in_range.
      - discriminate Hsel.
      - discriminate Hsel.
      - exists s'; exact Hrun. }
    destruct Hok as (s' & Hresize).
    destruct (resizeCanvas_restarts_packets "star" 0 500 800 earlyExample s'
                Hresize) as (Hone & Hspawned & Hearly & Hzero & Hlast).
    exists s'. split; [exact Hresize |].
    split; [apply Hearly; unfold packetInterval; lra |].
    split; [exact Hone |]. split; [exact Hspawned |].
    split; [exact Hzero | exact Hlast].
Defined.

(** On a running animation, whose third frame request is pending, a resize
    and a frame each cancel it and leave the fourth as the only one, and
    the cleanup cancels it and leaves none. *)
Lemma single_animation_loop_witness :
  (pendingFrames runningExample = [3%nat]
   /\ animationFrameId runningExample = Some 3%nat)
  /\ (exists s' : AnimState,
         resizeCanvas "star" 0 500 5000 runningExample = Ok s'
         /\ oneLoop s' /\ pendingFrames s' = [4%nat])
  /\ (exists s' : AnimState,
         runFrame "star" 0 4916 runningExample = Ok s'
         /\ oneLoop s' /\ pendingFrames s' = [4%nat])
  /\ pendingFrames (cleanup runningExample) = []
  /\ (forall t : R,
         runFrame "star" 0 t (cleanup runningExample)
         = Ok (cleanup runningExample)).
Proof.
  destruct (single_animation_loop "star" 0 runningExample
              (or_intror runningExample_oneLoop))
    as (Hresize & Hframe & Hclean & Hafter).
  split; [split; reflexivity |].
  split; [| split; [| split; [exact Hclean | exact Hafter]]].
  - destruct (resizeCanvas_star 0 500 5000 runningExample) as (s' & Hrun & _).
    + unfold packetInterval; lra.
    + exact runningExample_draws.
    + rewrite canvas_min_500; lra.
    + exists s'. split; [exact Hrun |]. exact (Hresize 500%nat 5000 s' Hrun).
  - destruct (runFrame_outcome "star" 0 4916 runningExample)
      as [[_ [Hsel | Hsel]] | (s' & Hrun & _)].
    + cbn [lastTime runningExample]; lra.
    + repeat constructor; cbn [Packet.distanceTraveled]; lra.
    + exact runningExample_draws.
    + discriminate Hsel.
    + discriminate Hsel.
    + exists s'. split; [exact Hrun |].
      destruct (Hframe 4916 s' Hrun) as [[Hnone _] | Hone]; [| exact Hone].
      discriminate Hnone.
Defined.
